(** * Timetable assignment engine of the university scheduler (src/app.py)

    A shallow embedding of the scheduling core of [MainWindow]:
    [_build_professor_slots], [_next_available_professor_slot],
    [_suggest_identifier], [_assign_room] and [_generate_schedule],
    together with the properties the specification states about them,
    and of the helpers around it: [_suggest_subject_code],
    [_normalize_time_range], [_split_hours], [_build_timeslots] and
    [_clean_text].

    Python [str] values are modelled by [string] (characters are code points
    below 256), Python [int] by [N] or [Z], a [dict] used as a map by [gmap],
    a [set] by [gset], and a [dict] whose iteration order matters by an
    association list in insertion order. *)

From Stdlib Require Import String Ascii NArith ZArith List Lia.
From Stdlib Require Import Sorting.Permutation Sorting.Sorted.
From stdpp Require Import base option list gmap sets strings.
From Equations Require Import Equations.

Local Open Scope string_scope.
Local Open Scope list_scope.

(** ** Python string primitives *)

(** [c.isspace()] for a code point below 256. *)
Definition isspace (c : ascii) : bool :=
  let n := N_of_ascii c in
  ((9 <=? n) && (n <=? 13) || (28 <=? n) && (n <=? 32)
   || (n =? 133) || (n =? 160))%N.

Fixpoint lstrip (s : string) : string :=
  match s with
  | String c r => if isspace c then lstrip r else s
  | EmptyString => EmptyString
  end.

(** [s.rstrip()], from the right end: the tail is stripped first and the head
    is dropped only when nothing is left behind it. *)
Fixpoint rstrip (s : string) : string :=
  match s with
  | String c r =>
      match rstrip r with
      | EmptyString => if isspace c then EmptyString else String c EmptyString
      | r' => String c r'
      end
  | EmptyString => EmptyString
  end.

(** [s.strip()] *)
Definition strip (s : string) : string := rstrip (lstrip s).

(** Truthiness of a [str]: [bool(s)]. *)
Definition truthy (s : string) : bool :=
  match s with EmptyString => false | String _ _ => true end.

(** [\d] on code points below 256 is [0-9]. *)
Definition is_digit (c : ascii) : bool :=
  let n := N_of_ascii c in ((48 <=? n) && (n <=? 57))%N.

Definition digit_val (c : ascii) : N := N_of_ascii c - 48.
Definition digit_chr (d : N) : ascii := ascii_of_N (48 + d).

Fixpoint int_acc (acc : N) (s : string) : option N :=
  match s with
  | EmptyString => Some acc
  | String c r =>
      if is_digit c then int_acc (10 * acc + digit_val c) r else None
  end.

(** [int(s)] on what a [(\d{k})] group can hold: a run of decimal digits.
    [None] stands for the [ValueError] Python raises on the empty string. *)
Definition int_of_str (s : string) : option N :=
  match s with
  | EmptyString => None
  | String _ _ => int_acc 0 s
  end.

(** The [w] low-order decimal digits of [n], most significant first. *)
Fixpoint dec_digits (w : nat) (n : N) : string :=
  match w with
  | O => EmptyString
  | S w' => dec_digits w' (n / 10) +:+ String (digit_chr (n mod 10)) EmptyString
  end.

Fixpoint ndigits_fuel (fuel : nat) (n : N) : nat :=
  match fuel with
  | O => 1
  | S f => if (n <? 10)%N then 1 else S (ndigits_fuel f (n / 10))
  end.

(** [len(str(n))]; the binary size of [n] bounds the number of divisions. *)
Definition ndigits (n : N) : nat := ndigits_fuel (N.size_nat n) n.

(** [f"{n:0{w}d}"]: decimal, zero-padded on the left to at least [w]
    characters. *)
Definition format_int (w : nat) (n : N) : string :=
  dec_digits (Nat.max w (ndigits n)) n.

(** ** Data model (the dataclasses of app.py) *)

(** [datetime.time(hour, minute)] *)
Record time := mk_time { hour : nat; minute : nat }.

Record Professor := mk_Professor {
  prof_id : string;
  prof_name : string;
  office_start : time;
  office_end : time
}.

Record Room := mk_Room {
  number : string;
  room_capacity : Z;
  lec_sem : string
}.

Record Subject := mk_Subject {
  code : string;
  subject_name : string;
  subject_type : string;
  semester : Z;
  format_ : string;
  capacity : Z;
  professor_id : string
}.

Record ScheduleEntry := mk_ScheduleEntry {
  schedule_id : string;
  subject_code : string;
  entry_professor_id : string;
  room_number : string;
  day : string;
  time_ : string
}.

(** ** Availability generator: [_build_professor_slots] *)

(** [datetime.combine(base_date, t)], in minutes after midnight of
    [base_date]. *)
Definition combine (t : time) : nat := 60 * hour t + minute t.

(** [dt.strftime("%H:%M")] for a datetime given in minutes after midnight of
    the base date. *)
Definition strftime_HM (dt : nat) : string :=
  format_int 2 (N.of_nat ((dt / 60) mod 24)) +:+ ":"
  +:+ format_int 2 (N.of_nat (dt mod 60)).

Definition days : list string :=
  ["Monday"; "Tuesday"; "Wednesday"; "Thursday"; "Friday"].

(** One hour, [timedelta(hours=1)], in minutes. *)
Definition step : nat := 60.

(** The inner [while current + step <= end_dt] loop for one day. *)
Equations? day_slots (day_name : string) (end_dt current : nat)
  : list (string * string) by wf (end_dt - current) lt :=
  day_slots day_name end_dt current with le_dec (current + step) end_dt => {
    | left _ := (day_name, strftime_HM current)
                  :: day_slots day_name end_dt (current + step);
    | right _ := [] }.
Proof. unfold step in *. lia. Qed.

Definition _build_professor_slots (professor : Professor)
  : list (string * string) :=
  let start_dt := combine (office_start professor) in
  let end_dt := combine (office_end professor) in
  if le_dec end_dt start_dt then []
  else flat_map (fun d => day_slots d end_dt start_dt) days.

Definition _next_available_professor_slot (professor_id : string)
    (slots : list (string * string))
    (used_prof_slots : gset (string * string * string))
  : option (string * string) :=
  List.find (fun '(d, t) =>
               negb (bool_decide ((professor_id, d, t) ∈ used_prof_slots)))
            slots.

(** ** Identifier allocator: [_suggest_identifier] *)

Fixpoint strip_prefix (p s : string) : option string :=
  match p, s with
  | EmptyString, _ => Some s
  | String a p', String b s' =>
      if Ascii.eqb a b then strip_prefix p' s' else None
  | String _ _, EmptyString => None
  end.

(** [\d{k}]: exactly [k] digits, and what follows them. *)
Fixpoint take_digits (k : nat) (s : string) : option (string * string) :=
  match k with
  | O => Some (EmptyString, s)
  | S k' =>
      match s with
      | String c r =>
          if is_digit c
          then match take_digits k' r with
               | Some (d, rest) => Some (String c d, rest)
               | None => None
               end
          else None
      | EmptyString => None
      end
  end.

Definition newline : ascii := ascii_of_N 10.

(** [$] without [re.MULTILINE]: the end of the string, or just before a
    newline that is its last character. *)
Definition at_dollar (rest : string) : bool :=
  match rest with
  | EmptyString => true
  | String c EmptyString => Ascii.eqb c newline
  | _ => false
  end.

(** [re.compile(rf"{re.escape(prefix)}(\d{{{digits}}})$").match(value)],
    returning [match.group(1)]. *)
Definition pattern_match (prefix : string) (digits : nat) (value : string)
  : option string :=
  match strip_prefix prefix value with
  | Some rest =>
      match take_digits digits rest with
      | Some (d, rest') => if at_dollar rest' then Some d else None
      | None => None
      end
  | None => None
  end.

(** [max(numbers, default=0)] on non-negative integers. *)
Definition max_default0 (numbers : list N) : N := foldr N.max 0%N numbers.

(** [None] is the [ValueError] of [int("")], reachable only with
    [digits = 0]. *)
Definition _suggest_identifier (existing : list string) (prefix : string)
    (digits : nat) : option string :=
  match mapM int_of_str (omap (pattern_match prefix digits) existing) with
  | Some numbers =>
      Some (prefix +:+ format_int digits (max_default0 numbers + 1))
  | None => None
  end.

Definition all_digits (s : string) : bool :=
  forallb is_digit (list_ascii_of_string s).

(** What the pattern of [_suggest_identifier] accepts, said in words:
    [prefix], then the [digits] decimal digits [ds], then the end of the
    string or one final newline. *)
Definition id_matches (prefix : string) (digits : nat) (v ds : string)
  : Prop :=
  (v = prefix +:+ ds \/ v = prefix +:+ ds +:+ String newline EmptyString)
  /\ String.length ds = digits /\ all_digits ds = true.

(** ** Three-way comparisons *)

(** A three-way comparison that behaves as one of a total preorder. *)
Record comparator {A : Type} (cmp : A -> A -> comparison) : Prop := {
  cmp_antisym : forall x y, cmp y x = CompOpp (cmp x y);
  cmp_eq_l : forall x y z, cmp x y = Eq -> cmp x z = cmp y z;
  cmp_lt_trans : forall x y z, cmp x y = Lt -> cmp y z = Lt -> cmp x z = Lt
}.

Definition lex {A : Type} (c1 c2 : A -> A -> comparison) (x y : A)
  : comparison :=
  match c1 x y with Eq => c2 x y | c => c end.

Definition on {A B : Type} (f : A -> B) (cmp : B -> B -> comparison)
    (x y : A) : comparison := cmp (f x) (f y).

(** ** Room index *)

(** [sorted(l, key=...)]: the stable sort, for a total preorder [le] on the
    keys. An element is inserted in front of the first one it does not
    exceed, so equal keys keep their input order. *)
Fixpoint insert_sorted {A} (le : A -> A -> bool) (x : A) (l : list A)
  : list A :=
  match l with
  | [] => [x]
  | y :: l' => if le x y then x :: l else y :: insert_sorted le x l'
  end.

Definition py_sorted {A} (le : A -> A -> bool) (l : list A) : list A :=
  foldr (insert_sorted le) [] l.

Definition not_gt (c : comparison) : bool :=
  match c with Gt => false | _ => true end.

(** Comparison of the tuples [(r.lec_sem, r.capacity, r.number)]. *)
Definition room_key_compare (r1 r2 : Room) : comparison :=
  match String.compare (lec_sem r1) (lec_sem r2) with
  | Eq =>
      match Z.compare (room_capacity r1) (room_capacity r2) with
      | Eq => String.compare (number r1) (number r2)
      | c => c
      end
  | c => c
  end.

Definition room_key_le (r1 r2 : Room) : bool := not_gt (room_key_compare r1 r2).

(** [room.lec_sem or "Unspecified"] *)
Definition type_key (room : Room) : string :=
  if truthy (lec_sem room) then lec_sem room else "Unspecified".

(** [d.setdefault(key, []).append(room)] on a dict kept in insertion order. *)
Fixpoint setdefault_append (key : string) (room : Room)
    (d : list (string * list Room)) : list (string * list Room) :=
  match d with
  | [] => [(key, [room])]
  | (k, rs) :: d' =>
      if String.eqb k key then (k, rs ++ [room]) :: d'
      else (k, rs) :: setdefault_append key room d'
  end.

Definition build_rooms_by_type (rooms : list Room)
  : list (string * list Room) :=
  foldl (fun d room => setdefault_append (type_key room) room d) []
        (py_sorted room_key_le rooms).

(** [rooms_by_type.get(room_type, [])] *)
Fixpoint get_rooms (d : list (string * list Room)) (room_type : string)
  : list Room :=
  match d with
  | [] => []
  | (k, rs) :: d' => if String.eqb k room_type then rs else get_rooms d' room_type
  end.

(** ** Room selection: [_assign_room] *)

Definition slot_free (used_slots : gset (string * string * string))
    (d t : string) (room : Room) : bool :=
  negb (bool_decide ((number room, d, t) ∈ used_slots)).

(** [for room in rooms: if slot_key in used_slots: continue; ... return] *)
Definition first_free (used_slots : gset (string * string * string))
    (d t : string) (rooms : list Room) : option Room :=
  List.find (slot_free used_slots d t) rooms.

Definition candidate_types (preferred_type : option string)
    (rooms_by_type : list (string * list Room)) : list string :=
  let start := match preferred_type with Some p => [p] | None => [] end in
  foldl (fun acc key => if bool_decide (key ∈ acc) then acc else acc ++ [key])
        start (map fst rooms_by_type).

(** The rooms one candidate type offers to the scan. *)
Definition suitable_rooms (required_capacity : Z) (rooms : list Room)
  : list Room :=
  match List.filter (fun room => (required_capacity <=? room_capacity room)%Z)
                    rooms with
  | [] => rooms
  | suitable => suitable
  end.

(** The per-type step of room selection as the specification words it:
    the first free room among those of sufficient capacity, and, if none of
    them is free, the first free room of the type. *)
Definition spec_pick_in_type (required_capacity : Z)
    (used_slots : gset (string * string * string)) (d t : string)
    (rooms : list Room) : option Room :=
  match first_free used_slots d t
          (List.filter (fun room => (required_capacity <=? room_capacity room)%Z)
                       rooms) with
  | Some room => Some room
  | None => first_free used_slots d t rooms
  end.

(** [for room_type in candidate_types: ...] *)
Fixpoint scan_types (rooms_by_type : list (string * list Room))
    (required_capacity : Z) (used_slots : gset (string * string * string))
    (d t : string) (types : list string) : option Room :=
  match types with
  | [] => None
  | room_type :: types' =>
      let rooms := get_rooms rooms_by_type room_type in
      match first_free used_slots d t (suitable_rooms required_capacity rooms) with
      | Some room => Some room
      | None => scan_types rooms_by_type required_capacity used_slots d t types'
      end
  end.

(** [for rooms in rooms_by_type.values(): for room in rooms: ...] *)
Definition scan_all (rooms_by_type : list (string * list Room))
    (used_slots : gset (string * string * string)) (d t : string)
  : option Room :=
  first_free used_slots d t (flat_map snd rooms_by_type).

(** Returns the room number and the updated [used_slots]. *)
Definition _assign_room (entry : ScheduleEntry) (d t : string)
    (subjects_by_code : gmap string Subject)
    (rooms_by_type : list (string * list Room))
    (used_slots : gset (string * string * string))
  : string * gset (string * string * string) :=
  let subject := subjects_by_code !! subject_code entry in
  let preferred_type :=
    match subject with
    | Some s => if truthy (format_ s) then Some (format_ s) else None
    | None => None
    end in
  let required_capacity :=
    match subject with Some s => capacity s | None => 0%Z end in
  let current_room :=
    if truthy (room_number entry) then strip (room_number entry)
    else EmptyString in
  if truthy current_room
     && negb (bool_decide ((current_room, d, t) ∈ used_slots))
  then (current_room, {[ (current_room, d, t) ]} ∪ used_slots)
  else
    match scan_types rooms_by_type required_capacity used_slots d t
                     (candidate_types preferred_type rooms_by_type) with
    | Some room => (number room, {[ (number room, d, t) ]} ∪ used_slots)
    | None =>
        match scan_all rooms_by_type used_slots d t with
        | Some room => (number room, {[ (number room, d, t) ]} ∪ used_slots)
        | None => (current_room, used_slots)
        end
    end.

(** ** Assignment engine: [_generate_schedule] *)

#[global] Instance ScheduleEntry_inhabited : Inhabited ScheduleEntry :=
  populate (mk_ScheduleEntry EmptyString EmptyString EmptyString
                             EmptyString EmptyString EmptyString).

(** The mutable state of the run. [ScheduleEntry] objects live in [heap] and
    are referred to by address: the entries of the previous schedule occupy
    the first addresses, entries created during the run are appended.
    [new_entries] holds addresses, as the Python list holds references. *)
Record engine_state := mk_engine_state {
  heap : list ScheduleEntry;
  taken_schedule_ids : list string;
  used_prof_slots : gset (string * string * string);
  used_room_slots : gset (string * string * string);
  new_entries : list nat;
  skipped_no_slot : list string;
  skipped_no_room : list string
}.

(** [{key(x): x for x in l}]: later elements overwrite earlier ones. *)
Definition dict_by {A} (key : A -> string) (l : list A) : gmap string A :=
  foldl (fun m x => <[key x := x]> m) ∅ l.

(** [{entry.subject_code: entry for entry in self.schedule_entries}], with the
    entry objects given by their addresses. *)
Definition index_entries (entries : list ScheduleEntry) : gmap string nat :=
  foldl (fun m ae => <[subject_code ae.2 := ae.1]> m) ∅ (imap pair entries).

(** [self._suggest_identifier(taken_schedule_ids, prefix="SCH", digits=3)];
    with three digits [int] is never applied to the empty string. *)
Definition next_schedule_id (taken : list string) : string :=
  default EmptyString (_suggest_identifier taken "SCH" 3).

(** The eligibility loop: one subject. *)
Definition classify (professors_by_id : gmap string Professor)
    (acc : list (Subject * Professor) * list string) (subject : Subject)
  : list (Subject * Professor) * list string :=
  match professors_by_id !! professor_id subject with
  | Some professor =>
      if truthy (professor_id subject)
      then (acc.1 ++ [(subject, professor)], acc.2)
      else (acc.1, acc.2 ++ [code subject])
  | None => (acc.1, acc.2 ++ [code subject])
  end.

(** Eligibility in one piece: the subject with its professor when the
    professor identifier is non-empty and known. *)
Definition eligible_of (professors_by_id : gmap string Professor)
    (subject : Subject) : option (Subject * Professor) :=
  match professors_by_id !! professor_id subject with
  | Some professor =>
      if truthy (professor_id subject) then Some (subject, professor) else None
  | None => None
  end.

Definition is_none {A} (o : option A) : bool :=
  match o with None => true | Some _ => false end.

Section subject_pass.
Variable subjects_by_code : gmap string Subject.
Variable rooms_by_type : list (string * list Room).
Variable professor_slots : gmap string (list (string * string)).
Variable professor_slot_lookup : gmap string (gset (string * string)).
Variable existing_entries : gmap string nat.

(** Lines 802-813: the entry object of the subject, as an address, with
    the heap and the taken identifiers after its creation or update. *)
Definition resolve_entry (st : engine_state) (subject : Subject)
    (professor : Professor) : nat * list ScheduleEntry * list string :=
  match existing_entries !! code subject with
  | None =>
      let sid := next_schedule_id (taken_schedule_ids st) in
      (length (heap st),
       heap st ++ [mk_ScheduleEntry sid (code subject) (prof_id professor)
                                    EmptyString EmptyString EmptyString],
       taken_schedule_ids st ++ [sid])
  | Some a =>
      let entry := heap st !!! a in
      let '(sid, taken) :=
        if truthy (schedule_id entry)
        then (schedule_id entry, taken_schedule_ids st)
        else let sid := next_schedule_id (taken_schedule_ids st) in
             (sid, taken_schedule_ids st ++ [sid]) in
      (a,
       <[a := mk_ScheduleEntry sid (code subject) (prof_id professor)
                (room_number entry) (day entry) (time_ entry)]> (heap st),
       taken)
  end.

(** Lines 815-825: the slot kept from the entry or the first free one. *)
Definition resolve_slot (entry : ScheduleEntry) (professor : Professor)
    (slots_for_prof : list (string * string))
    (used : gset (string * string * string)) : option (string * string) :=
  let kept :=
    if truthy (day entry) && truthy (time_ entry)
    then
      if negb (bool_decide
                 ((prof_id professor, day entry, time_ entry) ∈ used))
         && bool_decide
              ((day entry, time_ entry)
                 ∈ default ∅ (professor_slot_lookup !! prof_id professor))
      then Some (day entry, time_ entry)
      else None
    else None in
  match kept with
  | Some slot => Some slot
  | None =>
      _next_available_professor_slot (prof_id professor) slots_for_prof used
  end.

(** The body of [for subject, professor in eligible_subjects]. *)
Definition process_subject (st : engine_state) (sp : Subject * Professor)
  : engine_state :=
  let '(subject, professor) := sp in
  match default [] (professor_slots !! prof_id professor) with
  | [] =>
      mk_engine_state (heap st) (taken_schedule_ids st) (used_prof_slots st)
        (used_room_slots st) (new_entries st)
        (skipped_no_slot st ++ [code subject]) (skipped_no_room st)
  | slots_for_prof =>
      let '(a, heap1, taken1) := resolve_entry st subject professor in
      let entry := heap1 !!! a in
      match resolve_slot entry professor slots_for_prof
                         (used_prof_slots st) with
      | None =>
          mk_engine_state heap1 taken1 (used_prof_slots st)
            (used_room_slots st) (new_entries st)
            (skipped_no_slot st ++ [code subject]) (skipped_no_room st)
      | Some (d, time_value) =>
          let tentative_entry :=
            mk_ScheduleEntry (schedule_id entry) (subject_code entry)
              (prof_id professor) (room_number entry) d time_value in
          let '(room, used_room1) :=
            _assign_room tentative_entry d time_value subjects_by_code
                         rooms_by_type (used_room_slots st) in
          if truthy room
          then
            mk_engine_state
              (<[a := mk_ScheduleEntry (schedule_id entry)
                        (subject_code entry) (prof_id professor) room d
                        time_value]> heap1)
              taken1
              ({[ (prof_id professor, d, time_value) ]} ∪ used_prof_slots st)
              used_room1 (new_entries st ++ [a])
              (skipped_no_slot st) (skipped_no_room st)
          else
            mk_engine_state heap1 taken1 (used_prof_slots st) used_room1
              (new_entries st) (skipped_no_slot st)
              (skipped_no_room st ++ [code subject])
      end
  end.

Definition subject_pass (st : engine_state)
    (eligible_subjects : list (Subject * Professor)) : engine_state :=
  foldl process_subject st eligible_subjects.
End subject_pass.

(** What a run leaves behind: a validation warning, after which
    [self.schedule_entries] is not rebound, or the new value of
    [self.schedule_entries] with the three lists of skipped subject codes
    that the status message reports. *)
Inductive outcome :=
| ValidationError (message : string)
| Scheduled (entries : list ScheduleEntry)
            (skipped_no_prof skipped_no_slot skipped_no_room : list string).

Definition is_nil {A} (l : list A) : bool :=
  match l with [] => true | _ => false end.

Definition schedule_id_le (e1 e2 : ScheduleEntry) : bool :=
  not_gt (String.compare (schedule_id e1) (schedule_id e2)).

(** The inputs of a run: [self.subjects], [self.professors], [self.rooms]
    and [self.schedule_entries]. *)
Record snapshot := mk_snapshot {
  subjects : list Subject;
  professors : list Professor;
  rooms : list Room;
  schedule_entries : list ScheduleEntry
}.

Definition professors_by_id_of (s : snapshot) : gmap string Professor :=
  dict_by prof_id (professors s).

Definition subjects_by_code_of (s : snapshot) : gmap string Subject :=
  dict_by code (subjects s).

Definition eligibility (s : snapshot)
  : list (Subject * Professor) * list string :=
  foldl (classify (professors_by_id_of s)) ([], []) (subjects s).

Definition professor_slots_of (s : snapshot)
  : gmap string (list (string * string)) :=
  foldl (fun m prof => <[prof_id prof := _build_professor_slots prof]> m) ∅
        (professors s).

Definition professor_slot_lookup_of (s : snapshot)
  : gmap string (gset (string * string)) :=
  foldl (fun m prof =>
           <[prof_id prof := list_to_set (_build_professor_slots prof)]> m) ∅
        (professors s).

Definition initial_state (s : snapshot) : engine_state :=
  mk_engine_state (schedule_entries s)
    (List.filter truthy (map schedule_id (schedule_entries s)))
    ∅ ∅ [] [] [].

(** The state after the loop over the eligible subjects. *)
Definition run_pass (s : snapshot) : engine_state :=
  subject_pass (subjects_by_code_of s) (build_rooms_by_type (rooms s))
    (professor_slots_of s) (professor_slot_lookup_of s)
    (index_entries (schedule_entries s))
    (initial_state s) (eligibility s).1.

(** The objects [new_entries] refers to, in list order. *)
Definition deref (h : list ScheduleEntry) (addrs : list nat)
  : list ScheduleEntry :=
  map (fun a => h !!! a) addrs.

Definition _generate_schedule (s : snapshot) : outcome :=
  if is_nil (subjects s)
  then ValidationError "No subjects available to schedule."
  else if is_nil (professors s)
  then ValidationError "No professors available to schedule."
  else if is_nil (rooms s)
  then ValidationError "No rooms available to schedule."
  else if is_nil (eligibility s).1
  then ValidationError "No subjects are linked to a valid professor."
  else
    let st := run_pass s in
    if is_nil (new_entries st)
    then ValidationError "Unable to generate schedule with the current data."
    else Scheduled (py_sorted schedule_id_le (deref (heap st) (new_entries st)))
                   (eligibility s).2 (skipped_no_slot st) (skipped_no_room st).

(** The loop body with the dictionaries of a snapshot. *)
Definition snapshot_step (s : snapshot) (st : engine_state)
    (sp : Subject * Professor) : engine_state :=
  process_subject (subjects_by_code_of s) (build_rooms_by_type (rooms s))
    (professor_slots_of s) (professor_slot_lookup_of s)
    (index_entries (schedule_entries s)) st sp.

(** ** Sample inputs *)

Definition prof_9_11 : Professor :=
  mk_Professor "P1" "Ada" (mk_time 9 0) (mk_time 11 0).
Definition room_R1 : Room := mk_Room "R1" 30 "Lecture".
Definition subj (c p : string) (cap : Z) : Subject :=
  mk_Subject c "name" "Core" 1 "Lecture" cap p.

(** Scenario A as a snapshot. *)
Definition snapshot_scenario_A : snapshot :=
  mk_snapshot [subj "SBJ001" "P1" 20] [prof_9_11] [room_R1] [].

(** Three rooms, the larger lecture room taken on Monday at nine. *)
Definition rooms_two_lecture_one_seminar : list Room :=
  [mk_Room "A1" 10 "Lecture"; mk_Room "B1" 50 "Lecture";
   mk_Room "C1" 50 "Seminar"].

Definition used_B1_monday_9 : gset (string * string * string) :=
  {[ ("B1", "Monday", "09:00") ]}.

(** One subject whose previous assignment sits in the larger of two free
    lecture rooms. *)
Definition snapshot_previous_large_room : snapshot :=
  mk_snapshot [subj "SBJ001" "P1" 20] [prof_9_11]
              [mk_Room "R1" 30 "Lecture"; mk_Room "R2" 100 "Lecture"]
              [mk_ScheduleEntry "SCH001" "SBJ001" "P1" "R2" "Monday" "09:00"].

(** Two professors with the same single hour, one room, and a previous
    assignment of the second subject to that room at that hour. *)
Definition prof_9_10 (pid : string) : Professor :=
  mk_Professor pid "name" (mk_time 9 0) (mk_time 10 0).

Definition snapshot_one_room_two_professors : snapshot :=
  mk_snapshot [subj "SBJ001" "P1" 20; subj "SBJ002" "P2" 20]
              [prof_9_10 "P1"; prof_9_10 "P2"]
              [room_R1]
              [mk_ScheduleEntry "SCH001" "SBJ002" "P2" "R1" "Monday" "09:00"].

(** A previous assignment to a room that is no longer in the room list. *)
Definition snapshot_vanished_room : snapshot :=
  mk_snapshot [subj "SBJ001" "P1" 20] [prof_9_11] [room_R1]
              [mk_ScheduleEntry "SCH001" "SBJ001" "P1" "R9" "Monday" "09:00"].

(** Two professors, one room, no previous schedule: the state after the
    first subject has taken the room on Monday at nine. *)
Definition snapshot_one_room_fresh : snapshot :=
  mk_snapshot [subj "SBJ001" "P1" 20; subj "SBJ002" "P2" 20]
              [prof_9_10 "P1"; prof_9_10 "P2"] [room_R1] [].

Definition state_after_SBJ001 : engine_state :=
  snapshot_step snapshot_one_room_fresh
    (initial_state snapshot_one_room_fresh)
    (subj "SBJ001" "P1" 20, prof_9_10 "P1").

(** ** Invariants of the subject pass *)

(** The entry names a subject of the snapshot, carries that subject's
    non-empty professor identifier, which resolves to a professor of the
    snapshot, and sits on a slot of that professor's availability. *)
Definition well_linked (s : snapshot) (e : ScheduleEntry) : Prop :=
  exists subject professor,
    In subject (subjects s)
    /\ code subject = subject_code e
    /\ professor_id subject = entry_professor_id e
    /\ truthy (entry_professor_id e) = true
    /\ In professor (professors s)
    /\ prof_id professor = entry_professor_id e
    /\ professors_by_id_of s !! entry_professor_id e = Some professor
    /\ In (day e, time_ e) (_build_professor_slots professor).

Definition professor_slot_of (e : ScheduleEntry) : string * string * string :=
  (entry_professor_id e, day e, time_ e).

(** What holds of the state before each iteration, [remaining] being the
    eligible subjects still to process. *)
Definition pass_invariant (s : snapshot)
    (remaining : list (Subject * Professor)) (st : engine_state) : Prop :=
  length (schedule_entries s) <= length (heap st)
  /\ (forall a, In a (new_entries st) ->
                exists e, heap st !! a = Some e /\ well_linked s e
                          /\ professor_slot_of e ∈ used_prof_slots st)
  /\ (forall a sp, In a (new_entries st) -> In sp remaining ->
                   index_entries (schedule_entries s) !! code sp.1 <> Some a)
  /\ NoDup (map professor_slot_of (deref (heap st) (new_entries st))).

Definition room_slot_of (e : ScheduleEntry) : string * string * string :=
  (room_number e, day e, time_ e).

(** Scenario B as a snapshot, with a third subject without professor. *)
Definition snapshot_three_subjects : snapshot :=
  mk_snapshot [subj "SBJ001" "P1" 10; subj "SBJ002" "P1" 10;
               subj "SBJ003" "" 10]
              [prof_9_11] [room_R1] [].

(** A previous assignment that names a slot and no room. *)
Definition snapshot_previous_without_room : snapshot :=
  mk_snapshot [subj "SBJ001" "P1" 10; subj "SBJ002" "P1" 10]
              [prof_9_11] [room_R1]
              [mk_ScheduleEntry "SCH001" "SBJ001" "P1" "" "Monday" "10:00"].

(** Scenario C: office hours shorter than one hour. *)
Definition prof_9_930 : Professor :=
  mk_Professor "P1" "Ada" (mk_time 9 0) (mk_time 9 30).

Definition snapshot_short_window : snapshot :=
  mk_snapshot [subj "SBJ001" "P1" 20] [prof_9_930] [room_R1] [].

(** ** Other helpers of the main window *)

(** The greatest number that [_suggest_identifier] reads off the identifiers
    the pattern accepts, 0 when there is none. *)
Definition max_suffix (prefix : string) (digits : nat)
    (existing : list string) : N :=
  max_default0
    (omap (fun v => pattern_match prefix digits v ≫= int_of_str) existing).

(** [n] calls of [_suggest_identifier] in a row, each result appended to
    the pool before the next call, as the subject loop does with
    [taken_schedule_ids]. *)
Fixpoint suggest_many (prefix : string) (digits : nat) (n : nat)
    (existing : list string) : option (list string) :=
  match n with
  | O => Some []
  | S n' =>
      match _suggest_identifier existing prefix digits with
      | Some new_id =>
          match suggest_many prefix digits n' (existing ++ [new_id]) with
          | Some rest => Some (new_id :: rest)
          | None => None
          end
      | None => None
      end
  end.

(** The [while True] loop of [_suggest_subject_code]; [fuel] bounds the
    number of iterations. *)
Fixpoint suggest_subject_code_loop (fuel : nat) (existing : gset string)
    (counter : N) : option string :=
  match fuel with
  | O => None
  | S fuel' =>
      let candidate := "SBJ" +:+ format_int 3 counter in
      if bool_decide (candidate ∈ existing)
      then suggest_subject_code_loop fuel' existing (counter + 1)
      else Some candidate
  end.

(** [_suggest_subject_code]: one more iteration than there are codes. *)
Definition _suggest_subject_code (all_subjects : list Subject)
  : option string :=
  let existing : gset string := list_to_set (map code all_subjects) in
  suggest_subject_code_loop (S (size existing)) existing 1.

(** Comparison of [datetime.time] values: by hour, then by minute. *)
Definition time_eqb (t1 t2 : time) : bool :=
  Nat.eqb (hour t1) (hour t2) && Nat.eqb (minute t1) (minute t2).

Definition time_ltb (t1 t2 : time) : bool :=
  Nat.ltb (hour t1) (hour t2)
  || (Nat.eqb (hour t1) (hour t2) && Nat.ltb (minute t1) (minute t2)).

(** [_normalize_time_range]; one hour after [start] is taken on the clock,
    so the hour wraps at midnight. *)
Definition _normalize_time_range (start end_ : time) : time * time :=
  if time_eqb start end_
  then (start, mk_time ((hour start + 1) mod 24) (minute start))
  else if time_ltb end_ start then (end_, start)
  else (start, end_).

(** [_build_timeslots] *)
Definition week_days : list string :=
  ["Monday"; "Tuesday"; "Wednesday"; "Thursday"; "Friday"; "Saturday";
   "Sunday"].

(** [list(range(8, 22))] *)
Definition day_hours : list nat := seq 8 14.

(** The slot the loop appends for [index]. *)
Definition timeslot_at (index : nat) : string * string :=
  (nth (index mod length week_days) week_days EmptyString,
   format_int 2 (N.of_nat (nth ((index / length week_days) mod length day_hours)
                               day_hours 0))
   +:+ ":00").

Equations? build_timeslots_loop (count : Z) (slots : list (string * string))
    (index : nat) : list (string * string)
    by wf (Z.to_nat (count - Z.of_nat (length slots))) lt :=
  build_timeslots_loop count slots index
    with Z_lt_dec (Z.of_nat (length slots)) count => {
    | left _ := build_timeslots_loop count (slots ++ [timeslot_at index])
                                     (S index);
    | right _ := slots }.
Proof. rewrite length_app. cbn [length]. lia. Qed.

Definition _build_timeslots (count : Z) : list (string * string) :=
  build_timeslots_loop count [] 0.

(** [_clean_text]; [None] is Python's [None]. *)
Definition _clean_text (text : option string) (default : string) : string :=
  match text with
  | None => EmptyString
  | Some text =>
      let text := strip text in
      if truthy default && String.eqb text default then EmptyString else text
  end.

(** A previous schedule with one identifier and one entry without. *)
Definition snapshot_previous_missing_id : snapshot :=
  mk_snapshot [subj "SBJ001" "P1" 10; subj "SBJ002" "P1" 10]
              [prof_9_11] [room_R1]
              [mk_ScheduleEntry "SCH004" "SBJ001" "P1" "" "" "";
               mk_ScheduleEntry "" "SBJ002" "P1" "" "" ""].

(** Two subjects under one code, SBJ006, the second with a professor whose
    five slots are taken by the subjects before it. *)
Definition prof_14_15 (pid : string) : Professor :=
  mk_Professor pid "name" (mk_time 14 0) (mk_time 15 0).

Definition snapshot_duplicate_code : snapshot :=
  mk_snapshot [subj "SBJ001" "P2" 20; subj "SBJ002" "P2" 20;
               subj "SBJ003" "P2" 20; subj "SBJ004" "P2" 20;
               subj "SBJ005" "P2" 20;
               subj "SBJ006" "P1" 20; subj "SBJ006" "P2" 20]
              [prof_9_10 "P1"; prof_14_15 "P2"]
              [room_R1]
              [mk_ScheduleEntry "SCH001" "SBJ006" "P1" "R1" "Monday" "09:00"].

(** ** Legacy office hours: [Professor.as_dict] and [_split_hours] *)

(** [t.strftime("%H:%M")] of a [datetime.time]. *)
Definition time_HM (t : time) : string :=
  format_int 2 (N.of_nat (hour t)) +:+ ":" +:+ format_int 2 (N.of_nat (minute t)).

(** The OFFICE_HOURS text that [Professor.as_dict] writes. *)
Definition office_hours (p : Professor) : string :=
  time_HM (office_start p) +:+ " - " +:+ time_HM (office_end p).

(** One match of [\d{1,2}(?::\d{2})?] at the head of [s]. Both quantifiers
    are greedy and the pattern succeeds whatever the optional group does, so
    there is no backtracking: two digits when there are two, then the colon
    group when it is there. *)
Definition match_clock (s : string) : option string :=
  match s with
  | String c1 r1 =>
      if is_digit c1 then
        let '(hours, rest) :=
          match r1 with
          | String c2 r2 =>
              if is_digit c2 then (String c1 (String c2 EmptyString), r2)
              else (String c1 EmptyString, r1)
          | EmptyString => (String c1 EmptyString, r1)
          end in
        match rest with
        | String c (String d1 (String d2 _)) =>
            if Ascii.eqb c ":" && is_digit d1 && is_digit d2
            then Some (hours +:+ String ":" (String d1 (String d2 EmptyString)))
            else Some hours
        | _ => Some hours
        end
      else None
  | EmptyString => None
  end.

(** [re.findall] of that pattern: the matches from left to right, without
    overlap. [skip] counts the characters of the last match that are still
    to be passed over. *)
Fixpoint findall_clock (skip : nat) (s : string) : list string :=
  match s with
  | EmptyString => []
  | String c r =>
      match skip with
      | S k => findall_clock k r
      | O =>
          match match_clock s with
          | Some m => m :: findall_clock (String.length m - 1) r
          | None => findall_clock 0 r
          end
      end
  end.

(** [value.split(":", 1)] when [":" in value]. *)
Fixpoint partition_colon (value : string) : option (string * string) :=
  match value with
  | EmptyString => None
  | String c r =>
      if Ascii.eqb c ":" then Some (EmptyString, r)
      else match partition_colon r with
           | Some (h, m) => Some (String c h, m)
           | None => None
           end
  end.

(** The inner [normalize] of [_split_hours], on a match of the pattern;
    the empty result is the [except ValueError] branch. [max(0, _)] does
    nothing on a number read from digits. *)
Definition normalize (value : string) : string :=
  let '(hour_text, minute_text) :=
    match partition_colon value with
    | Some parts => parts
    | None => (value, "00")
    end in
  match int_of_str hour_text, int_of_str minute_text with
  | Some h, Some m =>
      format_int 2 (N.min 23 h) +:+ ":" +:+ format_int 2 (N.min 59 m)
  | _, _ => EmptyString
  end.

Definition _split_hours (text : string) : string * string :=
  if truthy text then
    match findall_clock 0 text with
    | start_raw :: end_raw :: _ => (normalize start_raw, normalize end_raw)
    | _ => (EmptyString, EmptyString)
    end
  else (EmptyString, EmptyString).

(** * Properties *)

(** ** Scenarios of the specification, run on the model *)

Example slots_9_11 :
  _build_professor_slots (mk_Professor "P1" "A" (mk_time 9 0) (mk_time 11 0))
  = [("Monday", "09:00"); ("Monday", "10:00");
     ("Tuesday", "09:00"); ("Tuesday", "10:00");
     ("Wednesday", "09:00"); ("Wednesday", "10:00");
     ("Thursday", "09:00"); ("Thursday", "10:00");
     ("Friday", "09:00"); ("Friday", "10:00")].
Proof. vm_compute. reflexivity. Qed.

Example scenario_A :
  _generate_schedule
    (mk_snapshot [subj "SBJ001" "P1" 20] [prof_9_11] [room_R1] [])
  = Scheduled [mk_ScheduleEntry "SCH001" "SBJ001" "P1" "R1" "Monday" "09:00"]
              [] [] [].
Proof. vm_compute. reflexivity. Qed.

Example scenario_B :
  _generate_schedule
    (mk_snapshot [subj "SBJ001" "P1" 10; subj "SBJ002" "P1" 10]
                 [prof_9_11] [room_R1] [])
  = Scheduled [mk_ScheduleEntry "SCH001" "SBJ001" "P1" "R1" "Monday" "09:00";
               mk_ScheduleEntry "SCH002" "SBJ002" "P1" "R1" "Monday" "10:00"]
              [] [] [].
Proof. vm_compute. reflexivity. Qed.

(** ** Availability generator *)

Section availability.

Lemma day_slots_blocks (d : string) (e cur : nat) :
  day_slots d e cur
  = map (fun k => (d, strftime_HM (cur + 60 * k))) (seq 0 ((e - cur) / 60)).
Proof.
  funelim (day_slots d e cur); unfold step in *.
  - match goal with IH : day_slots _ _ _ = map _ _ |- _ => rewrite IH end.
    replace (end_dt - current) with ((end_dt - (current + 60)) + 1 * 60) by lia.
    rewrite Nat.div_add by lia.
    rewrite Nat.add_1_r. cbn [seq map].
    rewrite Nat.mul_0_r, Nat.add_0_r. f_equal.
    rewrite <- seq_shift, map_map.
    apply map_ext. intros k. do 2 f_equal. lia.
  - rewrite Nat.div_small by lia. reflexivity.
Qed.

Lemma blocks_count (s e k : nat) :
  k < (e - s) / 60 <-> s + 60 * k + 60 <= e.
Proof.
  split; intros H.
  - assert (60 * ((e - s) / 60) <= e - s) by (apply Nat.Div0.mul_div_le).
    nia.
  - destruct (Nat.lt_ge_cases k ((e - s) / 60)) as [Hlt | Hge]; [exact Hlt |].
    pose proof (Nat.div_mod_eq (e - s) 60).
    pose proof (Nat.mod_upper_bound (e - s) 60). nia.
Qed.

(** C6. For a professor window from [s] to [e] (minutes after midnight),
    the generator emits, for Monday to Friday in that order, the starts
    [s], [s + 1h], ... of the whole one-hour blocks, exactly those whose end
    does not exceed [e]. The sequence is empty when [s >= e] and when the
    window is shorter than one hour; a window of exactly one hour gives one
    slot per day, five in all. *)
Theorem build_professor_slots_blocks (p : Professor) :
  let s := combine (office_start p) in
  let e := combine (office_end p) in
  _build_professor_slots p
  = flat_map (fun d => map (fun k => (d, strftime_HM (s + 60 * k)))
                           (seq 0 ((e - s) / 60)))
             ["Monday"; "Tuesday"; "Wednesday"; "Thursday"; "Friday"]
  /\ (forall d t,
        In (d, t) (_build_professor_slots p)
        <-> In d ["Monday"; "Tuesday"; "Wednesday"; "Thursday"; "Friday"]
            /\ exists k, t = strftime_HM (s + 60 * k) /\ s + 60 * k + 60 <= e)
  /\ (s >= e -> _build_professor_slots p = [])
  /\ (e - s < 60 -> _build_professor_slots p = [])
  /\ (e = s + 60 ->
      _build_professor_slots p
      = [("Monday", strftime_HM s); ("Tuesday", strftime_HM s);
         ("Wednesday", strftime_HM s); ("Thursday", strftime_HM s);
         ("Friday", strftime_HM s)]
      /\ length (_build_professor_slots p) = 5).
Proof.
  intros s e.
  assert (Heq : _build_professor_slots p
                = flat_map (fun d => map (fun k => (d, strftime_HM (s + 60 * k)))
                                         (seq 0 ((e - s) / 60))) days).
  { unfold _build_professor_slots. fold s e.
    destruct (le_dec e s) as [Hle | Hgt].
    - replace (e - s) with 0 by lia. reflexivity.
    - apply flat_map_ext. intros d. apply day_slots_blocks. }
  split; [exact Heq |].
  split; [| split; [| split]].
  - intros d t. rewrite Heq, in_flat_map. split.
    + intros (d' & Hd & Hin). apply in_map_iff in Hin.
      destruct Hin as (k & Hk & Hseq). inversion Hk; subst.
      split; [exact Hd |]. exists k. split; [reflexivity |].
      apply in_seq in Hseq. apply blocks_count. lia.
    + intros (Hd & k & -> & Hk). exists d. split; [exact Hd |].
      apply in_map_iff. exists k. split; [reflexivity |].
      apply in_seq. apply blocks_count in Hk. lia.
  - intros Hge. rewrite Heq. replace (e - s) with 0 by lia. reflexivity.
  - intros Hlt. rewrite Heq, Nat.div_small by exact Hlt. reflexivity.
  - intros He. rewrite Heq.
    replace (e - s) with (0 + 1 * 60) by lia.
    rewrite Nat.div_add by lia. cbn.
    rewrite Nat.add_0_r. split; reflexivity.
Qed.

End availability.

(** ** Identifier allocator *)

Section identifier_allocator.

Lemma append_cons (a : ascii) (p r : string) :
  String a p +:+ r = String a (p +:+ r).
Proof. reflexivity. Qed.

Lemma append_nil_l (r : string) : EmptyString +:+ r = r.
Proof. reflexivity. Qed.

Lemma append_nil_r (s : string) : s +:+ EmptyString = s.
Proof.
  induction s as [| a s IH]; [reflexivity |].
  rewrite append_cons, IH. reflexivity.
Qed.

Lemma append_assoc (a b c : string) : (a +:+ b) +:+ c = a +:+ (b +:+ c).
Proof.
  induction a as [| x a IH]; [reflexivity |].
  rewrite !append_cons, IH. reflexivity.
Qed.

Lemma strip_prefix_app (p s : string) : strip_prefix p (p +:+ s) = Some s.
Proof.
  induction p as [| a p IH]; [reflexivity |].
  rewrite append_cons. simpl. rewrite Ascii.eqb_refl. exact IH.
Qed.

Lemma strip_prefix_Some (p v r : string) :
  strip_prefix p v = Some r -> v = p +:+ r.
Proof.
  revert v. induction p as [| a p IH]; intros v H; simpl in H.
  - injection H as ->. reflexivity.
  - destruct v as [| b v]; [discriminate |].
    destruct (Ascii.eqb a b) eqn:E; [| discriminate].
    apply Ascii.eqb_eq in E. subst b. rewrite append_cons.
    f_equal. apply IH, H.
Qed.

Lemma take_digits_Some (k : nat) (s d rest : string) :
  take_digits k s = Some (d, rest) ->
  s = d +:+ rest /\ String.length d = k /\ all_digits d = true.
Proof.
  revert s d rest. induction k as [| k IH]; intros s d rest H; simpl in H.
  - inversion H; subst. auto.
  - destruct s as [| c r]; [discriminate |].
    destruct (is_digit c) eqn:Ec; [| discriminate].
    destruct (take_digits k r) as [[d' rest'] |] eqn:Et; [| discriminate].
    inversion H; subst. destruct (IH _ _ _ Et) as (-> & Hl & Hd).
    rewrite append_cons.
    unfold all_digits in *. simpl. rewrite Ec, Hd. auto.
Qed.

Lemma take_digits_app (d rest : string) :
  all_digits d = true ->
  take_digits (String.length d) (d +:+ rest) = Some (d, rest).
Proof.
  unfold all_digits. induction d as [| c d IH]; simpl; intros H.
  - reflexivity.
  - apply andb_prop in H. destruct H as [Hc Hd].
    rewrite ?append_cons. simpl. rewrite Hc, (IH Hd). reflexivity.
Qed.

Lemma pattern_match_iff (prefix : string) (digits : nat) (v ds : string) :
  pattern_match prefix digits v = Some ds <-> id_matches prefix digits v ds.
Proof.
  unfold pattern_match, id_matches. split.
  - destruct (strip_prefix prefix v) as [rest |] eqn:Ep; [| discriminate].
    apply strip_prefix_Some in Ep.
    destruct (take_digits digits rest) as [[d rest'] |] eqn:Et;
      [| discriminate].
    apply take_digits_Some in Et. destruct Et as (-> & Hl & Hd).
    destruct rest' as [| c [| c' r]]; simpl; try discriminate.
    + intros [= ->]. subst v. rewrite append_nil_r. auto.
    + destruct (Ascii.eqb c newline) eqn:Ec; [| discriminate].
      apply Ascii.eqb_eq in Ec. subst c. intros [= ->]. subst v. auto.
  - intros ([-> | ->] & Hl & Hd); rewrite strip_prefix_app; subst digits.
    + rewrite <- (append_nil_r ds) at 2.
      rewrite take_digits_app by exact Hd. reflexivity.
    + rewrite take_digits_app by exact Hd. reflexivity.
Qed.

Lemma digit_chr_val (d : N) :
  (d < 10)%N -> is_digit (digit_chr d) = true /\ digit_val (digit_chr d) = d.
Proof.
  intros H. unfold is_digit, digit_val, digit_chr.
  rewrite N_ascii_embedding by lia. split; [| lia].
  apply andb_true_intro. split; apply N.leb_le; lia.
Qed.

Lemma int_acc_snoc (s : string) (c : ascii) (acc v : N) :
  int_acc acc s = Some v -> is_digit c = true ->
  int_acc acc (s +:+ String c EmptyString) = Some (10 * v + digit_val c)%N.
Proof.
  revert acc. induction s as [| a s IH]; intros acc Hs Hc.
  - injection Hs as ->. rewrite append_nil_l. simpl. rewrite Hc. reflexivity.
  - rewrite append_cons. simpl in *.
    destruct (is_digit a); [| discriminate]. apply IH; assumption.
Qed.

Lemma dec_digits_value (w : nat) (n : N) :
  int_acc 0 (dec_digits w n) = Some (n mod 10 ^ N.of_nat w)%N.
Proof.
  revert n. induction w as [| w IH]; intros n.
  - simpl. rewrite N.mod_1_r. reflexivity.
  - cbn [dec_digits].
    destruct (digit_chr_val (n mod 10)) as [Hd Hv];
      [apply N.mod_lt; lia |].
    rewrite (int_acc_snoc _ _ _ _ (IH (n / 10)%N) Hd), Hv.
    f_equal. rewrite Nat2N.inj_succ, N.pow_succ_r'.
    rewrite N.Div0.mod_mul_r. lia.
Qed.

Lemma snoc_shape (s : string) (c : ascii) :
  is_digit c = true -> all_digits s = true ->
  String.length (s +:+ String c EmptyString) = S (String.length s)
  /\ all_digits (s +:+ String c EmptyString) = true.
Proof.
  intros Hc. unfold all_digits. induction s as [| a s IH]; intros Ha.
  - rewrite append_nil_l. simpl. rewrite Hc. auto.
  - rewrite append_cons. simpl in *.
    apply andb_prop in Ha. destruct Ha as [Ha1 Ha2].
    destruct (IH Ha2) as [Hl' Ha']. rewrite Hl', Ha1, Ha'. auto.
Qed.

Lemma dec_digits_shape (w : nat) (n : N) :
  String.length (dec_digits w n) = w /\ all_digits (dec_digits w n) = true.
Proof.
  revert n. induction w as [| w IH]; intros n; [split; reflexivity |].
  cbn [dec_digits]. destruct (IH (n / 10)%N) as [Hl Ha].
  destruct (digit_chr_val (n mod 10)) as [Hd _]; [apply N.mod_lt; lia |].
  destruct (snoc_shape _ _ Hd Ha) as [Hl' Ha'].
  rewrite Hl', Hl, Ha'. auto.
Qed.

Lemma ndigits_fuel_le (f w : nat) (n : N) :
  1 <= w -> (n < 10 ^ N.of_nat w)%N -> ndigits_fuel f n <= w.
Proof.
  revert w n. induction f as [| f IH]; intros w n Hw Hn; [exact Hw |].
  simpl. destruct (N.ltb_spec n 10) as [Hlt | Hge]; [exact Hw |].
  destruct w as [| [| w]]; [lia | simpl in Hn; lia |].
  apply le_n_S, IH; [lia |].
  rewrite Nat2N.inj_succ, N.pow_succ_r' in Hn.
  apply N.Div0.div_lt_upper_bound. exact Hn.
Qed.

Lemma format_int_fits (w : nat) (n : N) :
  1 <= w -> (n < 10 ^ N.of_nat w)%N -> format_int w n = dec_digits w n.
Proof.
  intros Hw Hn. unfold format_int.
  rewrite Nat.max_l; [reflexivity |].
  apply ndigits_fuel_le; assumption.
Qed.

Lemma int_acc_digits (ds : string) (acc : N) :
  all_digits ds = true -> exists k, int_acc acc ds = Some k.
Proof.
  unfold all_digits. revert acc.
  induction ds as [| c ds IH]; intros acc H; simpl in *; [eauto |].
  apply andb_prop in H. destruct H as [Hc Hd]. rewrite Hc. auto.
Qed.

Lemma int_of_str_digits (ds : string) :
  all_digits ds = true -> 0 < String.length ds ->
  exists k, int_of_str ds = Some k.
Proof.
  intros Ha Hl. destruct ds as [| c ds]; [simpl in Hl; lia |].
  apply (int_acc_digits _ 0%N Ha).
Qed.

Lemma matched_numbers (prefix : string) (digits : nat)
    (existing : list string) :
  0 < digits ->
  exists numbers,
    mapM int_of_str (omap (pattern_match prefix digits) existing)
    = Some numbers
    /\ forall k, In k numbers
                 <-> exists v ds, In v existing
                                  /\ id_matches prefix digits v ds
                                  /\ int_of_str ds = Some k.
Proof.
  intros Hd. induction existing as [| v l (numbers & Hm & Hn)].
  - exists []. split; [reflexivity |].
    intros k. split; [intros [] | intros (? & ? & [] & _)].
  - cbn [omap list_omap].
    destruct (pattern_match prefix digits v) as [ds |] eqn:Ep.
    + assert (Hid := proj1 (pattern_match_iff _ _ _ _) Ep).
      destruct Hid as (Hv & Hl & Ha).
      destruct (int_of_str_digits ds Ha) as [k0 Hk0]; [lia |].
      exists (k0 :: numbers). split.
      * cbn. rewrite Hk0. cbn. rewrite Hm. reflexivity.
      * intros k. cbn [In]. rewrite Hn. split.
        -- intros [<- | (v' & ds' & Hin & Hid & Hk)].
           ++ exists v, ds. repeat split; try assumption. now left.
           ++ exists v', ds'. repeat split; try apply Hid; try assumption.
              now right.
        -- intros (v' & ds' & [<- | Hin] & Hid & Hk).
           ++ left. apply pattern_match_iff in Hid. congruence.
           ++ right. eauto.
    + exists numbers. split; [exact Hm |].
      intros k. rewrite Hn. split.
      * intros (v' & ds' & Hin & Hid & Hk). exists v', ds'.
        repeat split; try apply Hid; try assumption. now right.
      * intros (v' & ds' & [<- | Hin] & Hid & Hk).
        -- apply pattern_match_iff in Hid. congruence.
        -- eauto.
Qed.

Lemma max_default0_bound (numbers : list N) :
  (forall k, In k numbers -> (k <= max_default0 numbers)%N)
  /\ (max_default0 numbers = 0%N \/ In (max_default0 numbers) numbers).
Proof.
  induction numbers as [| n l [IHb IHa]]; simpl.
  - split; [intros k [] | now left].
  - split.
    + intros k [<- | Hin]; [lia |]. specialize (IHb k Hin). lia.
    + destruct (N.max_spec n (max_default0 l)) as [[_ ->] | [_ ->]].
      * destruct IHa as [-> | Hin]; [now left | right; now right].
      * right. now left.
Qed.

(** C3, amended. With a digit width of at least one, the allocator returns
    [prefix] followed by [m + 1] zero-padded to [digits] digits, where [m]
    is the greatest numeric suffix among the existing identifiers that
    the pattern accepts ([prefix], exactly [digits] decimal digits, then the
    end of the string or one final newline) and 0 when none is accepted.
    As long as [m + 1] still fits in [digits] digits, the suffix has exactly
    [digits] characters and the returned identifier is not among the
    existing ones. *)
Theorem suggest_identifier_next (existing : list string) (prefix : string)
    (digits : nat) :
  0 < digits ->
  exists m,
    _suggest_identifier existing prefix digits
    = Some (prefix +:+ format_int digits (m + 1))
    /\ (forall v ds, In v existing -> id_matches prefix digits v ds ->
                     exists k, int_of_str ds = Some k /\ (k <= m)%N)
    /\ (m = 0%N
        \/ exists v ds, In v existing /\ id_matches prefix digits v ds
                        /\ int_of_str ds = Some m)
    /\ ((m + 1 < 10 ^ N.of_nat digits)%N ->
        String.length (format_int digits (m + 1)) = digits
        /\ int_of_str (format_int digits (m + 1)) = Some (m + 1)%N
        /\ ~ In (prefix +:+ format_int digits (m + 1)) existing).
Proof.
  intros Hd.
  destruct (matched_numbers prefix digits existing Hd) as (numbers & Hm & Hn).
  destruct (max_default0_bound numbers) as [Hb Ha].
  exists (max_default0 numbers).
  assert (Hub : forall v ds, In v existing -> id_matches prefix digits v ds ->
                exists k, int_of_str ds = Some k
                          /\ (k <= max_default0 numbers)%N).
  { intros v ds Hin Hid. destruct Hid as (Hv & Hl & Hall).
    destruct (int_of_str_digits ds Hall) as [k Hk]; [lia |].
    exists k. split; [exact Hk |]. apply Hb, Hn. exists v, ds.
    repeat split; assumption. }
  split; [| split; [exact Hub | split]].
  - unfold _suggest_identifier. rewrite Hm. reflexivity.
  - destruct Ha as [-> | Hin]; [now left |].
    right. apply Hn in Hin. exact Hin.
  - intros Hfit. rewrite format_int_fits by (assumption || lia).
    destruct (dec_digits_shape digits (max_default0 numbers + 1)) as [Hl Hall].
    assert (Hval : int_of_str (dec_digits digits (max_default0 numbers + 1))
                   = Some (max_default0 numbers + 1)%N).
    { destruct digits as [| w]; [lia |].
      pose proof (dec_digits_value (S w) (max_default0 numbers + 1)) as Hv.
      rewrite N.mod_small in Hv by exact Hfit.
      destruct (dec_digits (S w) (max_default0 numbers + 1));
        [discriminate Hl | exact Hv]. }
    split; [exact Hl | split; [exact Hval |]].
    intros Hin.
    destruct (Hub _ (dec_digits digits (max_default0 numbers + 1)) Hin)
      as (k & Hk & Hle).
    { split; [now left | split; assumption]. }
    rewrite Hval in Hk. injection Hk as <-. lia.
Qed.

(** The witness of C3: three previous identifiers, width three. *)
Lemma suggest_identifier_next_witness :
  exists m,
    _suggest_identifier ["SCH001"; "SCH007"; "ROOM12"] "SCH" 3
    = Some ("SCH" +:+ format_int 3 (m + 1))
    /\ (forall v ds, In v ["SCH001"; "SCH007"; "ROOM12"] ->
                     id_matches "SCH" 3 v ds ->
                     exists k, int_of_str ds = Some k /\ (k <= m)%N)
    /\ (m = 0%N
        \/ exists v ds, In v ["SCH001"; "SCH007"; "ROOM12"]
                        /\ id_matches "SCH" 3 v ds
                        /\ int_of_str ds = Some m)
    /\ ((m + 1 < 10 ^ N.of_nat 3)%N ->
        String.length (format_int 3 (m + 1)) = 3
        /\ int_of_str (format_int 3 (m + 1)) = Some (m + 1)%N
        /\ ~ In ("SCH" +:+ format_int 3 (m + 1))
                ["SCH001"; "SCH007"; "ROOM12"]).
Proof.
  apply (suggest_identifier_next ["SCH001"; "SCH007"; "ROOM12"] "SCH" 3).
  lia.
Defined.

(** C3 as stated fails: once the three digits are used up, the identifier
    returned for the pool [SCH999; SCH1000] is [SCH1000], a member of the
    pool. *)
Lemma suggest_identifier_not_fresh :
  _suggest_identifier ["SCH999"; "SCH1000"] "SCH" 3 = Some "SCH1000"
  /\ In "SCH1000" ["SCH999"; "SCH1000"].
Proof. split; [vm_compute; reflexivity | right; left; reflexivity]. Qed.

End identifier_allocator.

(** ** The stable sort *)

Section stable_sort.
Context {A : Type} (le : A -> A -> bool).
Hypothesis le_total : forall x y, le x y = false -> le y x = true.
Hypothesis le_trans :
  forall x y z, le x y = true -> le y z = true -> le x z = true.

Lemma insert_sorted_perm (x : A) (l : list A) :
  Permutation (insert_sorted le x l) (x :: l).
Proof.
  induction l as [| y l IH]; simpl; [reflexivity |].
  destruct (le x y); [reflexivity |].
  rewrite IH. apply perm_swap.
Qed.

Lemma py_sorted_perm (l : list A) : Permutation (py_sorted le l) l.
Proof.
  induction l as [| x l IH]; simpl; [reflexivity |].
  rewrite insert_sorted_perm. now apply perm_skip.
Qed.

Lemma insert_sorted_strongly (x : A) (l : list A) :
  StronglySorted (fun a b => le a b = true) l ->
  StronglySorted (fun a b => le a b = true) (insert_sorted le x l).
Proof.
  induction 1 as [| y l Hs IH Hy]; simpl.
  - repeat constructor.
  - destruct (le x y) eqn:E.
    + constructor; [constructor; assumption |].
      constructor; [exact E |].
      eapply List.Forall_impl; [| exact Hy]. intros z Hz. cbn in Hz.
      eapply le_trans; eassumption.
    + constructor; [exact IH |].
      apply (Permutation_Forall (Permutation_sym (insert_sorted_perm x l))).
      constructor; [apply le_total, E | exact Hy].
Qed.

Lemma py_sorted_strongly (l : list A) :
  StronglySorted (fun a b => le a b = true) (py_sorted le l).
Proof.
  induction l as [| x l IH]; simpl; [constructor |].
  now apply insert_sorted_strongly.
Qed.
End stable_sort.

(** ** Three-way comparisons and the orders they induce *)

Section comparisons.

Lemma comparator_lt_eq {A} (cmp : A -> A -> comparison) :
  comparator cmp ->
  forall x y z, cmp x y = Lt -> cmp y z = Eq -> cmp x z = Lt.
Proof.
  intros H x y z Hxy Hyz.
  assert (Hzy : cmp z y = Eq) by (rewrite (cmp_antisym _ H y z), Hyz; reflexivity).
  pose proof (cmp_eq_l _ H z y x Hzy) as Hzx.
  rewrite (cmp_antisym _ H x y), Hxy in Hzx. cbn in Hzx.
  rewrite (cmp_antisym _ H z x), Hzx. reflexivity.
Qed.

Lemma comparator_le_total {A} (cmp : A -> A -> comparison) :
  comparator cmp ->
  forall x y, not_gt (cmp x y) = false -> not_gt (cmp y x) = true.
Proof.
  intros H x y. rewrite (cmp_antisym _ H x y).
  destruct (cmp x y); cbn; congruence.
Qed.

Lemma comparator_le_trans {A} (cmp : A -> A -> comparison) :
  comparator cmp ->
  forall x y z, not_gt (cmp x y) = true -> not_gt (cmp y z) = true ->
                not_gt (cmp x z) = true.
Proof.
  intros H x y z Hxy Hyz.
  destruct (cmp x y) eqn:Exy; [| | discriminate].
  - rewrite (cmp_eq_l _ H x y z Exy). exact Hyz.
  - destruct (cmp y z) eqn:Eyz; [| | discriminate].
    + rewrite (comparator_lt_eq cmp H x y z Exy Eyz). reflexivity.
    + rewrite (cmp_lt_trans _ H x y z Exy Eyz). reflexivity.
Qed.

Lemma comparator_on {A B} (f : A -> B) (cmp : B -> B -> comparison) :
  comparator cmp -> comparator (on f cmp).
Proof.
  intros H. unfold on. constructor; intros.
  - apply (cmp_antisym _ H).
  - now apply (cmp_eq_l _ H).
  - eapply (cmp_lt_trans _ H); eassumption.
Qed.

Lemma comparator_lex {A} (c1 c2 : A -> A -> comparison) :
  comparator c1 -> comparator c2 -> comparator (lex c1 c2).
Proof.
  intros H1 H2. unfold lex. constructor.
  - intros x y. rewrite (cmp_antisym _ H1 x y).
    destruct (c1 x y); cbn; [apply (cmp_antisym _ H2) | reflexivity ..].
  - intros x y z Hxy.
    destruct (c1 x y) eqn:E1; try discriminate.
    rewrite (cmp_eq_l _ H1 x y z E1), (cmp_eq_l _ H2 x y z Hxy). reflexivity.
  - intros x y z Hxy Hyz.
    destruct (c1 x y) eqn:E1; try discriminate.
    + rewrite (cmp_eq_l _ H1 x y z E1).
      destruct (c1 y z) eqn:E2; try discriminate; [| reflexivity].
      eapply (cmp_lt_trans _ H2); eassumption.
    + destruct (c1 y z) eqn:E2; try discriminate.
      * rewrite (comparator_lt_eq c1 H1 x y z E1 E2). reflexivity.
      * rewrite (cmp_lt_trans _ H1 x y z E1 E2). reflexivity.
Qed.

Lemma ascii_compare_N (a b : ascii) :
  Ascii.compare a b = N.compare (N_of_ascii a) (N_of_ascii b).
Proof. reflexivity. Qed.

Lemma string_compare_lt_trans (x y z : string) :
  String.compare x y = Lt -> String.compare y z = Lt ->
  String.compare x z = Lt.
Proof.
  revert y z. induction x as [| a x IH]; intros [| b y] [| c z];
    simpl; try discriminate; try reflexivity.
  rewrite !ascii_compare_N.
  destruct (N.compare_spec (N_of_ascii a) (N_of_ascii b)) as [E1 | L1 | G1];
    destruct (N.compare_spec (N_of_ascii b) (N_of_ascii c)) as [E2 | L2 | G2];
    intros Hxy Hyz; try discriminate.
  - rewrite E1, E2, N.compare_refl. eapply IH; eassumption.
  - rewrite E1. apply N.compare_lt_iff in L2. rewrite L2. reflexivity.
  - rewrite <- E2. apply N.compare_lt_iff in L1. rewrite L1. reflexivity.
  - assert (L : (N_of_ascii a < N_of_ascii c)%N) by lia.
    apply N.compare_lt_iff in L. rewrite L. reflexivity.
Qed.

Lemma string_comparator : comparator String.compare.
Proof.
  constructor.
  - intros x y. apply String.compare_antisym.
  - intros x y z E. apply String.compare_eq_iff in E. now subst.
  - apply string_compare_lt_trans.
Qed.

Lemma Z_comparator : comparator Z.compare.
Proof.
  constructor.
  - intros x y. apply Z.compare_antisym.
  - intros x y z E. apply Z.compare_eq in E. now subst.
  - intros x y z Hxy Hyz.
    pose proof (proj1 (Z.compare_lt_iff x y) Hxy).
    pose proof (proj1 (Z.compare_lt_iff y z) Hyz).
    apply Z.compare_lt_iff. lia.
Qed.

Lemma room_key_comparator : comparator room_key_compare.
Proof.
  apply (comparator_lex (on lec_sem String.compare)
           (lex (on room_capacity Z.compare) (on number String.compare))).
  - apply comparator_on, string_comparator.
  - apply comparator_lex; apply comparator_on;
      [apply Z_comparator | apply string_comparator].
Qed.

Lemma schedule_id_comparator :
  comparator (on schedule_id String.compare).
Proof. apply comparator_on, string_comparator. Qed.

End comparisons.

(** ** Room index *)

Section room_index.

Lemma get_rooms_setdefault_append (k ty : string) (r : Room)
    (d : list (string * list Room)) :
  get_rooms (setdefault_append k r d) ty
  = if String.eqb k ty then get_rooms d ty ++ [r] else get_rooms d ty.
Proof.
  induction d as [| [k' rs] d IH]; simpl.
  - destruct (String.eqb k ty); reflexivity.
  - destruct (String.eqb_spec k' k) as [-> | Hne]; simpl.
    + destruct (String.eqb k ty); reflexivity.
    + rewrite IH. destruct (String.eqb_spec k' ty) as [-> | Hne'];
        [| reflexivity].
      destruct (String.eqb_spec k ty) as [-> | _]; [congruence | reflexivity].
Qed.

Lemma get_rooms_foldl (l : list Room) (d0 : list (string * list Room))
    (ty : string) :
  get_rooms (foldl (fun d room => setdefault_append (type_key room) room d)
                   d0 l) ty
  = get_rooms d0 ty
    ++ List.filter (fun r => String.eqb (type_key r) ty) l.
Proof.
  revert d0. induction l as [| r l IH]; intros d0; simpl.
  - now rewrite app_nil_r.
  - rewrite IH, get_rooms_setdefault_append.
    destruct (String.eqb (type_key r) ty); [| reflexivity].
    now rewrite <- app_assoc.
Qed.

Lemma get_rooms_build (rooms : list Room) (ty : string) :
  get_rooms (build_rooms_by_type rooms) ty
  = List.filter (fun r => String.eqb (type_key r) ty)
                (py_sorted room_key_le rooms).
Proof. unfold build_rooms_by_type. now rewrite get_rooms_foldl. Qed.

Lemma StronglySorted_filter {A} (R : A -> A -> Prop) (f : A -> bool)
    (l : list A) :
  StronglySorted R l -> StronglySorted R (List.filter f l).
Proof.
  induction 1 as [| x l Hs IH Hx]; simpl; [constructor |].
  destruct (f x); [| exact IH].
  constructor; [exact IH |].
  apply List.Forall_forall. intros y Hy. apply filter_In in Hy.
  rewrite List.Forall_forall in Hx. now apply Hx.
Qed.

Lemma StronglySorted_later {A} (R : A -> A -> Prop) (l1 l2 : list A)
    (x y : A) :
  StronglySorted R (l1 ++ x :: l2) -> In y l2 -> R x y.
Proof.
  induction l1 as [| z l1 IH]; simpl; intros Hs Hy.
  - apply StronglySorted_inv in Hs. destruct Hs as [_ Hx].
    rewrite List.Forall_forall in Hx. now apply Hx.
  - apply StronglySorted_inv in Hs. now apply IH.
Qed.

Lemma group_sorted (rooms : list Room) (ty : string) :
  StronglySorted (fun a b => room_key_le a b = true)
                 (get_rooms (build_rooms_by_type rooms) ty).
Proof.
  rewrite get_rooms_build. apply StronglySorted_filter.
  apply py_sorted_strongly.
  - apply comparator_le_total, room_key_comparator.
  - apply comparator_le_trans, room_key_comparator.
Qed.

Lemma group_members (rooms : list Room) (ty : string) (r : Room) :
  In r (get_rooms (build_rooms_by_type rooms) ty)
  <-> In r rooms /\ type_key r = ty.
Proof.
  rewrite get_rooms_build, filter_In, String.eqb_eq.
  pose proof (py_sorted_perm room_key_le rooms) as Hp.
  split; intros [Hin Hk]; (split; [| exact Hk]).
  - exact (Permutation_in r Hp Hin).
  - exact (Permutation_in r (Permutation_sym Hp) Hin).
Qed.

(** Within one format tag the key order is the order of
    (capacity, room number). *)
Lemma room_key_le_same_tag (a b : Room) :
  lec_sem a = lec_sem b -> room_key_le a b = true ->
  (room_capacity a < room_capacity b)%Z
  \/ (room_capacity a = room_capacity b
      /\ not_gt (String.compare (number a) (number b)) = true).
Proof.
  unfold room_key_le, room_key_compare. intros -> H.
  assert (E : String.compare (lec_sem b) (lec_sem b) = Eq).
  { pose proof (String.compare_antisym (lec_sem b) (lec_sem b)) as Ha.
    destruct (String.compare (lec_sem b) (lec_sem b)); [reflexivity | discriminate ..]. }
  rewrite E in H.
  destruct (Z.compare_spec (room_capacity a) (room_capacity b)) as [Heq | Hlt | Hgt].
  - right. split; assumption.
  - now left.
  - discriminate.
Qed.

Lemma type_key_tag (r : Room) (ty : string) :
  type_key r = ty -> ty <> "Unspecified" -> lec_sem r = ty.
Proof.
  unfold type_key. destruct (truthy (lec_sem r)); congruence.
Qed.

Lemma find_first {A} (f : A -> bool) (l : list A) (x : A) :
  List.find f l = Some x
  <-> exists l1 l2, l = l1 ++ x :: l2 /\ f x = true
                    /\ forall y, In y l1 -> f y = false.
Proof.
  split.
  - induction l as [| y l IH]; simpl; [discriminate |].
    destruct (f y) eqn:E.
    + intros [= ->]. exists [], l. repeat split; [exact E | intros ? []].
    + intros H. destruct (IH H) as (l1 & l2 & -> & Hx & Hl1).
      exists (y :: l1), l2. repeat split; [exact Hx |].
      intros z [<- | Hz]; [exact E | now apply Hl1].
  - intros (l1 & l2 & -> & Hx & Hl1).
    induction l1 as [| y l1 IH]; simpl.
    + now rewrite Hx.
    + rewrite (Hl1 y) by now left. apply IH. intros z Hz. apply Hl1. now right.
Qed.

Lemma current_room_strip (rn : string) :
  (if truthy rn then strip rn else EmptyString) = strip rn.
Proof. destruct rn; reflexivity. Qed.

Lemma candidate_types_head (p : string) (d : list (string * list Room)) :
  exists rest, candidate_types (Some p) d = p :: rest.
Proof.
  unfold candidate_types. generalize (map fst d). intros keys.
  assert (H : forall acc, exists rest,
             foldl (fun acc key =>
                      if bool_decide (key ∈ acc) then acc else acc ++ [key])
                   (p :: acc) keys = p :: rest).
  { induction keys as [| k keys IH]; intros acc; simpl; [eauto |].
    destruct (bool_decide (k ∈ p :: acc)); [apply IH |].
    apply (IH (acc ++ [k])). }
  apply (H []).
Qed.

Lemma slot_free_true (used_slots : gset (string * string * string))
    (d t : string) (r : Room) :
  slot_free used_slots d t r = true <-> (number r, d, t) ∉ used_slots.
Proof.
  unfold slot_free. rewrite negb_true_iff, bool_decide_eq_false. reflexivity.
Qed.

Lemma slot_free_false (used_slots : gset (string * string * string))
    (d t : string) (r : Room) :
  slot_free used_slots d t r = false <-> (number r, d, t) ∈ used_slots.
Proof.
  unfold slot_free. rewrite negb_false_iff, bool_decide_eq_true. reflexivity.
Qed.

Lemma first_free_first (used_slots : gset (string * string * string))
    (d t : string) (l : list Room) (r : Room) :
  first_free used_slots d t l = Some r
  <-> exists l1 l2, l = l1 ++ r :: l2 /\ ((number r, d, t) ∉ used_slots)
                    /\ forall x, In x l1 -> (number x, d, t) ∈ used_slots.
Proof.
  unfold first_free. rewrite find_first. split.
  - intros (l1 & l2 & -> & Hr & Hl1). exists l1, l2.
    split; [reflexivity |]. split; [now apply slot_free_true |].
    intros x Hx. now apply slot_free_false, Hl1.
  - intros (l1 & l2 & -> & Hr & Hl1). exists l1, l2.
    split; [reflexivity |]. split; [now apply slot_free_true |].
    intros x Hx. now apply slot_free_false, Hl1.
Qed.

Lemma suitable_rooms_cases (required_capacity : Z) (group : list Room) :
  let qualifying :=
    List.filter (fun room => (required_capacity <=? room_capacity room)%Z)
                group in
  (qualifying = [] /\ suitable_rooms required_capacity group = group)
  \/ (qualifying <> [] /\ suitable_rooms required_capacity group = qualifying).
Proof.
  unfold suitable_rooms.
  destruct (List.filter _ group); [left | right]; split; congruence.
Qed.

(** C4, amended. For a candidate type, the rooms of that type stand in the
    index in ascending (capacity, room number) order within one format tag.
    When at least one of them has the required capacity, only the rooms of
    sufficient capacity are tried, in that order, and the first one free at
    the slot is taken; when none of those is free the scan goes on to the
    next candidate type. Only when no room of the type has the required
    capacity are all rooms of the type tried in index order. *)
Theorem scan_types_candidate (all_rooms : list Room) (required_capacity : Z)
    (used_slots : gset (string * string * string)) (d t ty : string)
    (types : list string) :
  let rooms_by_type := build_rooms_by_type all_rooms in
  let group := get_rooms rooms_by_type ty in
  let qualifying :=
    List.filter (fun room => (required_capacity <=? room_capacity room)%Z)
                group in
  let next :=
    scan_types rooms_by_type required_capacity used_slots d t types in
  (forall r, In r group <-> In r all_rooms /\ type_key r = ty)
  /\ (forall l1 a l2 b l3,
        group = l1 ++ a :: l2 ++ b :: l3 -> lec_sem a = lec_sem b ->
        (room_capacity a < room_capacity b)%Z
        \/ (room_capacity a = room_capacity b
            /\ not_gt (String.compare (number a) (number b)) = true))
  /\ (qualifying <> [] ->
      scan_types rooms_by_type required_capacity used_slots d t (ty :: types)
      = match first_free used_slots d t qualifying with
        | Some room => Some room
        | None => next
        end)
  /\ (qualifying = [] ->
      scan_types rooms_by_type required_capacity used_slots d t (ty :: types)
      = match first_free used_slots d t group with
        | Some room => Some room
        | None => next
        end)
  /\ (forall l r,
        first_free used_slots d t l = Some r
        <-> exists l1 l2, l = l1 ++ r :: l2
                          /\ ((number r, d, t) ∉ used_slots)
                          /\ forall x, In x l1 ->
                                       (number x, d, t) ∈ used_slots).
Proof.
  intros rooms_by_type group qualifying next.
  split; [apply group_members |].
  split.
  { intros l1 a l2 b l3 Hg Htag.
    apply room_key_le_same_tag; [exact Htag |].
    pose proof (group_sorted all_rooms ty) as Hs.
    fold rooms_by_type in Hs. fold group in Hs. rewrite Hg in Hs.
    apply (StronglySorted_later _ l1 (l2 ++ b :: l3) a b Hs).
    apply in_or_app. right. now left. }
  split; [| split; [| apply first_free_first]].
  - intros Hq. cbn [scan_types]. fold group.
    destruct (suitable_rooms_cases required_capacity group) as [[Hn _] | [_ ->]];
      [contradiction | reflexivity].
  - intros Hq. cbn [scan_types]. fold group.
    destruct (suitable_rooms_cases required_capacity group) as [[_ ->] | [Hn _]];
      [reflexivity | contradiction].
Qed.

(** C4 as stated fails: with the only sufficient lecture room taken, the
    wording picks the free smaller lecture room, the code goes on to the
    seminar room. *)
Lemma scan_types_skips_smaller_rooms :
  spec_pick_in_type 30 used_B1_monday_9 "Monday" "09:00"
    (get_rooms (build_rooms_by_type rooms_two_lecture_one_seminar) "Lecture")
  = Some (mk_Room "A1" 10 "Lecture")
  /\ scan_types (build_rooms_by_type rooms_two_lecture_one_seminar) 30
                used_B1_monday_9 "Monday" "09:00" ["Lecture"; "Seminar"]
     = Some (mk_Room "C1" 50 "Seminar")
  /\ (_assign_room
        (mk_ScheduleEntry "SCH001" "SBJ001" "P1" "" "Monday" "09:00")
        "Monday" "09:00" {[ "SBJ001" := subj "SBJ001" "P1" 30 ]}
        (build_rooms_by_type rooms_two_lecture_one_seminar)
        used_B1_monday_9).1 = "C1".
Proof. repeat split; vm_compute; reflexivity. Qed.

Lemma string_compare_refl (x : string) : String.compare x x = Eq.
Proof.
  pose proof (String.compare_antisym x x) as Ha.
  destruct (String.compare x x); [reflexivity | discriminate ..].
Qed.

(** C5, amended. When room selection does not keep the previous room (there
    is none, or it is taken at the slot), the subject names a required
    format other than the sentinel and some room of that format with
    sufficient capacity is free at the slot, the room selected is such a
    room, and no free room of that format with sufficient capacity is
    smaller (or of equal capacity with a smaller room number). *)
Theorem assign_room_smallest_sufficient (all_rooms : list Room)
    (subjects_by_code : gmap string Subject) (entry : ScheduleEntry)
    (d t : string) (used_slots : gset (string * string * string))
    (subject : Subject) (r : Room) :
  subjects_by_code !! subject_code entry = Some subject ->
  truthy (format_ subject) = true ->
  format_ subject <> "Unspecified" ->
  strip (room_number entry) = EmptyString
  \/ (strip (room_number entry), d, t) ∈ used_slots ->
  In r all_rooms ->
  lec_sem r = format_ subject ->
  (capacity subject <= room_capacity r)%Z ->
  (number r, d, t) ∉ used_slots ->
  exists r0,
    In r0 all_rooms
    /\ lec_sem r0 = format_ subject
    /\ (capacity subject <= room_capacity r0)%Z
    /\ ((number r0, d, t) ∉ used_slots)
    /\ (_assign_room entry d t subjects_by_code
                     (build_rooms_by_type all_rooms) used_slots).1
       = number r0
    /\ forall r',
        In r' all_rooms ->
        lec_sem r' = format_ subject ->
        (capacity subject <= room_capacity r')%Z ->
        (number r', d, t) ∉ used_slots ->
        (room_capacity r0 < room_capacity r')%Z
        \/ (room_capacity r0 = room_capacity r'
            /\ not_gt (String.compare (number r0) (number r')) = true).
Proof.
  intros Hsub Hfmt Hsent Hprev Hr Htag Hcap Hfree.
  set (rbt := build_rooms_by_type all_rooms).
  set (group := get_rooms rbt (format_ subject)).
  set (qualifying :=
         List.filter (fun room => (capacity subject <=? room_capacity room)%Z)
                     group).
  assert (Hq : forall x, In x qualifying
               <-> In x all_rooms /\ lec_sem x = format_ subject
                   /\ (capacity subject <= room_capacity x)%Z).
  { intros x. unfold qualifying, group, rbt.
    rewrite filter_In, group_members, Z.leb_le. split.
    - intros [[Hin Hk] Hc]. repeat split; try assumption.
      now apply type_key_tag.
    - intros (Hin & Hk & Hc). repeat split; try assumption.
      unfold type_key. rewrite Hk, Hfmt. reflexivity. }
  assert (Hrq : In r qualifying) by (apply Hq; auto).
  assert (Hsuit : suitable_rooms (capacity subject) group = qualifying).
  { destruct (suitable_rooms_cases (capacity subject) group)
      as [[Hn _] | [_ Hs]]; [| exact Hs].
    fold qualifying in Hn. rewrite Hn in Hrq. destruct Hrq. }
  destruct (first_free used_slots d t qualifying) as [r0 |] eqn:Ef.
  2:{ unfold first_free in Ef.
      pose proof (find_none _ _ Ef r Hrq) as Hnone.
      apply slot_free_false in Hnone. contradiction. }
  exists r0.
  pose proof (proj1 (first_free_first _ _ _ _ _) Ef)
    as (l1 & l2 & Hl & Hfree0 & Hl1).
  assert (Hr0 : In r0 qualifying).
  { rewrite Hl. apply in_or_app. right. now left. }
  apply Hq in Hr0. destruct Hr0 as (Hin0 & Htag0 & Hcap0).
  repeat split; try assumption.
  - unfold _assign_room. rewrite Hsub, Hfmt, current_room_strip.
    assert (Hkeep : truthy (strip (room_number entry))
                    && negb (bool_decide
                               ((strip (room_number entry), d, t) ∈ used_slots))
                    = false).
    { destruct Hprev as [-> | Hused]; [reflexivity |].
      rewrite (bool_decide_eq_true_2 _ Hused). apply andb_false_r. }
    rewrite Hkeep.
    destruct (candidate_types_head (format_ subject) rbt) as [rest ->].
    cbn [scan_types]. fold rbt. fold group. rewrite Hsuit, Ef. reflexivity.
  - intros r' Hin' Htag' Hcap' Hfree'.
    assert (Hr' : In r' qualifying) by (apply Hq; auto).
    rewrite Hl in Hr'. apply in_app_or in Hr'.
    destruct Hr' as [Hbefore | [<- | Hafter]].
    + specialize (Hl1 _ Hbefore). contradiction.
    + right. split; [reflexivity |]. now rewrite string_compare_refl.
    + apply room_key_le_same_tag; [congruence |].
      assert (Hs : StronglySorted (fun a b => room_key_le a b = true)
                                  (l1 ++ r0 :: l2)).
      { rewrite <- Hl. apply StronglySorted_filter, group_sorted. }
      exact (StronglySorted_later _ _ _ _ _ Hs Hafter).
Qed.

(** The witness of C5: the smaller of two free lecture rooms. *)
Lemma assign_room_smallest_sufficient_witness :
  exists r0,
    In r0 [mk_Room "R2" 100 "Lecture"; mk_Room "R1" 30 "Lecture"]
    /\ lec_sem r0 = format_ (subj "SBJ001" "P1" 20)
    /\ (capacity (subj "SBJ001" "P1" 20) <= room_capacity r0)%Z
    /\ ((number r0, "Monday", "09:00") ∉ (∅ : gset (string * string * string)))
    /\ (_assign_room
          (mk_ScheduleEntry "SCH001" "SBJ001" "P1" "" "Monday" "09:00")
          "Monday" "09:00" {[ "SBJ001" := subj "SBJ001" "P1" 20 ]}
          (build_rooms_by_type
             [mk_Room "R2" 100 "Lecture"; mk_Room "R1" 30 "Lecture"])
          ∅).1
       = number r0
    /\ forall r',
        In r' [mk_Room "R2" 100 "Lecture"; mk_Room "R1" 30 "Lecture"] ->
        lec_sem r' = format_ (subj "SBJ001" "P1" 20) ->
        (capacity (subj "SBJ001" "P1" 20) <= room_capacity r')%Z ->
        (number r', "Monday", "09:00") ∉ (∅ : gset (string * string * string)) ->
        (room_capacity r0 < room_capacity r')%Z
        \/ (room_capacity r0 = room_capacity r'
            /\ not_gt (String.compare (number r0) (number r')) = true).
Proof.
  apply (assign_room_smallest_sufficient
           [mk_Room "R2" 100 "Lecture"; mk_Room "R1" 30 "Lecture"]
           {[ "SBJ001" := subj "SBJ001" "P1" 20 ]}
           (mk_ScheduleEntry "SCH001" "SBJ001" "P1" "" "Monday" "09:00")
           "Monday" "09:00" ∅ (subj "SBJ001" "P1" 20)
           (mk_Room "R2" 100 "Lecture")).
  - reflexivity.
  - reflexivity.
  - discriminate.
  - left. reflexivity.
  - left. reflexivity.
  - reflexivity.
  - simpl. lia.
  - apply not_elem_of_empty.
Defined.

(** C5 as stated fails: the previous room R2 (capacity 100) is kept for a
    subject needing 20 seats while the lecture room R1 (capacity 30) is
    free at the same slot. *)
Lemma previous_room_kept_over_smaller :
  _generate_schedule snapshot_previous_large_room
  = Scheduled
      [mk_ScheduleEntry "SCH001" "SBJ001" "P1" "R2" "Monday" "09:00"]
      [] [] []
  /\ In (mk_Room "R1" 30 "Lecture") (rooms snapshot_previous_large_room)
  /\ In (mk_Room "R2" 100 "Lecture") (rooms snapshot_previous_large_room)
  /\ (20 <= 30 < 100)%Z.
Proof.
  split; [vm_compute; reflexivity |].
  split; [left; reflexivity |].
  split; [right; left; reflexivity | lia].
Qed.

End room_index.

(** ** Room selection: the previous room and the last resort *)

Section room_selection.

Lemma scan_types_free (rooms_by_type : list (string * list Room))
    (required_capacity : Z) (used_slots : gset (string * string * string))
    (d t : string) (types : list string) (r : Room) :
  scan_types rooms_by_type required_capacity used_slots d t types = Some r ->
  (number r, d, t) ∉ used_slots.
Proof.
  induction types as [| ty types IH]; simpl; [discriminate |].
  destruct (first_free _ _ _ _) as [r' |] eqn:Ef; [| exact IH].
  intros [= ->]. apply first_free_first in Ef.
  destruct Ef as (_ & _ & _ & Hfree & _). exact Hfree.
Qed.

(** Where room selection does give up: no previous room, and every room of
    the index taken at the slot. *)
Lemma assign_room_none (entry : ScheduleEntry) (d t : string)
    (subjects_by_code : gmap string Subject)
    (rooms_by_type : list (string * list Room))
    (used_slots : gset (string * string * string)) :
  strip (room_number entry) = EmptyString ->
  (forall ty rs r, In (ty, rs) rooms_by_type -> In r rs ->
                   (number r, d, t) ∈ used_slots) ->
  _assign_room entry d t subjects_by_code rooms_by_type used_slots
  = (EmptyString, used_slots).
Proof.
  intros Hprev Hall. unfold _assign_room.
  rewrite current_room_strip, Hprev. cbn [truthy andb].
  destruct (scan_types _ _ _ _ _ _) as [r |] eqn:Es.
  - pose proof (scan_types_free _ _ _ _ _ _ _ Es) as Hfree. exfalso.
    clear - Es Hall Hfree. revert Es.
    generalize (candidate_types
                  match subjects_by_code !! subject_code entry with
                  | Some s => if truthy (format_ s) then Some (format_ s) else None
                  | None => None
                  end rooms_by_type).
    intros types. induction types as [| ty types IH]; simpl; [discriminate |].
    destruct (first_free _ _ _ _) as [r' |] eqn:Ef; [| exact IH].
    intros [= ->]. unfold first_free in Ef. apply find_some in Ef.
    destruct Ef as [Hin _]. apply Hfree.
    assert (Hg : In r (get_rooms rooms_by_type ty)).
    { unfold suitable_rooms in Hin.
      destruct (List.filter _ (get_rooms rooms_by_type ty)) eqn:Efl;
        [exact Hin |].
      rewrite <- Efl in Hin. apply filter_In in Hin. apply Hin. }
    clear - Hg Hall.
    induction rooms_by_type as [| [k rs] rbt IHr]; simpl in Hg; [destruct Hg |].
    destruct (String.eqb k ty).
    + apply (Hall k rs r); [now left | exact Hg].
    + apply IHr; [| exact Hg]. intros ty' rs' r' Hin' Hr'.
      apply (Hall ty' rs' r'); [now right | exact Hr'].
  - destruct (scan_all _ _ _ _) as [r |] eqn:Ea; [| reflexivity].
    exfalso. unfold scan_all, first_free in Ea. apply find_some in Ea.
    destruct Ea as [Hin Hfree]. apply slot_free_true in Hfree. apply Hfree.
    apply in_flat_map in Hin. destruct Hin as ([ty rs] & Hin1 & Hin2).
    exact (Hall ty rs r Hin1 Hin2).
Qed.

(** C2. With the previous room R1 and the only room of the index, R1, both
    taken on Monday at nine, room selection returns R1 instead of nothing,
    and in the run that leads there the subject SBJ002 is assigned, not
    recorded as skipped for lack of a room. *)
Theorem assign_room_returns_taken_room :
  _assign_room (mk_ScheduleEntry "SCH001" "SBJ002" "P2" "R1" "Monday" "09:00")
               "Monday" "09:00"
               (subjects_by_code_of snapshot_one_room_two_professors)
               (build_rooms_by_type (rooms snapshot_one_room_two_professors))
               {[ ("R1", "Monday", "09:00") ]}
  = ("R1", {[ ("R1", "Monday", "09:00") ]})
  /\ skipped_no_room (run_pass snapshot_one_room_two_professors) = []
  /\ exists e,
      In e (deref (heap (run_pass snapshot_one_room_two_professors))
                  (new_entries (run_pass snapshot_one_room_two_professors)))
      /\ subject_code e = "SBJ002".
Proof.
  split; [vm_compute; reflexivity |].
  split; [vm_compute; reflexivity |].
  exists (mk_ScheduleEntry "SCH001" "SBJ002" "P2" "R1" "Monday" "09:00").
  split; [vm_compute; right; left; reflexivity | reflexivity].
Qed.

(** C1. The run on one room and two professors returns two assignments
    that share the room R1 on Monday at nine. *)
Theorem generate_schedule_double_books_room :
  _generate_schedule snapshot_one_room_two_professors
  = Scheduled
      [mk_ScheduleEntry "SCH001" "SBJ002" "P2" "R1" "Monday" "09:00";
       mk_ScheduleEntry "SCH002" "SBJ001" "P1" "R1" "Monday" "09:00"]
      [] [] [].
Proof. vm_compute. reflexivity. Qed.

(** C10. The branch that keeps the previous room looks only at the room
    number (non-empty after stripping) and at the set of taken slots,
    whatever the room index holds; and there is a run whose output keeps a
    room number that no room of the snapshot carries. *)
Theorem assign_room_keeps_unknown_room :
  (forall (entry : ScheduleEntry) (d t : string)
          (subjects_by_code : gmap string Subject)
          (rooms_by_type : list (string * list Room))
          (used_slots : gset (string * string * string)),
      truthy (strip (room_number entry)) = true ->
      (strip (room_number entry), d, t) ∉ used_slots ->
      _assign_room entry d t subjects_by_code rooms_by_type used_slots
      = (strip (room_number entry),
         {[ (strip (room_number entry), d, t) ]} ∪ used_slots))
  /\ exists (s : snapshot) (e : ScheduleEntry) entries b1 b2 b3,
      _generate_schedule s = Scheduled entries b1 b2 b3
      /\ In e entries
      /\ In e (schedule_entries s)
      /\ ~ In (room_number e) (map number (rooms s)).
Proof.
  split.
  - intros entry d t subjects_by_code rooms_by_type used_slots Hroom Hfree.
    unfold _assign_room. rewrite current_room_strip, Hroom.
    rewrite (bool_decide_eq_false_2 _ Hfree). reflexivity.
  - exists snapshot_vanished_room,
      (mk_ScheduleEntry "SCH001" "SBJ001" "P1" "R9" "Monday" "09:00"),
      [mk_ScheduleEntry "SCH001" "SBJ001" "P1" "R9" "Monday" "09:00"],
      [], [], [].
    split; [vm_compute; reflexivity |].
    split; [left; reflexivity |].
    split; [left; reflexivity |].
    simpl. intros [H | []]. discriminate H.
Qed.

End room_selection.

(** ** One step of the subject loop *)

Section subject_step.
Variable subjects_by_code : gmap string Subject.
Variable rooms_by_type : list (string * list Room).
Variable professor_slots : gmap string (list (string * string)).
Variable professor_slot_lookup : gmap string (gset (string * string)).
Variable existing_entries : gmap string nat.

Lemma next_slot_free (pid : string) (slots : list (string * string))
    (used : gset (string * string * string)) (d t : string) :
  _next_available_professor_slot pid slots used = Some (d, t) ->
  In (d, t) slots /\ (pid, d, t) ∉ used.
Proof.
  unfold _next_available_professor_slot. intros H. apply find_some in H.
  destruct H as [Hin Hfree]. split; [exact Hin |].
  apply negb_true_iff, bool_decide_eq_false in Hfree. exact Hfree.
Qed.

Lemma resolve_slot_free (entry : ScheduleEntry) (professor : Professor)
    (slots : list (string * string))
    (used : gset (string * string * string)) (d t : string) :
  resolve_slot professor_slot_lookup entry professor slots used = Some (d, t) ->
  ((prof_id professor, d, t) ∉ used)
  /\ (In (d, t) slots
      \/ (d, t) ∈ default ∅ (professor_slot_lookup !! prof_id professor)).
Proof.
  unfold resolve_slot.
  destruct (truthy (day entry) && truthy (time_ entry)).
  - destruct (negb (bool_decide _)) eqn:Eu; cbn [andb].
    + destruct (bool_decide ((day entry, time_ entry) ∈ _)) eqn:Em.
      * intros [= <- <-]. split.
        -- apply negb_true_iff, bool_decide_eq_false in Eu. exact Eu.
        -- right. apply bool_decide_eq_true in Em. exact Em.
      * intros H. apply next_slot_free in H. tauto.
    + intros H. apply next_slot_free in H. tauto.
  - intros H. apply next_slot_free in H. tauto.
Qed.

(** The four ways one subject leaves the loop body. *)
Lemma process_subject_cases (st : engine_state) (subject : Subject)
    (professor : Professor) :
  let st' :=
    process_subject subjects_by_code rooms_by_type professor_slots
      professor_slot_lookup existing_entries st (subject, professor) in
  let slots := default [] (professor_slots !! prof_id professor) in
  let a := (resolve_entry existing_entries st subject professor).1.1 in
  let heap1 := (resolve_entry existing_entries st subject professor).1.2 in
  let taken1 := (resolve_entry existing_entries st subject professor).2 in
  let entry := heap1 !!! a in
  (slots = []
   /\ st' = mk_engine_state (heap st) (taken_schedule_ids st)
              (used_prof_slots st) (used_room_slots st) (new_entries st)
              (skipped_no_slot st ++ [code subject]) (skipped_no_room st))
  \/ (slots <> []
      /\ resolve_slot professor_slot_lookup entry professor slots
                      (used_prof_slots st) = None
      /\ st' = mk_engine_state heap1 taken1 (used_prof_slots st)
                 (used_room_slots st) (new_entries st)
                 (skipped_no_slot st ++ [code subject]) (skipped_no_room st))
  \/ (exists d t room used_room1,
        slots <> []
        /\ resolve_slot professor_slot_lookup entry professor slots
                        (used_prof_slots st) = Some (d, t)
        /\ _assign_room
             (mk_ScheduleEntry (schedule_id entry) (subject_code entry)
                               (prof_id professor) (room_number entry) d t)
             d t subjects_by_code rooms_by_type (used_room_slots st)
           = (room, used_room1)
        /\ ((truthy room = false
             /\ st' = mk_engine_state heap1 taken1 (used_prof_slots st)
                        used_room1 (new_entries st) (skipped_no_slot st)
                        (skipped_no_room st ++ [code subject]))
            \/ (truthy room = true
                /\ st' = mk_engine_state
                           (<[a := mk_ScheduleEntry (schedule_id entry)
                                     (subject_code entry) (prof_id professor)
                                     room d t]> heap1)
                           taken1
                           ({[ (prof_id professor, d, t) ]}
                              ∪ used_prof_slots st)
                           used_room1 (new_entries st ++ [a])
                           (skipped_no_slot st) (skipped_no_room st)))).
Proof.
  cbn zeta. unfold process_subject.
  destruct (default [] (professor_slots !! prof_id professor))
    as [| slot0 slots'] eqn:Es.
  { left. split; reflexivity. }
  right.
  destruct (resolve_entry existing_entries st subject professor)
    as [[a heap1] taken1].
  cbn [fst snd].
  destruct (resolve_slot professor_slot_lookup (heap1 !!! a) professor
                         (slot0 :: slots') (used_prof_slots st))
    as [[d t] |] eqn:Er.
  2:{ left. split; [discriminate |]. split; reflexivity. }
  right. exists d, t.
  destruct (_assign_room _ d t subjects_by_code rooms_by_type
                         (used_room_slots st)) as [room used_room1] eqn:Ea.
  exists room, used_room1.
  split; [discriminate |]. split; [reflexivity |]. split; [reflexivity |].
  destruct (truthy room); [right | left]; split; reflexivity.
Qed.

Lemma snoc_neq {A} (l : list A) (x : A) : l <> l ++ [x].
Proof.
  intros H. apply (f_equal (@length A)) in H.
  rewrite length_app in H. simpl in H. lia.
Qed.

(** C8. When the loop body records a subject as skipped for lack of a room,
    the set of consumed professor slots and the list of new assignments are
    unchanged, and the slot that had been resolved for the subject is still
    not consumed for its professor. The consumed set grows only in a step
    that found a room and appended an assignment. *)
Theorem no_room_skip_leaves_professor_slot (st : engine_state)
    (subject : Subject) (professor : Professor) :
  let st' :=
    process_subject subjects_by_code rooms_by_type professor_slots
      professor_slot_lookup existing_entries st (subject, professor) in
  let entry :=
    (resolve_entry existing_entries st subject professor).1.2
      !!! (resolve_entry existing_entries st subject professor).1.1 in
  (skipped_no_room st' = skipped_no_room st ++ [code subject] ->
   used_prof_slots st' = used_prof_slots st
   /\ new_entries st' = new_entries st
   /\ exists d t,
       resolve_slot professor_slot_lookup entry professor
         (default [] (professor_slots !! prof_id professor))
         (used_prof_slots st) = Some (d, t)
       /\ (prof_id professor, d, t) ∉ used_prof_slots st')
  /\ (used_prof_slots st' <> used_prof_slots st ->
      exists a d t room used_room1,
        resolve_slot professor_slot_lookup entry professor
          (default [] (professor_slots !! prof_id professor))
          (used_prof_slots st) = Some (d, t)
        /\ _assign_room
             (mk_ScheduleEntry (schedule_id entry) (subject_code entry)
                               (prof_id professor) (room_number entry) d t)
             d t subjects_by_code rooms_by_type (used_room_slots st)
           = (room, used_room1)
        /\ truthy room = true
        /\ new_entries st' = new_entries st ++ [a]
        /\ used_prof_slots st'
           = {[ (prof_id professor, d, t) ]} ∪ used_prof_slots st
        /\ skipped_no_room st' = skipped_no_room st).
Proof.
  intros st' entry.
  pose proof (process_subject_cases st subject professor) as Hc.
  cbn zeta in Hc. fold st' in Hc. fold entry in Hc.
  destruct Hc as [[_ Hst] | [(_ & _ & Hst) |
    (d & t & room & used1 & _ & Hslot & Hroom & [[Hno Hst] | [Hyes Hst]])]];
    rewrite Hst; cbn [skipped_no_room used_prof_slots new_entries].
  - split; [intros H; destruct (snoc_neq _ _ H) | intros H; now destruct H].
  - split; [intros H; destruct (snoc_neq _ _ H) | intros H; now destruct H].
  - split; [| intros H; now destruct H].
    intros _. split; [reflexivity |]. split; [reflexivity |].
    exists d, t. split; [exact Hslot |].
    apply resolve_slot_free in Hslot. apply Hslot.
  - split; [intros H; destruct (snoc_neq _ _ H) |].
    intros _. exists (resolve_entry existing_entries st subject professor).1.1,
      d, t, room, used1.
    repeat (split; [first [exact Hslot | exact Hroom | exact Hyes | reflexivity] |]).
    reflexivity.
Qed.

End subject_step.

(** The witness of C8: the second subject of [snapshot_one_room_fresh] finds
    its professor free on Monday at nine and the only room taken. *)
Lemma no_room_skip_leaves_professor_slot_witness :
  used_prof_slots
    (snapshot_step snapshot_one_room_fresh state_after_SBJ001
                   (subj "SBJ002" "P2" 20, prof_9_10 "P2"))
  = used_prof_slots state_after_SBJ001
  /\ new_entries
       (snapshot_step snapshot_one_room_fresh state_after_SBJ001
                      (subj "SBJ002" "P2" 20, prof_9_10 "P2"))
     = new_entries state_after_SBJ001
  /\ ("P2", "Monday", "09:00")
       ∉ used_prof_slots
           (snapshot_step snapshot_one_room_fresh state_after_SBJ001
                          (subj "SBJ002" "P2" 20, prof_9_10 "P2")).
Proof.
  destruct (proj1 (no_room_skip_leaves_professor_slot
                     (subjects_by_code_of snapshot_one_room_fresh)
                     (build_rooms_by_type (rooms snapshot_one_room_fresh))
                     (professor_slots_of snapshot_one_room_fresh)
                     (professor_slot_lookup_of snapshot_one_room_fresh)
                     (index_entries (schedule_entries snapshot_one_room_fresh))
                     state_after_SBJ001
                     (subj "SBJ002" "P2" 20) (prof_9_10 "P2")))
    as (Hused & Hnew & d & t & Hslot & Hfree).
  - vm_compute. reflexivity.
  - split; [exact Hused |]. split; [exact Hnew |].
    vm_compute in Hslot. injection Hslot as <- <-. exact Hfree.
Defined.

(** ** The dictionaries of a run *)

Section dictionaries.

Lemma foldl_insert_related {A B C} (key : A -> string) (f : A -> B)
    (g : B -> C) (l : list A) (m1 : gmap string B) (m2 : gmap string C) :
  (forall k, m2 !! k = g <$> m1 !! k) ->
  forall k,
    foldl (fun m x => <[key x := g (f x)]> m) m2 l !! k
    = g <$> foldl (fun m x => <[key x := f x]> m) m1 l !! k.
Proof.
  revert m1 m2. induction l as [| x l IH]; intros m1 m2 Hrel k; simpl.
  - apply Hrel.
  - apply IH. intros k'.
    destruct (decide (key x = k')) as [<- | Hne].
    + rewrite !lookup_insert_eq. reflexivity.
    + rewrite !lookup_insert_ne by exact Hne. apply Hrel.
Qed.

Lemma dict_by_lookup {A} (key : A -> string) (l : list A) (k : string)
    (x : A) :
  dict_by key l !! k = Some x -> In x l /\ key x = k.
Proof.
  unfold dict_by.
  assert (H : forall m : gmap string A,
             (forall y, m !! k = Some y -> In y l /\ key y = k) ->
             forall l',
               (forall y, In y l' -> In y l) ->
               foldl (fun m x => <[key x := x]> m) m l' !! k = Some x ->
               In x l /\ key x = k).
  { intros m Hm l'. revert m Hm.
    induction l' as [| y l' IH]; intros m Hm Hsub; simpl.
    - apply Hm.
    - apply IH.
      + intros z. destruct (decide (key y = k)) as [<- | Hne].
        * rewrite lookup_insert_eq. intros [= <-].
          split; [apply Hsub; now left | reflexivity].
        * rewrite lookup_insert_ne by exact Hne. apply Hm.
      + intros z Hz. apply Hsub. now right. }
  apply (H ∅); [| auto]. intros y. rewrite lookup_empty. discriminate.
Qed.

Lemma professor_slots_lookup (s : snapshot) (k : string) :
  professor_slots_of s !! k
  = _build_professor_slots <$> professors_by_id_of s !! k.
Proof.
  unfold professor_slots_of, professors_by_id_of, dict_by.
  apply (foldl_insert_related prof_id (fun p => p) _build_professor_slots).
  intros k'. rewrite !lookup_empty. reflexivity.
Qed.

Lemma professor_slot_lookup_lookup (s : snapshot) (k : string) :
  professor_slot_lookup_of s !! k
  = (fun p => list_to_set (_build_professor_slots p))
      <$> professors_by_id_of s !! k.
Proof.
  unfold professor_slot_lookup_of, professors_by_id_of, dict_by.
  apply (foldl_insert_related prof_id (fun p => p)
           (fun p => list_to_set (_build_professor_slots p))).
  intros k'. rewrite !lookup_empty. reflexivity.
Qed.

Lemma index_entries_lookup (entries : list ScheduleEntry) (c : string)
    (a : nat) :
  index_entries entries !! c = Some a ->
  exists e, entries !! a = Some e /\ subject_code e = c.
Proof.
  unfold index_entries.
  assert (H : forall (l : list (nat * ScheduleEntry)) (m : gmap string nat),
             (forall ae, In ae l -> entries !! ae.1 = Some ae.2) ->
             (forall a', m !! c = Some a' ->
                         exists e, entries !! a' = Some e /\ subject_code e = c) ->
             foldl (fun m ae => <[subject_code ae.2 := ae.1]> m) m l !! c
             = Some a ->
             exists e, entries !! a = Some e /\ subject_code e = c).
  { induction l as [| [a0 e0] l IH]; intros m Hl Hm; simpl.
    - apply Hm.
    - apply IH.
      + intros ae Hae. apply Hl. now right.
      + intros a'. cbn [fst snd].
        destruct (decide (subject_code e0 = c)) as [<- | Hne].
        * rewrite lookup_insert_eq. intros [= <-]. exists e0.
          split; [| reflexivity]. apply (Hl (a0, e0)). now left.
        * rewrite lookup_insert_ne by exact Hne. apply Hm. }
  apply H.
  - intros [a0 e0] Hin. apply list_elem_of_In in Hin.
    apply elem_of_lookup_imap in Hin.
    destruct Hin as (i & x & Heq & Hx). injection Heq as -> ->. exact Hx.
  - intros a'. rewrite lookup_empty. discriminate.
Qed.

Lemma classify_foldl (professors_by_id : gmap string Professor)
    (l : list Subject) (acc : list (Subject * Professor) * list string) :
  foldl (classify professors_by_id) acc l
  = (acc.1 ++ omap (eligible_of professors_by_id) l,
     acc.2 ++ map code
                (List.filter
                   (fun subject =>
                      is_none (eligible_of professors_by_id subject))
                   l)).
Proof.
  revert acc. induction l as [| x l IH]; intros [e k]; simpl.
  - now rewrite !app_nil_r.
  - rewrite IH. unfold classify, eligible_of. cbn [fst snd].
    destruct (professors_by_id !! professor_id x) as [p |]; cbn.
    + destruct (truthy (professor_id x)); cbn; now rewrite <- !app_assoc.
    + now rewrite <- !app_assoc.
Qed.

End dictionaries.

(** ** Structural failures and the result of a run *)

Section run_outcome.

Lemma eligibility_eq (s : snapshot) :
  eligibility s
  = (omap (eligible_of (professors_by_id_of s)) (subjects s),
     map code
       (List.filter
          (fun subject => is_none (eligible_of (professors_by_id_of s) subject))
          (subjects s))).
Proof. unfold eligibility. now rewrite classify_foldl. Qed.

Lemma eligible_In (s : snapshot) (subject : Subject) (professor : Professor) :
  In (subject, professor) (eligibility s).1
  <-> In subject (subjects s)
      /\ truthy (professor_id subject) = true
      /\ professors_by_id_of s !! professor_id subject = Some professor.
Proof.
  rewrite eligibility_eq. cbn [fst].
  rewrite <- list_elem_of_In, list_elem_of_omap. unfold eligible_of. split.
  - intros (x & Hx & Hf). apply list_elem_of_In in Hx.
    destruct (professors_by_id_of s !! professor_id x) as [p |] eqn:Ep;
      [| discriminate].
    destruct (truthy (professor_id x)) eqn:Et; [| discriminate].
    injection Hf as -> ->. auto.
  - intros (Hin & Ht & Hp). exists subject.
    split; [now apply list_elem_of_In |]. now rewrite Hp, Ht.
Qed.

Lemma is_nil_true {A} (l : list A) : is_nil l = true <-> l = [].
Proof. destruct l; split; (reflexivity || discriminate). Qed.

Lemma is_nil_false {A} (l : list A) : is_nil l = false <-> l <> [].
Proof. destruct l; split; (reflexivity || discriminate || congruence). Qed.

(** C7. The run ends in a validation failure, which carries no assignment
    list, exactly when there are no subjects, no professors, no rooms, no
    eligible subjects, or no new assignment after the subject pass, each
    with a message of its own; in every other case it yields the new
    assignments sorted by assignment identifier in ascending order together
    with the three buckets of skipped subject codes. *)
Theorem generate_schedule_outcome (s : snapshot) :
  let st := run_pass s in
  let eligible := (eligibility s).1 in
  (forall subject professor,
      In (subject, professor) eligible
      <-> In subject (subjects s)
          /\ truthy (professor_id subject) = true
          /\ professors_by_id_of s !! professor_id subject = Some professor)
  /\ ((exists message, _generate_schedule s = ValidationError message)
      <-> subjects s = [] \/ professors s = [] \/ rooms s = []
          \/ eligible = [] \/ new_entries st = [])
  /\ (subjects s = [] ->
      _generate_schedule s
      = ValidationError "No subjects available to schedule.")
  /\ (subjects s <> [] -> professors s = [] ->
      _generate_schedule s
      = ValidationError "No professors available to schedule.")
  /\ (subjects s <> [] -> professors s <> [] -> rooms s = [] ->
      _generate_schedule s
      = ValidationError "No rooms available to schedule.")
  /\ (subjects s <> [] -> professors s <> [] -> rooms s <> [] ->
      eligible = [] ->
      _generate_schedule s
      = ValidationError "No subjects are linked to a valid professor.")
  /\ (subjects s <> [] -> professors s <> [] -> rooms s <> [] ->
      eligible <> [] -> new_entries st = [] ->
      _generate_schedule s
      = ValidationError "Unable to generate schedule with the current data.")
  /\ (subjects s <> [] -> professors s <> [] -> rooms s <> [] ->
      eligible <> [] -> new_entries st <> [] ->
      exists entries,
        _generate_schedule s
        = Scheduled entries (eligibility s).2 (skipped_no_slot st)
                    (skipped_no_room st)
        /\ Permutation entries (deref (heap st) (new_entries st))
        /\ StronglySorted
             (fun e1 e2 =>
                not_gt (String.compare (schedule_id e1) (schedule_id e2))
                = true)
             entries).
Proof.
  intros st eligible.
  split; [apply eligible_In |].
  unfold _generate_schedule. fold st. fold eligible.
  destruct (is_nil (subjects s)) eqn:E1.
  { apply is_nil_true in E1.
    split; [split; [auto | eauto] |].
    repeat split; intros; (reflexivity || contradiction). }
  apply is_nil_false in E1.
  destruct (is_nil (professors s)) eqn:E2.
  { apply is_nil_true in E2.
    split; [split; [auto | eauto] |].
    repeat split; intros; (reflexivity || contradiction). }
  apply is_nil_false in E2.
  destruct (is_nil (rooms s)) eqn:E3.
  { apply is_nil_true in E3.
    split; [split; [auto | eauto] |].
    repeat split; intros; (reflexivity || contradiction). }
  apply is_nil_false in E3.
  destruct (is_nil eligible) eqn:E4.
  { apply is_nil_true in E4.
    split; [split; [auto | eauto] |].
    repeat split; intros; (reflexivity || contradiction). }
  apply is_nil_false in E4.
  destruct (is_nil (new_entries st)) eqn:E5.
  { apply is_nil_true in E5.
    split; [split; [auto 6 | eauto] |].
    repeat split; intros; (reflexivity || contradiction). }
  apply is_nil_false in E5.
  split.
  { split.
    - intros [message Hm]. discriminate Hm.
    - intros [H | [H | [H | [H | H]]]]; contradiction. }
  do 5 (split; [intros; contradiction |]).
  intros _ _ _ _ _. eexists. split; [reflexivity |].
  split.
  - apply py_sorted_perm.
  - apply (py_sorted_strongly schedule_id_le).
    + apply (comparator_le_total _ schedule_id_comparator).
    + apply (comparator_le_trans _ schedule_id_comparator).
Qed.

End run_outcome.

(** ** The subject pass on a snapshot with unique subject codes *)

Section run_invariant.
Variable s : snapshot.

Lemma index_range (c : string) (a : nat) :
  (index_entries (schedule_entries s)) !! c = Some a -> a < length (schedule_entries s).
Proof.
  intros H. apply index_entries_lookup in H. destruct H as (e & He & _).
  apply lookup_lt_Some in He. exact He.
Qed.

Lemma index_injective (c1 c2 : string) (a : nat) :
  (index_entries (schedule_entries s)) !! c1 = Some a -> (index_entries (schedule_entries s)) !! c2 = Some a -> c1 = c2.
Proof.
  intros H1 H2. apply index_entries_lookup in H1, H2.
  destruct H1 as (e1 & He1 & <-). destruct H2 as (e2 & He2 & <-). congruence.
Qed.

Lemma resolve_entry_spec (st : engine_state) (subject : Subject)
    (professor : Professor) :
  length (schedule_entries s) <= length (heap st) ->
  let a := (resolve_entry (index_entries (schedule_entries s)) st subject professor).1.1 in
  let heap1 := (resolve_entry (index_entries (schedule_entries s)) st subject professor).1.2 in
  a < length heap1
  /\ length (heap st) <= length heap1
  /\ (forall a', a' <> a -> a' < length (heap st) ->
                 heap1 !! a' = heap st !! a')
  /\ subject_code (heap1 !!! a) = code subject
  /\ ((index_entries (schedule_entries s)) !! code subject = Some a
      \/ ((index_entries (schedule_entries s)) !! code subject = None /\ a = length (heap st))).
Proof.
  intros Hlen. unfold resolve_entry.
  destruct ((index_entries (schedule_entries s)) !! code subject) as [a0 |] eqn:Ei.
  - assert (Ha0 : a0 < length (heap st)).
    { apply index_range in Ei. lia. }
    destruct (truthy (schedule_id (heap st !!! a0))); cbn [fst snd].
    + rewrite length_insert. repeat split; try lia.
      * intros a' Hne _. now rewrite list_lookup_insert_ne.
      * rewrite list_lookup_total_insert_eq by exact Ha0. reflexivity.
      * now left.
    + rewrite length_insert. repeat split; try lia.
      * intros a' Hne _. now rewrite list_lookup_insert_ne.
      * rewrite list_lookup_total_insert_eq by exact Ha0. reflexivity.
      * now left.
  - cbn [fst snd]. rewrite length_app. cbn [length]. repeat split; try lia.
    + intros a' _ Hlt. now rewrite lookup_app_l.
    + rewrite (list_lookup_total_correct _ _
                 (mk_ScheduleEntry (next_schedule_id (taken_schedule_ids st))
                    (code subject) (prof_id professor) "" "" ""));
        [reflexivity |].
      rewrite lookup_app_r by lia. now rewrite Nat.sub_diag.
    + right. split; reflexivity.
Qed.

Lemma deref_ext (h h' : list ScheduleEntry) (l : list nat) :
  (forall a, In a l -> h' !! a = h !! a) -> deref h' l = deref h l.
Proof.
  intros H. unfold deref. apply map_ext_in. intros a Ha.
  rewrite !list_lookup_total_alt, (H a Ha). reflexivity.
Qed.

Lemma deref_In (h : list ScheduleEntry) (l : list nat) (e : ScheduleEntry) :
  In e (deref h l) -> exists a, In a l /\ h !!! a = e.
Proof.
  unfold deref. rewrite in_map_iff. intros (a & He & Ha). eauto.
Qed.

Lemma slots_of_known_professor (professor : Professor) :
  professors_by_id_of s !! prof_id professor = Some professor ->
  default [] (professor_slots_of s !! prof_id professor)
  = _build_professor_slots professor
  /\ default ∅ (professor_slot_lookup_of s !! prof_id professor)
     = list_to_set (_build_professor_slots professor).
Proof.
  intros H.
  rewrite professor_slots_lookup, professor_slot_lookup_lookup, H.
  split; reflexivity.
Qed.

Lemma pass_invariant_step (subject : Subject) (professor : Professor)
    (rest : list (Subject * Professor)) (st : engine_state) :
  In subject (subjects s) ->
  truthy (professor_id subject) = true ->
  professors_by_id_of s !! professor_id subject = Some professor ->
  ~ In (code subject) (map (fun sp => code sp.1) rest) ->
  pass_invariant s ((subject, professor) :: rest) st ->
  pass_invariant s rest (snapshot_step s st (subject, professor)).
Proof.
  intros Hsub Htruthy Hprof Hnew (Hlen & Hgood & Hfresh & Hnd).
  pose proof (dict_by_lookup _ _ _ _ Hprof) as [Hpin Hpid].
  pose proof (process_subject_cases (subjects_by_code_of s)
                (build_rooms_by_type (rooms s)) (professor_slots_of s)
                (professor_slot_lookup_of s) (index_entries (schedule_entries s)) st subject professor) as Hc.
  pose proof (resolve_entry_spec st subject professor Hlen) as Hr.
  cbn zeta in Hc, Hr. unfold snapshot_step.
  set (a := (resolve_entry (index_entries (schedule_entries s)) st subject professor).1.1) in *.
  set (heap1 := (resolve_entry (index_entries (schedule_entries s)) st subject professor).1.2) in *.
  destruct Hr as (Ha & Hlen1 & Hsame & Hcode & Hidx).
  assert (Hold : forall a', In a' (new_entries st) ->
                            a' <> a /\ heap1 !! a' = heap st !! a').
  { intros a' Ha'. destruct (Hgood a' Ha') as (e & He & _).
    apply lookup_lt_Some in He as Hlt.
    assert (Hne : a' <> a).
    { destruct Hidx as [Hi | [_ Hi]]; [| lia].
      intros ->. apply (Hfresh a (subject, professor) Ha'); [now left | exact Hi]. }
    split; [exact Hne |]. now apply Hsame. }
  assert (Hskip : forall h taken used_room no_slot no_room,
             (forall a', In a' (new_entries st) -> h !! a' = heap st !! a') ->
             length (heap st) <= length h ->
             pass_invariant s rest
               (mk_engine_state h taken (used_prof_slots st) used_room
                                (new_entries st) no_slot no_room)).
  { intros h taken used_room no_slot no_room Hh Hl.
    unfold pass_invariant. cbn [heap new_entries used_prof_slots].
    split; [lia |]. split; [| split].
    - intros a' Ha'. rewrite (Hh a' Ha'). now apply Hgood.
    - intros a' sp Ha' Hsp. apply Hfresh; [exact Ha' | now right].
    - rewrite (deref_ext (heap st) h) by exact Hh. exact Hnd. }
  destruct Hc as [[_ ->] | [(_ & _ & ->) |
    (d & t & room & used1 & _ & Hslot & Hroom & [[Hno ->] | [Hyes ->]])]].
  - apply Hskip; [reflexivity | lia].
  - apply Hskip; [intros a' Ha'; now apply Hold | exact Hlen1].
  - apply Hskip; [intros a' Ha'; now apply Hold | exact Hlen1].
  - set (final := mk_ScheduleEntry (schedule_id (heap1 !!! a))
                    (subject_code (heap1 !!! a)) (prof_id professor) room d t).
    apply resolve_slot_free in Hslot. destruct Hslot as [Hfree Hmember].
    assert (Hp' : professors_by_id_of s !! prof_id professor = Some professor)
      by (rewrite Hpid; exact Hprof).
    destruct (slots_of_known_professor professor Hp') as [Hs1 Hs2].
    rewrite Hs1, Hs2 in Hmember.
    assert (Hslot_in : In (d, t) (_build_professor_slots professor)).
    { destruct Hmember as [H | H]; [exact H |].
      apply elem_of_list_to_set in H. now apply list_elem_of_In. }
    assert (Hfinal : <[a := final]> heap1 !! a = Some final)
      by (now apply list_lookup_insert_eq).
    assert (Hkeep : forall a', In a' (new_entries st) ->
                      <[a := final]> heap1 !! a' = heap st !! a').
    { intros a' Ha'. destruct (Hold a' Ha') as [Hne Heq].
      rewrite list_lookup_insert_ne by congruence. exact Heq. }
    unfold pass_invariant. cbn [heap new_entries used_prof_slots].
    split; [rewrite length_insert; lia |]. split; [| split].
    + intros a' Ha'. apply in_app_or in Ha'. destruct Ha' as [Ha' | [<- | []]].
      * rewrite (Hkeep a' Ha'). destruct (Hgood a' Ha') as (e & He & Hw & Hu).
        exists e. split; [exact He |]. split; [exact Hw |].
        apply elem_of_union. right. exact Hu.
      * exists final. split; [exact Hfinal |]. split.
        -- exists subject, professor. unfold final. cbn.
           repeat split;
             first [assumption | congruence | rewrite Hpid; exact Htruthy].
        -- unfold professor_slot_of, final. cbn.
           apply elem_of_union. left. now apply elem_of_singleton.
    + intros a' sp Ha' Hsp Hi. apply in_app_or in Ha'.
      destruct Ha' as [Ha' | [<- | []]].
      * apply (Hfresh a' sp Ha'); [now right | exact Hi].
      * destruct Hidx as [Hi0 | [_ Hi0]].
        -- apply Hnew. apply in_map_iff. exists sp. split; [| exact Hsp].
           exact (index_injective _ _ _ Hi Hi0).
        -- apply index_range in Hi. lia.
    + unfold deref. rewrite map_app, map_app. cbn [map].
      rewrite (list_lookup_total_correct _ _ _ Hfinal).
      fold (deref (<[a := final]> heap1) (new_entries st)).
      rewrite (deref_ext (heap st) (<[a := final]> heap1)) by exact Hkeep.
      apply NoDup_app. split; [exact Hnd |]. split; [| apply NoDup_singleton].
      intros x Hx Hx'. apply list_elem_of_singleton in Hx'. subst x.
      apply list_elem_of_In, in_map_iff in Hx. destruct Hx as (e & He & Hin).
      apply deref_In in Hin. destruct Hin as (a' & Ha' & Hea).
      destruct (Hgood a' Ha') as (e' & He' & _ & Hu).
      rewrite (list_lookup_total_correct _ _ _ He') in Hea. subst e'.
      rewrite He in Hu. unfold professor_slot_of, final in Hu. cbn in Hu.
      contradiction.
Qed.

Lemma pass_invariant_pass (remaining : list (Subject * Professor))
    (st : engine_state) :
  (forall sp, In sp remaining ->
              In sp.1 (subjects s)
              /\ truthy (professor_id sp.1) = true
              /\ professors_by_id_of s !! professor_id sp.1 = Some sp.2) ->
  NoDup (map (fun sp => code sp.1) remaining) ->
  pass_invariant s remaining st ->
  pass_invariant s [] (foldl (snapshot_step s) st remaining).
Proof.
  revert st. induction remaining as [| [subject professor] rest IH];
    intros st Helig Hnd Hinv; [exact Hinv |].
  cbn [foldl]. cbn [map fst] in Hnd. apply NoDup_cons in Hnd.
  destruct Hnd as [Hnew Hnd]. apply IH.
  - intros sp Hsp. apply Helig. now right.
  - exact Hnd.
  - destruct (Helig (subject, professor)) as (H1 & H2 & H3); [now left |].
    apply pass_invariant_step; try assumption.
    intros Hin. apply Hnew. now apply list_elem_of_In.
Qed.

Lemma eligible_codes_NoDup :
  NoDup (map code (subjects s)) ->
  NoDup (map (fun sp => code sp.1) (eligibility s).1).
Proof.
  rewrite eligibility_eq. cbn [fst]. generalize (subjects s). intros l.
  assert (Hsub : forall l c,
             In c (map (fun sp => code sp.1)
                       (omap (eligible_of (professors_by_id_of s)) l)) ->
             In c (map code l)).
  { clear. induction l as [| x l IH]; intros c; [intros [] |].
    cbn [omap list_omap]. unfold eligible_of at 1.
    destruct (professors_by_id_of s !! professor_id x) as [p |];
      [destruct (truthy (professor_id x)) |]; cbn [map In fst].
    - intros [<- | H]; [now left | right; now apply IH].
    - intros H. right. now apply IH.
    - intros H. right. now apply IH. }
  induction l as [| x l IH]; intros Hnd; [constructor |].
  cbn [map] in Hnd. apply NoDup_cons in Hnd. destruct Hnd as [Hx Hnd].
  cbn [omap list_omap]. unfold eligible_of at 1.
  destruct (professors_by_id_of s !! professor_id x) as [p |];
    [destruct (truthy (professor_id x)) |]; try (now apply IH).
  cbn [map fst]. apply NoDup_cons. split; [| now apply IH].
  intros Hin. apply Hx. apply list_elem_of_In. apply Hsub.
  now apply list_elem_of_In.
Qed.

Lemma run_pass_invariant :
  NoDup (map code (subjects s)) -> pass_invariant s [] (run_pass s).
Proof.
  intros Hnd.
  change (run_pass s)
    with (foldl (snapshot_step s) (initial_state s) (eligibility s).1).
  apply pass_invariant_pass.
  - intros [subject professor] Hsp. now apply eligible_In.
  - now apply eligible_codes_NoDup.
  - unfold pass_invariant, initial_state. cbn.
    split; [lia |]. split; [intros a [] |]. split; [intros a sp [] |].
    constructor.
Qed.

End run_invariant.

Section run_output.

Lemma scheduled_entries (s : snapshot) (entries : list ScheduleEntry)
    (b1 b2 b3 : list string) :
  _generate_schedule s = Scheduled entries b1 b2 b3 ->
  Permutation entries
              (deref (heap (run_pass s)) (new_entries (run_pass s))).
Proof.
  unfold _generate_schedule.
  repeat match goal with
         | |- context [if ?b then _ else _] => destruct b; [discriminate |]
         end.
  intros [= <- _ _ _]. apply py_sorted_perm.
Qed.

(** C9. On a snapshot whose subject codes are unique, every assignment of
    the output carries the code of a subject of the snapshot and that
    subject's professor identifier, which is non-empty and resolves to a
    professor of the snapshot, and its (day, time) pair is a member of the
    availability sequence generated for that professor. *)
Theorem output_entries_well_linked (s : snapshot)
    (entries : list ScheduleEntry) (b1 b2 b3 : list string)
    (e : ScheduleEntry) :
  NoDup (map code (subjects s)) ->
  _generate_schedule s = Scheduled entries b1 b2 b3 ->
  In e entries ->
  exists subject professor,
    In subject (subjects s)
    /\ code subject = subject_code e
    /\ professor_id subject = entry_professor_id e
    /\ entry_professor_id e <> EmptyString
    /\ In professor (professors s)
    /\ prof_id professor = entry_professor_id e
    /\ professors_by_id_of s !! entry_professor_id e = Some professor
    /\ In (day e, time_ e) (_build_professor_slots professor).
Proof.
  intros Hnd Hrun He.
  pose proof (run_pass_invariant s Hnd) as (_ & Hgood & _ & _).
  apply (Permutation_in _ (scheduled_entries _ _ _ _ _ Hrun)) in He.
  apply deref_In in He. destruct He as (a & Ha & Hea).
  destruct (Hgood a Ha) as (e' & He' & Hw & _).
  rewrite (list_lookup_total_correct _ _ _ He') in Hea. subst e'.
  destruct Hw as (subject & professor & H1 & H2 & H3 & H4 & H5 & H6 & H7 & H8).
  exists subject, professor. repeat split; try assumption.
  intros Hempty. rewrite Hempty in H4. discriminate H4.
Qed.

(** The witness of C9: scenario A. *)
Lemma output_entries_well_linked_witness :
  exists subject professor,
    In subject (subjects snapshot_scenario_A)
    /\ code subject = "SBJ001"
    /\ professor_id subject = "P1"
    /\ "P1" <> EmptyString
    /\ In professor (professors snapshot_scenario_A)
    /\ prof_id professor = "P1"
    /\ professors_by_id_of snapshot_scenario_A !! "P1" = Some professor
    /\ In ("Monday", "09:00") (_build_professor_slots professor).
Proof.
  apply (output_entries_well_linked snapshot_scenario_A
           [mk_ScheduleEntry "SCH001" "SBJ001" "P1" "R1" "Monday" "09:00"]
           [] [] []
           (mk_ScheduleEntry "SCH001" "SBJ001" "P1" "R1" "Monday" "09:00")).
  - simpl. apply NoDup_cons. split; [apply not_elem_of_nil | apply NoDup_nil_2].
  - vm_compute. reflexivity.
  - left. reflexivity.
Defined.

(** C9 without unique subject codes fails. Two subjects carry the code
    SBJ006, so both steps work on the one entry object of the previous
    schedule. The step for SBJ006 of P1 keeps it at Monday 09:00 and appends
    it to the new assignments; the step for SBJ006 of P2 then writes P2 into
    the same object and is skipped for lack of a slot, the five slots of P2
    being taken. The output holds SCH001 of professor P2 at Monday 09:00,
    and P2 is available at 14:00 only. *)
Lemma duplicate_code_breaks_link :
  let e := mk_ScheduleEntry "SCH001" "SBJ006" "P2" "R1" "Monday" "09:00" in
  _generate_schedule snapshot_duplicate_code
  = Scheduled
      [e;
       mk_ScheduleEntry "SCH002" "SBJ001" "P2" "R1" "Monday" "14:00";
       mk_ScheduleEntry "SCH003" "SBJ002" "P2" "R1" "Tuesday" "14:00";
       mk_ScheduleEntry "SCH004" "SBJ003" "P2" "R1" "Wednesday" "14:00";
       mk_ScheduleEntry "SCH005" "SBJ004" "P2" "R1" "Thursday" "14:00";
       mk_ScheduleEntry "SCH006" "SBJ005" "P2" "R1" "Friday" "14:00"]
      [] ["SBJ006"] []
  /\ ~ NoDup (map code (subjects snapshot_duplicate_code))
  /\ professors_by_id_of snapshot_duplicate_code !! entry_professor_id e
     = Some (prof_14_15 "P2")
  /\ ~ In (day e, time_ e) (_build_professor_slots (prof_14_15 "P2"))
  /\ ~ (exists subject professor,
          In subject (subjects snapshot_duplicate_code)
          /\ code subject = subject_code e
          /\ professor_id subject = entry_professor_id e
          /\ entry_professor_id e <> EmptyString
          /\ In professor (professors snapshot_duplicate_code)
          /\ prof_id professor = entry_professor_id e
          /\ professors_by_id_of snapshot_duplicate_code
               !! entry_professor_id e = Some professor
          /\ In (day e, time_ e) (_build_professor_slots professor)).
Proof.
  intros e.
  assert (Hlook : professors_by_id_of snapshot_duplicate_code
                    !! entry_professor_id e = Some (prof_14_15 "P2"))
    by (vm_compute; reflexivity).
  assert (Hslots : ~ In (day e, time_ e)
                        (_build_professor_slots (prof_14_15 "P2"))).
  { vm_compute. intros H.
    repeat (destruct H as [H | H]; [discriminate H |]). exact H. }
  split; [vm_compute; reflexivity |]. split.
  { intros H. apply (bool_decide_pack _) in H. vm_compute in H. exact H. }
  split; [exact Hlook |]. split; [exact Hslots |].
  intros (subject & professor & _ & _ & _ & _ & _ & _ & Hp & Hin).
  rewrite Hlook in Hp. injection Hp as <-. exact (Hslots Hin).
Qed.

(** On a snapshot whose subject codes are unique, no two assignments of the
    output share (professor, day, time). *)
Theorem output_professor_slots_distinct (s : snapshot)
    (entries : list ScheduleEntry) (b1 b2 b3 : list string) :
  NoDup (map code (subjects s)) ->
  _generate_schedule s = Scheduled entries b1 b2 b3 ->
  NoDup (map professor_slot_of entries).
Proof.
  intros Hnd Hrun.
  pose proof (run_pass_invariant s Hnd) as (_ & _ & _ & Hdistinct).
  rewrite (Permutation_map professor_slot_of
             (scheduled_entries _ _ _ _ _ Hrun)).
  exact Hdistinct.
Qed.

End run_output.

(** * Further properties of the engine *)

(** ** What room selection can return *)

Section room_selection_outcomes.

Lemma get_rooms_In (d : list (string * list Room)) (ty : string) (r : Room) :
  In r (get_rooms d ty) -> exists rs, In (ty, rs) d /\ In r rs.
Proof.
  induction d as [| [k rs] d IH]; simpl; [intros [] |].
  destruct (String.eqb_spec k ty) as [-> | Hne].
  - intros Hin. exists rs. split; [now left | exact Hin].
  - intros Hin. destruct (IH Hin) as (rs' & H1 & H2).
    exists rs'. split; [now right | exact H2].
Qed.

Lemma suitable_rooms_incl (required_capacity : Z) (rs : list Room) (r : Room) :
  In r (suitable_rooms required_capacity rs) -> In r rs.
Proof.
  unfold suitable_rooms.
  destruct (List.filter _ rs) eqn:Ef; [auto |].
  rewrite <- Ef. intros Hin. apply filter_In in Hin. apply Hin.
Qed.

Lemma scan_types_In (rooms_by_type : list (string * list Room))
    (required_capacity : Z) (used_slots : gset (string * string * string))
    (d t : string) (types : list string) (r : Room) :
  scan_types rooms_by_type required_capacity used_slots d t types = Some r ->
  exists ty rs, In (ty, rs) rooms_by_type /\ In r rs.
Proof.
  induction types as [| ty types IH]; simpl; [discriminate |].
  destruct (first_free _ _ _ _) as [r' |] eqn:Ef; [| exact IH].
  intros [= ->]. unfold first_free in Ef. apply find_some in Ef.
  destruct Ef as [Hin _]. apply suitable_rooms_incl, get_rooms_In in Hin.
  destruct Hin as (rs & H1 & H2). eauto.
Qed.

Lemma scan_all_Some (rooms_by_type : list (string * list Room))
    (used_slots : gset (string * string * string)) (d t : string) (r : Room) :
  scan_all rooms_by_type used_slots d t = Some r ->
  ((number r, d, t) ∉ used_slots)
  /\ exists ty rs, In (ty, rs) rooms_by_type /\ In r rs.
Proof.
  unfold scan_all, first_free. intros H. apply find_some in H.
  destruct H as [Hin Hfree]. split; [now apply slot_free_true |].
  apply in_flat_map in Hin. destruct Hin as ([ty rs] & H1 & H2). eauto.
Qed.

Lemma scan_all_None (rooms_by_type : list (string * list Room))
    (used_slots : gset (string * string * string)) (d t : string) :
  scan_all rooms_by_type used_slots d t = None ->
  forall ty rs r, In (ty, rs) rooms_by_type -> In r rs ->
                  (number r, d, t) ∈ used_slots.
Proof.
  unfold scan_all, first_free. intros H ty rs r H1 H2.
  apply slot_free_false. apply (find_none _ _ H).
  apply in_flat_map. exists (ty, rs). split; assumption.
Qed.

(** X1. Room selection ends in one of three ways. It keeps the previous
    room, which is then non-empty and was free at the slot; or, the
    previous room being empty or taken, it returns a room of the index that
    was free at the slot; in both cases exactly that (room, day, time) is
    added to the consumed set. Or every room of the index is taken at the
    slot and the previous room is empty or taken: then the previous room
    number is returned as it is and the consumed set is left unchanged. *)
Theorem assign_room_outcome (entry : ScheduleEntry) (d t : string)
    (subjects_by_code : gmap string Subject)
    (rooms_by_type : list (string * list Room))
    (used_slots : gset (string * string * string)) :
  let prev := strip (room_number entry) in
  let result :=
    _assign_room entry d t subjects_by_code rooms_by_type used_slots in
  (prev <> EmptyString /\ ((prev, d, t) ∉ used_slots)
   /\ result = (prev, {[ (prev, d, t) ]} ∪ used_slots))
  \/ ((prev = EmptyString \/ (prev, d, t) ∈ used_slots)
      /\ exists ty rs r,
          In (ty, rs) rooms_by_type /\ In r rs
          /\ ((number r, d, t) ∉ used_slots)
          /\ result = (number r, {[ (number r, d, t) ]} ∪ used_slots))
  \/ ((prev = EmptyString \/ (prev, d, t) ∈ used_slots)
      /\ (forall ty rs r, In (ty, rs) rooms_by_type -> In r rs ->
                          (number r, d, t) ∈ used_slots)
      /\ result = (prev, used_slots)).
Proof.
  intros prev result. unfold result, _assign_room.
  rewrite current_room_strip. fold prev.
  destruct (truthy prev) eqn:Et.
  - destruct (decide ((prev, d, t) ∈ used_slots)) as [Hin | Hnin].
    + rewrite (bool_decide_eq_true_2 _ Hin). cbn [negb andb]. right.
      destruct (scan_types _ _ _ _ _ _) as [r |] eqn:Es.
      * left. split; [now right |].
        destruct (scan_types_In _ _ _ _ _ _ _ Es) as (ty & rs & H1 & H2).
        exists ty, rs, r. repeat split; try assumption.
        now apply (scan_types_free _ _ _ _ _ _ _ Es).
      * destruct (scan_all _ _ _ _) as [r |] eqn:Ea.
        -- left. split; [now right |].
           destruct (scan_all_Some _ _ _ _ _ Ea) as (Hf & ty & rs & H1 & H2).
           exists ty, rs, r. repeat split; assumption.
        -- right. split; [now right |].
           split; [now apply scan_all_None | reflexivity].
    + rewrite (bool_decide_eq_false_2 _ Hnin). cbn [negb andb]. left.
      split; [intros H; rewrite H in Et; discriminate |].
      split; [exact Hnin | reflexivity].
  - cbn [andb]. right.
    assert (Hprev : prev = EmptyString) by (destruct prev; [reflexivity | discriminate]).
    destruct (scan_types _ _ _ _ _ _) as [r |] eqn:Es.
    + left. split; [now left |].
      destruct (scan_types_In _ _ _ _ _ _ _ Es) as (ty & rs & H1 & H2).
      exists ty, rs, r. repeat split; try assumption.
      now apply (scan_types_free _ _ _ _ _ _ _ Es).
    + destruct (scan_all _ _ _ _) as [r |] eqn:Ea.
      * left. split; [now left |].
        destruct (scan_all_Some _ _ _ _ _ Ea) as (Hf & ty & rs & H1 & H2).
        exists ty, rs, r. repeat split; assumption.
      * right. split; [now left |].
        split; [now apply scan_all_None | reflexivity].
Qed.

End room_selection_outcomes.

(** ** The room index as a partition of the rooms *)

Section room_index_partition.

Lemma setdefault_append_perm (k : string) (r : Room)
    (d : list (string * list Room)) :
  Permutation (flat_map snd (setdefault_append k r d)) (r :: flat_map snd d).
Proof.
  induction d as [| [k' rs] d IH]; simpl; [reflexivity |].
  destruct (String.eqb k' k); simpl.
  - rewrite <- app_assoc. simpl.
    rewrite <- Permutation_middle. reflexivity.
  - rewrite IH. rewrite Permutation_middle. reflexivity.
Qed.

Lemma setdefault_append_keys (k : string) (r : Room)
    (d : list (string * list Room)) :
  map fst (setdefault_append k r d)
  = if bool_decide (k ∈ map fst d) then map fst d else map fst d ++ [k].
Proof.
  induction d as [| [k' rs] d IH]; cbn [setdefault_append map fst].
  - rewrite bool_decide_eq_false_2 by apply not_elem_of_nil. reflexivity.
  - destruct (String.eqb_spec k' k) as [-> | Hne]; cbn [map fst].
    + rewrite bool_decide_eq_true_2 by apply list_elem_of_here. reflexivity.
    + rewrite IH. destruct (decide (k ∈ map fst d)) as [Hin | Hnin].
      * rewrite (bool_decide_eq_true_2 _ Hin).
        rewrite bool_decide_eq_true_2 by (now apply list_elem_of_further).
        reflexivity.
      * rewrite (bool_decide_eq_false_2 _ Hnin).
        rewrite bool_decide_eq_false_2; [reflexivity |].
        intros Hin. apply elem_of_cons in Hin.
        destruct Hin as [-> | Hin]; [now apply Hne | now apply Hnin].
Qed.

Lemma setdefault_append_In (k ty : string) (r : Room) (rs : list Room)
    (d : list (string * list Room)) :
  In (ty, rs) (setdefault_append k r d) ->
  In (ty, rs) d
  \/ (ty = k /\ exists rs0, rs = rs0 ++ [r] /\ (rs0 = [] \/ In (k, rs0) d)).
Proof.
  induction d as [| [k' rs'] d IH]; simpl.
  - intros [[= <- <-] | []]. right. split; [reflexivity |].
    exists []. split; [reflexivity | now left].
  - destruct (String.eqb_spec k' k) as [-> | Hne]; simpl.
    + intros [[= <- <-] | Hin]; [| left; now right].
      right. split; [reflexivity |]. exists rs'.
      split; [reflexivity | right; now left].
    + intros [[= <- <-] | Hin]; [left; now left |].
      destruct (IH Hin) as [H | (-> & rs0 & -> & [-> | H])].
      * left. now right.
      * right. split; [reflexivity |]. exists []. split; [reflexivity | now left].
      * right. split; [reflexivity |]. exists rs0.
        split; [reflexivity | right; now right].
Qed.

Lemma type_key_nonempty (r : Room) : type_key r <> EmptyString.
Proof.
  unfold type_key. destruct (truthy (lec_sem r)) eqn:E; [| discriminate].
  intros H. rewrite H in E. discriminate.
Qed.

Lemma index_foldl_invariant (l : list Room) (d0 : list (string * list Room)) :
  NoDup (map fst d0) ->
  (forall ty rs, In (ty, rs) d0 ->
                 rs <> [] /\ forall r, In r rs -> type_key r = ty) ->
  let d := foldl (fun d room => setdefault_append (type_key room) room d)
                 d0 l in
  Permutation (flat_map snd d) (flat_map snd d0 ++ l)
  /\ NoDup (map fst d)
  /\ (forall ty rs, In (ty, rs) d ->
                    rs <> [] /\ forall r, In r rs -> type_key r = ty).
Proof.
  revert d0. induction l as [| x l IH]; intros d0 Hnd Hgroups; cbn zeta.
  - simpl. rewrite app_nil_r. auto.
  - simpl.
    destruct (IH (setdefault_append (type_key x) x d0)) as (Hp & Hn & Hg).
    + rewrite setdefault_append_keys. case_bool_decide; [exact Hnd |].
      apply NoDup_app. split; [exact Hnd |]. split; [| apply NoDup_singleton].
      intros k Hk Hk'. apply list_elem_of_singleton in Hk'. now subst k.
    + intros ty rs Hin. apply setdefault_append_In in Hin.
      destruct Hin as [Hin | (-> & rs0 & -> & Hrs0)]; [now apply Hgroups |].
      split; [now destruct rs0 |].
      intros r Hr. apply in_app_or in Hr. destruct Hr as [Hr | [<- | []]];
        [| reflexivity].
      destruct Hrs0 as [-> | Hin0]; [destruct Hr |].
      now apply (Hgroups _ _ Hin0).
    + split; [| split; assumption].
      rewrite Hp, setdefault_append_perm. simpl.
      rewrite <- Permutation_middle. reflexivity.
Qed.

(** X2. The room index is a partition of the room list: its groups together
    hold every room exactly as often as the list does, no type key occurs
    twice, no group is empty, no key is the empty string, each room sits
    under its own format tag, and rooms without a tag sit under
    "Unspecified". *)
Theorem room_index_partition (all_rooms : list Room) :
  Permutation (flat_map snd (build_rooms_by_type all_rooms)) all_rooms
  /\ NoDup (map fst (build_rooms_by_type all_rooms))
  /\ (forall ty rs, In (ty, rs) (build_rooms_by_type all_rooms) ->
        rs <> [] /\ ty <> EmptyString
        /\ forall r, In r rs ->
             In r all_rooms
             /\ (lec_sem r = ty \/ (lec_sem r = EmptyString /\ ty = "Unspecified")))
  /\ (forall r, In r all_rooms ->
        In r (get_rooms (build_rooms_by_type all_rooms)
                (if truthy (lec_sem r) then lec_sem r else "Unspecified"))).
Proof.
  destruct (index_foldl_invariant (py_sorted room_key_le all_rooms) [])
    as (Hp & Hn & Hg).
  { constructor. }
  { intros ty rs []. }
  cbn zeta in *. fold (build_rooms_by_type all_rooms) in *.
  simpl in Hp. rewrite py_sorted_perm in Hp.
  split; [exact Hp |]. split; [exact Hn |]. split.
  - intros ty rs Hin. destruct (Hg ty rs Hin) as [Hne Hkey].
    split; [exact Hne |].
    assert (Hin_all : forall r, In r rs -> In r all_rooms).
    { intros r Hr. apply (Permutation_in r Hp).
      apply in_flat_map. exists (ty, rs). split; assumption. }
    split.
    + destruct rs as [| r0 rs]; [congruence |].
      rewrite <- (Hkey r0) by now left. apply type_key_nonempty.
    + intros r Hr. split; [now apply Hin_all |].
      specialize (Hkey r Hr). unfold type_key in Hkey.
      destruct (truthy (lec_sem r)) eqn:Et; [now left |].
      right. split; [| now symmetry].
      destruct (lec_sem r); [reflexivity | discriminate].
  - intros r Hr. apply group_members. split; [exact Hr | reflexivity].
Qed.

End room_index_partition.

(** ** The subject pass, step by step *)

Section pass_steps.
Variable s : snapshot.

Lemma resolve_entry_fields (st : engine_state) (subject : Subject)
    (professor : Professor) :
  length (schedule_entries s) <= length (heap st) ->
  let r := resolve_entry (index_entries (schedule_entries s)) st subject
                         professor in
  let entry := r.1.2 !!! r.1.1 in
  let old := heap st !!! r.1.1 in
  let fresh_id := next_schedule_id (taken_schedule_ids st) in
  subject_code entry = code subject
  /\ entry_professor_id entry = prof_id professor
  /\ ((index_entries (schedule_entries s) !! code subject = Some r.1.1
       /\ room_number entry = room_number old
       /\ day entry = day old /\ time_ entry = time_ old
       /\ ((truthy (schedule_id old) = true
            /\ schedule_id entry = schedule_id old
            /\ r.2 = taken_schedule_ids st)
           \/ (truthy (schedule_id old) = false
               /\ schedule_id entry = fresh_id
               /\ r.2 = taken_schedule_ids st ++ [fresh_id])))
      \/ (index_entries (schedule_entries s) !! code subject = None
          /\ r.1.1 = length (heap st)
          /\ room_number entry = EmptyString
          /\ day entry = EmptyString /\ time_ entry = EmptyString
          /\ schedule_id entry = fresh_id
          /\ r.2 = taken_schedule_ids st ++ [fresh_id])).
Proof.
  intros Hlen. cbn zeta. unfold resolve_entry.
  destruct (index_entries (schedule_entries s) !! code subject) as [a0 |] eqn:Ei.
  - assert (Ha0 : a0 < length (heap st)).
    { apply index_range in Ei. lia. }
    destruct (truthy (schedule_id (heap st !!! a0))) eqn:Et; cbn [fst snd];
      rewrite list_lookup_total_insert_eq by exact Ha0; cbn;
      (split; [reflexivity |]); (split; [reflexivity |]); left;
      (split; [reflexivity |]); (split; [reflexivity |]);
      (split; [reflexivity |]); (split; [reflexivity |]).
    + left. auto.
    + right. auto.
  - cbn [fst snd].
    rewrite (list_lookup_total_correct _ _
               (mk_ScheduleEntry (next_schedule_id (taken_schedule_ids st))
                  (code subject) (prof_id professor) "" "" ""));
      [| rewrite lookup_app_r by lia; now rewrite Nat.sub_diag].
    cbn. split; [reflexivity |]. split; [reflexivity |]. right.
    repeat split; reflexivity.
Qed.

(** One step from a state that satisfies the invariant: what the step
    leaves alone, and what it does. *)
Lemma snapshot_step_summary (subject : Subject) (professor : Professor)
    (rest : list (Subject * Professor)) (st : engine_state) :
  pass_invariant s ((subject, professor) :: rest) st ->
  ~ In (code subject) (map (fun sp => code sp.1) rest) ->
  let st' := snapshot_step s st (subject, professor) in
  let r := resolve_entry (index_entries (schedule_entries s)) st subject
                         professor in
  let entry := r.1.2 !!! r.1.1 in
  (forall a', a' <> r.1.1 -> a' < length (heap st) ->
              heap st' !! a' = heap st !! a')
  /\ (forall a', In a' (new_entries st) ->
                 a' <> r.1.1 /\ a' < length (heap st))
  /\ (forall sp a', In sp rest ->
        index_entries (schedule_entries s) !! code sp.1 = Some a' ->
        a' <> r.1.1 /\ a' < length (heap st))
  /\ length (heap st) <= length (heap st')
  /\ ((new_entries st' = new_entries st
       /\ used_prof_slots st' = used_prof_slots st
       /\ ((skipped_no_slot st' = skipped_no_slot st ++ [code subject]
            /\ skipped_no_room st' = skipped_no_room st
            /\ used_room_slots st' = used_room_slots st
            /\ (taken_schedule_ids st' = taken_schedule_ids st
                \/ taken_schedule_ids st' = r.2))
           \/ (skipped_no_room st' = skipped_no_room st ++ [code subject]
               /\ skipped_no_slot st' = skipped_no_slot st
               /\ taken_schedule_ids st' = r.2
               /\ exists d t,
                   _assign_room
                     (mk_ScheduleEntry (schedule_id entry) (subject_code entry)
                        (prof_id professor) (room_number entry) d t)
                     d t (subjects_by_code_of s)
                     (build_rooms_by_type (rooms s)) (used_room_slots st)
                   = (EmptyString, used_room_slots st'))))
      \/ (exists d t room,
            truthy room = true
            /\ _assign_room
                 (mk_ScheduleEntry (schedule_id entry) (subject_code entry)
                    (prof_id professor) (room_number entry) d t)
                 d t (subjects_by_code_of s)
                 (build_rooms_by_type (rooms s)) (used_room_slots st)
               = (room, used_room_slots st')
            /\ new_entries st' = new_entries st ++ [r.1.1]
            /\ heap st' !! r.1.1
               = Some (mk_ScheduleEntry (schedule_id entry) (code subject)
                         (prof_id professor) room d t)
            /\ ((prof_id professor, d, t) ∉ used_prof_slots st)
            /\ used_prof_slots st'
               = {[ (prof_id professor, d, t) ]} ∪ used_prof_slots st
            /\ skipped_no_slot st' = skipped_no_slot st
            /\ skipped_no_room st' = skipped_no_room st
            /\ taken_schedule_ids st' = r.2)).
Proof.
  intros (Hlen & Hgood & Hfresh & _) Hnew.
  pose proof (process_subject_cases (subjects_by_code_of s)
                (build_rooms_by_type (rooms s)) (professor_slots_of s)
                (professor_slot_lookup_of s)
                (index_entries (schedule_entries s)) st subject professor) as Hc.
  pose proof (resolve_entry_spec s st subject professor Hlen) as Hr.
  pose proof (resolve_entry_fields st subject professor Hlen) as Hf.
  cbn zeta in Hc, Hr, Hf |- *. unfold snapshot_step.
  set (r := resolve_entry (index_entries (schedule_entries s)) st subject
                          professor) in *.
  destruct Hr as (Ha & Hlen1 & Hsame & Hcode & Hidx).
  destruct Hf as (_ & _ & _).
  assert (Hnews : forall a', In a' (new_entries st) ->
                             a' <> r.1.1 /\ a' < length (heap st)).
  { intros a' Ha'. destruct (Hgood a' Ha') as (e & He & _).
    apply lookup_lt_Some in He as Hlt. split; [| exact Hlt].
    destruct Hidx as [Hi | [_ Hi]]; [| lia].
    intros ->. apply (Hfresh r.1.1 (subject, professor) Ha'); [now left | exact Hi]. }
  assert (Hrest : forall sp a', In sp rest ->
             index_entries (schedule_entries s) !! code sp.1 = Some a' ->
             a' <> r.1.1 /\ a' < length (heap st)).
  { intros sp a' Hsp Hi. pose proof (index_range s _ _ Hi) as Hlt.
    split; [| lia]. destruct Hidx as [Hi0 | [_ Hi0]]; [| lia].
    intros ->. apply Hnew. apply in_map_iff. exists sp. split; [| exact Hsp].
    exact (index_injective s _ _ _ Hi Hi0). }
  destruct Hc as [[_ ->] | [(_ & _ & ->) |
    (d & t & room & used1 & _ & Hslot & Hroom & [[Hno ->] | [Hyes ->]])]];
    cbn [heap new_entries used_prof_slots used_room_slots skipped_no_slot
         skipped_no_room taken_schedule_ids].
  - split; [auto |]. split; [exact Hnews |]. split; [exact Hrest |].
    split; [lia |]. left. split; [reflexivity |]. split; [reflexivity |].
    left. repeat split; try reflexivity. now left.
  - split; [exact Hsame |]. split; [exact Hnews |]. split; [exact Hrest |].
    split; [exact Hlen1 |]. left. split; [reflexivity |].
    split; [reflexivity |]. left. repeat split; try reflexivity. now right.
  - split; [exact Hsame |]. split; [exact Hnews |]. split; [exact Hrest |].
    split; [exact Hlen1 |]. left. split; [reflexivity |].
    split; [reflexivity |]. right. repeat split; try reflexivity.
    exists d, t. rewrite Hroom.
    destruct room; [reflexivity | discriminate].
  - split.
    { intros a' Hne Hlt. rewrite list_lookup_insert_ne by congruence.
      now apply Hsame. }
    split; [exact Hnews |]. split; [exact Hrest |].
    split; [rewrite length_insert; exact Hlen1 |].
    right. exists d, t, room.
    apply resolve_slot_free in Hslot. destruct Hslot as [Hfree _].
    split; [exact Hyes |]. split; [exact Hroom |]. split; [reflexivity |].
    split; [rewrite Hcode; now apply list_lookup_insert_eq |].
    repeat split; try reflexivity. exact Hfree.
Qed.

Lemma initial_invariant : pass_invariant s (eligibility s).1 (initial_state s).
Proof.
  unfold pass_invariant, initial_state. cbn.
  split; [lia |]. split; [intros a [] |]. split; [intros a sp [] |].
  constructor.
Qed.

(** Induction over the subject pass: a property that holds of the initial
    state and is carried over every step taken from a state satisfying the
    invariant holds of the state after the pass. *)
Lemma pass_induction
    (Q : list (Subject * Professor) -> engine_state -> Prop) :
  NoDup (map code (subjects s)) ->
  Q (eligibility s).1 (initial_state s) ->
  (forall subject professor rest st,
      In subject (subjects s) ->
      truthy (professor_id subject) = true ->
      professors_by_id_of s !! professor_id subject = Some professor ->
      ~ In (code subject) (map (fun sp => code sp.1) rest) ->
      pass_invariant s ((subject, professor) :: rest) st ->
      Q ((subject, professor) :: rest) st ->
      Q rest (snapshot_step s st (subject, professor))) ->
  Q [] (run_pass s).
Proof.
  intros Hnd Hinit Hstep.
  change (run_pass s)
    with (foldl (snapshot_step s) (initial_state s) (eligibility s).1).
  assert (Helig : forall sp, In sp (eligibility s).1 ->
                    In sp.1 (subjects s)
                    /\ truthy (professor_id sp.1) = true
                    /\ professors_by_id_of s !! professor_id sp.1 = Some sp.2).
  { intros [subject professor] Hsp. now apply eligible_In. }
  pose proof (eligible_codes_NoDup s Hnd) as Hcodes.
  pose proof initial_invariant as Hinv.
  revert Helig Hcodes Hinv Hinit.
  generalize (initial_state s). generalize (eligibility s).1 at 1 2 3 4 5.
  intros remaining. induction remaining as [| [subject professor] rest IH];
    intros st Helig Hcodes Hinv HQ; [exact HQ |].
  cbn [foldl]. cbn [map fst] in Hcodes. apply NoDup_cons in Hcodes.
  destruct Hcodes as [Hnew Hcodes].
  assert (Hnew' : ~ In (code subject) (map (fun sp => code sp.1) rest)).
  { intros Hin. apply Hnew. now apply list_elem_of_In. }
  destruct (Helig (subject, professor)) as (H1 & H2 & H3); [now left |].
  apply IH.
  - intros sp Hsp. apply Helig. now right.
  - exact Hcodes.
  - now apply pass_invariant_step.
  - now apply Hstep.
Qed.

Lemma deref_snoc (h : list ScheduleEntry) (news : list nat) (a : nat)
    (e : ScheduleEntry) :
  h !! a = Some e -> deref h (news ++ [a]) = deref h news ++ [e].
Proof.
  intros H. unfold deref. rewrite map_app. cbn [map].
  now rewrite (list_lookup_total_correct _ _ _ H).
Qed.

End pass_steps.

(** ** Every subject is accounted for *)

Section accounting.

Lemma scheduled_buckets (s : snapshot) (entries : list ScheduleEntry)
    (b1 b2 b3 : list string) :
  _generate_schedule s = Scheduled entries b1 b2 b3 ->
  b1 = (eligibility s).2
  /\ b2 = skipped_no_slot (run_pass s)
  /\ b3 = skipped_no_room (run_pass s).
Proof.
  unfold _generate_schedule.
  repeat match goal with
         | |- context [if ?b then _ else _] => destruct b; [discriminate |]
         end.
  intros [= _ <- <- <-]. auto.
Qed.

Lemma eligibility_partition (s : snapshot) :
  Permutation (map code (subjects s))
              (map (fun sp => code sp.1) (eligibility s).1 ++ (eligibility s).2).
Proof.
  rewrite eligibility_eq. cbn [fst snd]. generalize (subjects s). intros l.
  induction l as [| x l IH]; [reflexivity |].
  cbn [map omap list_omap List.filter].
  destruct (eligible_of (professors_by_id_of s) x) as [[x' p] |] eqn:E;
    cbn [is_none map fst app].
  - assert (x' = x) as ->.
    { unfold eligible_of in E.
      destruct (professors_by_id_of s !! professor_id x);
        [destruct (truthy (professor_id x)) |]; congruence. }
    now apply perm_skip.
  - rewrite <- Permutation_middle. now apply perm_skip.
Qed.

Lemma accounted_after_pass (s : snapshot) :
  NoDup (map code (subjects s)) ->
  Permutation
    (map subject_code (deref (heap (run_pass s)) (new_entries (run_pass s)))
       ++ skipped_no_slot (run_pass s) ++ skipped_no_room (run_pass s))
    (map (fun sp => code sp.1) (eligibility s).1).
Proof.
  intros Hnd.
  pose proof (pass_induction s
    (fun remaining st =>
       Permutation
         (map subject_code (deref (heap st) (new_entries st))
            ++ skipped_no_slot st ++ skipped_no_room st
            ++ map (fun sp => code sp.1) remaining)
         (map (fun sp => code sp.1) (eligibility s).1)) Hnd) as H.
  cbn beta in H. cbn [map] in H. rewrite !app_nil_r in H. apply H; clear H.
  - reflexivity.
  - intros subject professor rest st _ _ _ Hnew Hinv HQ.
    destruct (snapshot_step_summary s subject professor rest st Hinv Hnew)
      as (Hframe & Hnews & _ & _ & Hcase).
    cbn zeta in *.
    assert (Hderef : deref (heap (snapshot_step s st (subject, professor)))
                           (new_entries st)
                     = deref (heap st) (new_entries st)).
    { apply deref_ext. intros a' Ha'. destruct (Hnews a' Ha').
      now apply Hframe. }
    rewrite <- HQ. cbn [map fst].
    destruct Hcase as [(Hn & _ & [(Hs & Hr & _) | (Hr & Hs & _)]) |
      (d & t & room & _ & _ & Hn & Hlook & _ & _ & Hs & Hr & _)];
      rewrite Hn, Hs, Hr.
    + rewrite Hderef. apply Permutation_app_head.
      rewrite <- app_assoc. apply Permutation_app_head. cbn [app].
      apply Permutation_middle.
    + rewrite Hderef. apply Permutation_app_head, Permutation_app_head.
      rewrite <- app_assoc. cbn [app]. apply Permutation_app_head.
      reflexivity.
    + rewrite (deref_snoc _ _ _ _ Hlook), Hderef, map_app. cbn [map subject_code].
      rewrite <- app_assoc. apply Permutation_app_head. cbn [app].
      rewrite !Permutation_middle. reflexivity.
Qed.

(** X3. On a snapshot with unique subject codes, a run that yields a
    schedule accounts for every subject exactly once: the subject codes of
    the assignments together with the three skip lists are a rearrangement
    of the subject codes of the snapshot, so no subject is assigned twice,
    none is both assigned and skipped, and none is lost. *)
Theorem every_subject_accounted (s : snapshot) (entries : list ScheduleEntry)
    (b1 b2 b3 : list string) :
  NoDup (map code (subjects s)) ->
  _generate_schedule s = Scheduled entries b1 b2 b3 ->
  Permutation (map subject_code entries ++ b1 ++ b2 ++ b3)
              (map code (subjects s))
  /\ NoDup (map subject_code entries ++ b1 ++ b2 ++ b3).
Proof.
  intros Hnd Hrun.
  assert (Hp : Permutation (map subject_code entries ++ b1 ++ b2 ++ b3)
                           (map code (subjects s))).
  { destruct (scheduled_buckets _ _ _ _ _ Hrun) as (-> & -> & ->).
    rewrite (Permutation_map subject_code (scheduled_entries _ _ _ _ _ Hrun)).
    rewrite eligibility_partition, <- (accounted_after_pass s Hnd).
    rewrite <- !app_assoc. apply Permutation_app_head.
    etransitivity; [apply Permutation_app_comm |].
    rewrite <- app_assoc. reflexivity. }
  split; [exact Hp |]. rewrite Hp. exact Hnd.
Qed.

(** The witness of X3: two subjects placed, one without professor. *)
Lemma every_subject_accounted_witness :
  Permutation
    (map subject_code
       [mk_ScheduleEntry "SCH001" "SBJ001" "P1" "R1" "Monday" "09:00";
        mk_ScheduleEntry "SCH002" "SBJ002" "P1" "R1" "Monday" "10:00"]
       ++ ["SBJ003"] ++ [] ++ [])
    (map code (subjects snapshot_three_subjects))
  /\ NoDup
       (map subject_code
          [mk_ScheduleEntry "SCH001" "SBJ001" "P1" "R1" "Monday" "09:00";
           mk_ScheduleEntry "SCH002" "SBJ002" "P1" "R1" "Monday" "10:00"]
          ++ ["SBJ003"] ++ [] ++ []).
Proof.
  apply (every_subject_accounted snapshot_three_subjects).
  - apply (bool_decide_unpack _). vm_compute. exact I.
  - vm_compute. reflexivity.
Defined.

End accounting.

(** ** Rooms on a run without previous rooms *)

Section fresh_rooms.

Lemma assign_room_no_previous (entry : ScheduleEntry) (d t : string)
    (subjects_by_code : gmap string Subject)
    (rooms_by_type : list (string * list Room))
    (used_slots used' : gset (string * string * string)) (room : string) :
  strip (room_number entry) = EmptyString ->
  _assign_room entry d t subjects_by_code rooms_by_type used_slots
  = (room, used') ->
  used_slots ⊆ used'
  /\ (truthy room = true ->
      ((room, d, t) ∉ used_slots) /\ used' = {[ (room, d, t) ]} ∪ used_slots).
Proof.
  intros Hprev. unfold _assign_room.
  rewrite current_room_strip, Hprev. cbn [truthy andb].
  destruct (scan_types _ _ _ _ _ _) as [r |] eqn:Es.
  - intros [= <- <-]. split; [apply union_subseteq_r |].
    intros _. split; [| reflexivity].
    now apply (scan_types_free _ _ _ _ _ _ _ Es).
  - destruct (scan_all _ _ _ _) as [r |] eqn:Ea.
    + intros [= <- <-]. split; [apply union_subseteq_r |].
      intros _. split; [| reflexivity]. now apply scan_all_Some in Ea.
    + intros [= <- <-]. split; [reflexivity | discriminate].
Qed.

Lemma rooms_after_pass (s : snapshot) :
  NoDup (map code (subjects s)) ->
  (forall e, In e (schedule_entries s) ->
             strip (room_number e) = EmptyString) ->
  NoDup (map room_slot_of
             (deref (heap (run_pass s)) (new_entries (run_pass s)))).
Proof.
  intros Hnd Hrooms.
  apply (pass_induction s
    (fun remaining st =>
       (forall sp a, In sp remaining ->
          index_entries (schedule_entries s) !! code sp.1 = Some a ->
          heap st !! a = schedule_entries s !! a)
       /\ (forall e, In e (deref (heap st) (new_entries st)) ->
                     room_slot_of e ∈ used_room_slots st)
       /\ NoDup (map room_slot_of (deref (heap st) (new_entries st)))) Hnd).
  - split; [reflexivity |]. split; [intros e [] | constructor].
  - intros subject professor rest st _ _ _ Hnew Hinv (HU & Hin & Hdistinct).
    destruct (snapshot_step_summary s subject professor rest st Hinv Hnew)
      as (Hframe & Hnews & Hrest & _ & Hcase).
    destruct Hinv as (Hlen & _).
    pose proof (resolve_entry_fields s st subject professor Hlen)
      as (_ & _ & Hfields).
    cbn zeta in *.
    set (st' := snapshot_step s st (subject, professor)) in *.
    set (r := resolve_entry (index_entries (schedule_entries s)) st subject
                            professor) in *.
    assert (Hderef : deref (heap st') (new_entries st)
                     = deref (heap st) (new_entries st)).
    { apply deref_ext. intros a' Ha'. destruct (Hnews a' Ha').
      now apply Hframe. }
    assert (HU' : forall sp a, In sp rest ->
              index_entries (schedule_entries s) !! code sp.1 = Some a ->
              heap st' !! a = schedule_entries s !! a).
    { intros sp a' Hsp Hi. destruct (Hrest sp a' Hsp Hi) as [Hne Hlt].
      rewrite (Hframe a' Hne Hlt). apply (HU sp a'); [now right | exact Hi]. }
    assert (Hempty : strip (room_number (r.1.2 !!! r.1.1)) = EmptyString).
    { destruct Hfields as [(Hi & -> & _) | (_ & _ & -> & _)]; [| reflexivity].
      pose proof (HU (subject, professor) r.1.1 (or_introl eq_refl) Hi) as Hu.
      destruct (index_entries_lookup _ _ _ Hi) as (e0 & He0 & _).
      rewrite He0 in Hu.
      rewrite (list_lookup_total_correct _ _ _ Hu).
      apply Hrooms. apply list_elem_of_In, list_elem_of_lookup. eauto. }
    split; [exact HU' |].
    destruct Hcase as [(Hn & _ & [(_ & _ & Hur & _) | (_ & _ & _ & d & t & Ha)]) |
      (d & t & room & Hyes & Ha & Hn & Hlook & _)]; rewrite Hn.
    + rewrite Hderef, Hur. split; assumption.
    + rewrite Hderef. split; [| exact Hdistinct].
      apply assign_room_no_previous in Ha; [| exact Hempty].
      destruct Ha as [Hsub _]. intros e He. apply Hsub. now apply Hin.
    + rewrite (deref_snoc _ _ _ _ Hlook), Hderef.
      apply assign_room_no_previous in Ha; [| exact Hempty].
      destruct Ha as [Hsub Hfresh]. destruct (Hfresh Hyes) as [Hfree Hused].
      split.
      * intros e He. apply in_app_or in He. destruct He as [He | [<- | []]].
        -- apply Hsub. now apply Hin.
        -- rewrite Hused. apply elem_of_union. left.
           now apply elem_of_singleton.
      * rewrite map_app. cbn [map]. apply NoDup_app.
        split; [exact Hdistinct |]. split; [| apply NoDup_singleton].
        intros x Hx Hx'. apply list_elem_of_singleton in Hx'. subst x.
        apply list_elem_of_In, in_map_iff in Hx. destruct Hx as (e & He & Hi).
        apply Hin in Hi. rewrite He in Hi. contradiction.
Qed.

(** X4. On a snapshot with unique subject codes in which no previous
    assignment names a room, no two assignments of the output share
    (room, day, time). *)
Theorem rooms_distinct_without_previous_rooms (s : snapshot)
    (entries : list ScheduleEntry) (b1 b2 b3 : list string) :
  NoDup (map code (subjects s)) ->
  (forall e, In e (schedule_entries s) ->
             strip (room_number e) = EmptyString) ->
  _generate_schedule s = Scheduled entries b1 b2 b3 ->
  NoDup (map (fun e => (room_number e, day e, time_ e)) entries).
Proof.
  intros Hnd Hrooms Hrun.
  change (NoDup (map room_slot_of entries)).
  rewrite (Permutation_map room_slot_of (scheduled_entries _ _ _ _ _ Hrun)).
  now apply rooms_after_pass.
Qed.

(** The witness of X4: the previous assignment of SBJ001 names a slot and
    no room. *)
Lemma rooms_distinct_without_previous_rooms_witness :
  NoDup (map (fun e => (room_number e, day e, time_ e))
             [mk_ScheduleEntry "SCH001" "SBJ001" "P1" "R1" "Monday" "10:00";
              mk_ScheduleEntry "SCH002" "SBJ002" "P1" "R1" "Monday" "09:00"]).
Proof.
  apply (rooms_distinct_without_previous_rooms
           snapshot_previous_without_room _ [] [] []).
  - apply (bool_decide_unpack _). vm_compute. exact I.
  - intros e [<- | []]. reflexivity.
  - vm_compute. reflexivity.
Defined.

End fresh_rooms.

(** ** Stability and the lack of a slot *)

Section step_properties.

(** X5. A subject whose previous assignment has an identifier, a slot that
    is in the professor's availability and not yet consumed for the
    professor, and a room that is not yet consumed at that slot keeps all
    three: the step rewrites the entry object in place with the same
    identifier, day and time and the stripped room number, appends it to
    the new assignments, marks both slots consumed and allocates no
    identifier. *)
Theorem step_keeps_valid_assignment
    (subjects_by_code : gmap string Subject)
    (rooms_by_type : list (string * list Room))
    (professor_slots : gmap string (list (string * string)))
    (professor_slot_lookup : gmap string (gset (string * string)))
    (existing_entries : gmap string nat)
    (st : engine_state) (subject : Subject) (professor : Professor)
    (a : nat) (e : ScheduleEntry) :
  existing_entries !! code subject = Some a ->
  heap st !! a = Some e ->
  truthy (schedule_id e) = true ->
  truthy (day e) = true ->
  truthy (time_ e) = true ->
  default [] (professor_slots !! prof_id professor) <> [] ->
  (prof_id professor, day e, time_ e) ∉ used_prof_slots st ->
  (day e, time_ e) ∈ default ∅ (professor_slot_lookup !! prof_id professor) ->
  truthy (strip (room_number e)) = true ->
  (strip (room_number e), day e, time_ e) ∉ used_room_slots st ->
  process_subject subjects_by_code rooms_by_type professor_slots
    professor_slot_lookup existing_entries st (subject, professor)
  = mk_engine_state
      (<[a := mk_ScheduleEntry (schedule_id e) (code subject)
                (prof_id professor) (strip (room_number e)) (day e)
                (time_ e)]> (heap st))
      (taken_schedule_ids st)
      ({[ (prof_id professor, day e, time_ e) ]} ∪ used_prof_slots st)
      ({[ (strip (room_number e), day e, time_ e) ]} ∪ used_room_slots st)
      (new_entries st ++ [a]) (skipped_no_slot st) (skipped_no_room st).
Proof.
  intros Hidx Hheap Hid Hday Htime Hslots Hpfree Hmember Hroom Hrfree.
  pose proof (lookup_lt_Some _ _ _ Hheap) as Hlt.
  unfold process_subject.
  destruct (default [] (professor_slots !! prof_id professor))
    as [| slot0 slots'] eqn:Es; [congruence |].
  unfold resolve_entry. rewrite Hidx.
  rewrite (list_lookup_total_correct _ _ _ Hheap), Hid.
  rewrite list_lookup_total_insert_eq by exact Hlt.
  unfold resolve_slot. cbn [day time_ schedule_id subject_code room_number].
  rewrite Hday, Htime. cbn [andb].
  rewrite (bool_decide_eq_false_2 _ Hpfree), (bool_decide_eq_true_2 _ Hmember).
  cbn [negb andb].
  unfold _assign_room. cbn [room_number].
  rewrite current_room_strip, Hroom, (bool_decide_eq_false_2 _ Hrfree).
  cbn [negb andb]. rewrite Hroom.
  rewrite list_insert_insert_eq. reflexivity.
Qed.

(** The witness of X5: the only subject of [snapshot_previous_large_room]
    keeps SCH001, Monday 09:00 and room R2. *)
Lemma step_keeps_valid_assignment_witness :
  snapshot_step snapshot_previous_large_room
    (initial_state snapshot_previous_large_room)
    (subj "SBJ001" "P1" 20, prof_9_11)
  = mk_engine_state
      [mk_ScheduleEntry "SCH001" "SBJ001" "P1" "R2" "Monday" "09:00"]
      ["SCH001"]
      ({[ ("P1", "Monday", "09:00") ]} ∪ ∅)
      ({[ ("R2", "Monday", "09:00") ]} ∪ ∅)
      [0] [] [].
Proof.
  apply (step_keeps_valid_assignment
           (subjects_by_code_of snapshot_previous_large_room)
           (build_rooms_by_type (rooms snapshot_previous_large_room))
           (professor_slots_of snapshot_previous_large_room)
           (professor_slot_lookup_of snapshot_previous_large_room)
           (index_entries (schedule_entries snapshot_previous_large_room))
           (initial_state snapshot_previous_large_room)
           (subj "SBJ001" "P1" 20) prof_9_11 0
           (mk_ScheduleEntry "SCH001" "SBJ001" "P1" "R2" "Monday" "09:00")).
  - vm_compute. reflexivity.
  - reflexivity.
  - reflexivity.
  - reflexivity.
  - reflexivity.
  - vm_compute. discriminate.
  - apply not_elem_of_empty.
  - apply (bool_decide_unpack _). vm_compute. exact I.
  - reflexivity.
  - apply not_elem_of_empty.
Defined.

Lemma next_slot_None (pid : string) (slots : list (string * string))
    (used : gset (string * string * string)) :
  _next_available_professor_slot pid slots used = None
  <-> forall d t, In (d, t) slots -> (pid, d, t) ∈ used.
Proof.
  unfold _next_available_professor_slot. split.
  - intros H d t Hin. pose proof (find_none _ _ H (d, t) Hin) as Hf.
    cbn in Hf. apply negb_false_iff, bool_decide_eq_true in Hf. exact Hf.
  - intros H. destruct (List.find _ slots) as [[d t] |] eqn:Ef; [| reflexivity].
    apply find_some in Ef. destruct Ef as [Hin Hf]. cbn in Hf.
    apply negb_true_iff, bool_decide_eq_false in Hf.
    destruct (Hf (H d t Hin)).
Qed.

(** X6. In a run, a subject of a known professor is reported as skipped for
    lack of a slot exactly when every slot of the professor's availability
    sequence is already consumed for that professor, which includes the
    professor without any slot; the step then changes neither the new
    assignments nor the two consumed sets. *)
Theorem no_slot_skip_iff_exhausted (s : snapshot) (st : engine_state)
    (subject : Subject) (professor : Professor) :
  professors_by_id_of s !! prof_id professor = Some professor ->
  let st' := snapshot_step s st (subject, professor) in
  (skipped_no_slot st' = skipped_no_slot st ++ [code subject]
   <-> forall d t, In (d, t) (_build_professor_slots professor) ->
                   (prof_id professor, d, t) ∈ used_prof_slots st)
  /\ (skipped_no_slot st' = skipped_no_slot st ++ [code subject] ->
      new_entries st' = new_entries st
      /\ used_prof_slots st' = used_prof_slots st
      /\ used_room_slots st' = used_room_slots st
      /\ skipped_no_room st' = skipped_no_room st).
Proof.
  intros Hprof st'.
  destruct (slots_of_known_professor s professor Hprof) as [Hs1 Hs2].
  pose proof (process_subject_cases (subjects_by_code_of s)
                (build_rooms_by_type (rooms s)) (professor_slots_of s)
                (professor_slot_lookup_of s)
                (index_entries (schedule_entries s)) st subject professor) as Hc.
  cbn zeta in Hc. fold (snapshot_step s st (subject, professor)) in Hc.
  fold st' in Hc. rewrite Hs1 in Hc.
  destruct Hc as [[Hnil Hst] | [(Hne & Hslot & Hst) |
    (d & t & room & used1 & Hne & Hslot & Hroom & [[Hno Hst] | [Hyes Hst]])]];
    rewrite Hst; cbn [skipped_no_slot new_entries used_prof_slots
                      used_room_slots skipped_no_room].
  - split; [| auto]. split; [| reflexivity].
    intros _ d t Hin. rewrite Hnil in Hin. destruct Hin.
  - split; [| auto]. split; [| reflexivity].
    intros _. apply next_slot_None.
    unfold resolve_slot in Hslot.
    repeat match type of Hslot with
           | context [if ?b then _ else _] =>
               destruct b; try discriminate Hslot
           end; exact Hslot.
  - split; [| intros H; destruct (snoc_neq _ _ H)].
    split; [intros H; destruct (snoc_neq _ _ H) |].
    intros Hall. exfalso.
    apply resolve_slot_free in Hslot. destruct Hslot as [Hfree Hmem].
    apply Hfree, Hall. destruct Hmem as [Hin | Hin]; [exact Hin |].
    rewrite Hs2 in Hin. apply elem_of_list_to_set in Hin.
    now apply list_elem_of_In.
  - split; [| intros H; destruct (snoc_neq _ _ H)].
    split; [intros H; destruct (snoc_neq _ _ H) |].
    intros Hall. exfalso.
    apply resolve_slot_free in Hslot. destruct Hslot as [Hfree Hmem].
    apply Hfree, Hall. destruct Hmem as [Hin | Hin]; [exact Hin |].
    rewrite Hs2 in Hin. apply elem_of_list_to_set in Hin.
    now apply list_elem_of_In.
Qed.

(** The witness of X6: scenario C, a window of half an hour. *)
Lemma no_slot_skip_iff_exhausted_witness :
  skipped_no_slot
    (snapshot_step snapshot_short_window (initial_state snapshot_short_window)
                   (subj "SBJ001" "P1" 20, prof_9_930))
  = ["SBJ001"].
Proof.
  apply (proj1 (no_slot_skip_iff_exhausted snapshot_short_window
                  (initial_state snapshot_short_window)
                  (subj "SBJ001" "P1" 20) prof_9_930 eq_refl)).
  intros d t Hin. vm_compute in Hin. destruct Hin.
Defined.

End step_properties.

(** * Further properties of the helpers *)

(** ** Identifiers allocated one after another *)

Section allocation_chain.

Lemma suggest_identifier_eq (existing : list string) (prefix : string)
    (digits : nat) :
  0 < digits ->
  _suggest_identifier existing prefix digits
  = Some (prefix +:+ format_int digits (max_suffix prefix digits existing + 1)).
Proof.
  intros Hd. unfold _suggest_identifier, max_suffix.
  assert (H : mapM int_of_str (omap (pattern_match prefix digits) existing)
              = Some (omap (fun v => pattern_match prefix digits v
                                       ≫= int_of_str) existing)).
  { induction existing as [| v l IH]; [reflexivity |].
    cbn [omap list_omap].
    destruct (pattern_match prefix digits v) as [ds |] eqn:Ep; cbn.
    - apply pattern_match_iff in Ep. destruct Ep as (_ & Hl & Ha).
      destruct (int_of_str_digits ds Ha) as [k Hk]; [lia |].
      rewrite Hk. cbn. rewrite IH. reflexivity.
    - exact IH. }
  rewrite H. reflexivity.
Qed.

Lemma max_default0_snoc (l : list N) (k : N) :
  max_default0 (l ++ [k]) = N.max (max_default0 l) k.
Proof.
  induction l as [| x l IH]; simpl; [lia |]. rewrite IH. lia.
Qed.

Lemma pattern_match_own (prefix : string) (digits : nat) (k : N) :
  0 < digits -> (k < 10 ^ N.of_nat digits)%N ->
  pattern_match prefix digits (prefix +:+ dec_digits digits k)
    ≫= int_of_str = Some k.
Proof.
  intros Hd Hk.
  destruct (dec_digits_shape digits k) as [Hl Ha].
  assert (Hm : pattern_match prefix digits (prefix +:+ dec_digits digits k)
               = Some (dec_digits digits k)).
  { apply pattern_match_iff. split; [now left | split; assumption]. }
  rewrite Hm. cbn.
  pose proof (dec_digits_value digits k) as Hv.
  rewrite N.mod_small in Hv by exact Hk.
  destruct (dec_digits digits k); [simpl in Hl; lia | exact Hv].
Qed.

Lemma max_suffix_snoc (prefix : string) (digits : nat)
    (existing : list string) (k : N) :
  0 < digits -> (k < 10 ^ N.of_nat digits)%N ->
  max_suffix prefix digits (existing ++ [prefix +:+ dec_digits digits k])
  = N.max (max_suffix prefix digits existing) k.
Proof.
  intros Hd Hk. unfold max_suffix.
  rewrite omap_app. cbn [omap list_omap].
  rewrite (pattern_match_own prefix digits k Hd Hk).
  apply max_default0_snoc.
Qed.

Lemma max_suffix_bound (prefix : string) (digits : nat)
    (existing : list string) (v : string) (k : N) :
  In v existing ->
  pattern_match prefix digits v ≫= int_of_str = Some k ->
  (k <= max_suffix prefix digits existing)%N.
Proof.
  intros Hin Hk. unfold max_suffix.
  apply (proj1 (max_default0_bound _)).
  apply list_elem_of_In, list_elem_of_omap. exists v.
  split; [now apply list_elem_of_In | exact Hk].
Qed.

(** The identifier past the maximum is not in the pool, as long as its
    number fits in the digits. *)
Lemma beyond_max_fresh (prefix : string) (digits : nat)
    (existing : list string) (k : N) :
  0 < digits -> (k < 10 ^ N.of_nat digits)%N ->
  (max_suffix prefix digits existing < k)%N ->
  ~ In (prefix +:+ dec_digits digits k) existing.
Proof.
  intros Hd Hk Hlt Hin.
  pose proof (max_suffix_bound prefix digits existing _ k Hin
                (pattern_match_own prefix digits k Hd Hk)).
  lia.
Qed.

Lemma suggest_many_eq (prefix : string) (digits n : nat)
    (existing : list string) :
  0 < digits ->
  (max_suffix prefix digits existing + N.of_nat n < 10 ^ N.of_nat digits)%N ->
  suggest_many prefix digits n existing
  = Some (map (fun i => prefix +:+ dec_digits digits
                          (max_suffix prefix digits existing + 1 + N.of_nat i))
              (seq 0 n)).
Proof.
  intros Hd. revert existing.
  induction n as [| n IH]; intros existing Hfit; [reflexivity |].
  cbn [suggest_many]. rewrite (suggest_identifier_eq _ _ _ Hd).
  rewrite format_int_fits by lia.
  rewrite IH; rewrite max_suffix_snoc by lia.
  - cbn [seq map]. rewrite N.add_0_r. do 2 f_equal.
    rewrite <- seq_shift, map_map. apply map_ext. intros i.
    do 2 f_equal. lia.
  - lia.
Qed.

(** X7. Calling the allocator [n] times in a row, each result appended to
    the pool before the next call, yields the identifiers numbered
    max + 1, ..., max + n, each padded to exactly the digit width; they are
    pairwise different and none of them is in the original pool, provided
    the digit width is at least one and max + n still fits in it. *)
Theorem suggest_many_consecutive (prefix : string) (digits n : nat)
    (existing : list string) :
  0 < digits ->
  (max_suffix prefix digits existing + N.of_nat n < 10 ^ N.of_nat digits)%N ->
  exists ids,
    suggest_many prefix digits n existing = Some ids
    /\ length ids = n
    /\ (forall i, i < n ->
          ids !! i
          = Some (prefix +:+ dec_digits digits
                    (max_suffix prefix digits existing + 1 + N.of_nat i)))
    /\ NoDup ids
    /\ (forall new_id, In new_id ids -> ~ In new_id existing).
Proof.
  intros Hd Hfit. eexists. split; [now apply suggest_many_eq |].
  split; [now rewrite length_map, length_seq |]. split; [| split].
  - intros i Hi. rewrite list_lookup_fmap.
    rewrite lookup_seq_lt by exact Hi. reflexivity.
  - apply NoDup_fmap_2_strong; [| apply NoDup_seq].
    intros i j Hi Hj Heq. apply elem_of_seq in Hi, Hj.
    apply String.app_inj in Heq.
    pose proof (dec_digits_value digits
                  (max_suffix prefix digits existing + 1 + N.of_nat i)) as Hvi.
    pose proof (dec_digits_value digits
                  (max_suffix prefix digits existing + 1 + N.of_nat j)) as Hvj.
    rewrite Heq, Hvj in Hvi. injection Hvi as Hvi.
    rewrite !N.mod_small in Hvi by lia. lia.
  - intros new_id Hin. apply in_map_iff in Hin.
    destruct Hin as (i & <- & Hi). apply in_seq in Hi.
    apply beyond_max_fresh; lia.
Qed.

(** The witness of X7: two identifiers after SCH007. *)
Lemma suggest_many_consecutive_witness :
  exists ids,
    suggest_many "SCH" 3 2 ["SCH001"; "SCH007"] = Some ids
    /\ length ids = 2
    /\ (forall i, i < 2 ->
          ids !! i
          = Some ("SCH" +:+ dec_digits 3
                    (max_suffix "SCH" 3 ["SCH001"; "SCH007"] + 1 + N.of_nat i)))
    /\ NoDup ids
    /\ (forall new_id, In new_id ids -> ~ In new_id ["SCH001"; "SCH007"]).
Proof.
  apply (suggest_many_consecutive "SCH" 3 2 ["SCH001"; "SCH007"]).
  - lia.
  - vm_compute. reflexivity.
Defined.

End allocation_chain.

(** ** Identifiers of the output *)

Section output_identifiers.

Lemma truthy_ids_injective (l : list ScheduleEntry) (a1 a2 : nat)
    (e1 e2 : ScheduleEntry) :
  NoDup (List.filter truthy (map schedule_id l)) ->
  l !! a1 = Some e1 -> l !! a2 = Some e2 ->
  truthy (schedule_id e1) = true -> schedule_id e1 = schedule_id e2 ->
  a1 = a2.
Proof.
  revert a1 a2. induction l as [| x l IH]; intros a1 a2 Hnd H1 H2 Ht Heq;
    [discriminate |].
  assert (Hin : forall a e, l !! a = Some e -> truthy (schedule_id e) = true ->
                  schedule_id e ∈ List.filter truthy (map schedule_id l)).
  { intros a e Ha Hte. apply list_elem_of_In, filter_In. split; [| exact Hte].
    apply in_map. apply list_elem_of_In, list_elem_of_lookup. eauto. }
  cbn [map List.filter] in Hnd.
  destruct a1 as [| a1], a2 as [| a2]; cbn in H1, H2.
  - reflexivity.
  - injection H1 as ->. rewrite Ht in Hnd. apply NoDup_cons in Hnd.
    destruct Hnd as [Hx _]. exfalso. apply Hx. rewrite Heq.
    apply (Hin a2 e2 H2). now rewrite <- Heq.
  - injection H2 as ->. rewrite <- Heq, Ht in Hnd. apply NoDup_cons in Hnd.
    destruct Hnd as [Hx _]. exfalso. apply Hx. now apply (Hin a1 e1 H1).
  - f_equal. apply (IH a1 a2); try assumption.
    destruct (truthy (schedule_id x)); [| exact Hnd].
    apply NoDup_cons in Hnd. apply Hnd.
Qed.

Lemma next_schedule_id_fresh (taken : list string) :
  (max_suffix "SCH" 3 taken + 1 < 1000)%N ->
  next_schedule_id taken
  = "SCH" +:+ dec_digits 3 (max_suffix "SCH" 3 taken + 1)
  /\ ~ In (next_schedule_id taken) taken
  /\ max_suffix "SCH" 3 (taken ++ [next_schedule_id taken])
     = (max_suffix "SCH" 3 taken + 1)%N.
Proof.
  intros Hfit.
  assert (Hpow : (max_suffix "SCH" 3 taken + 1 < 10 ^ N.of_nat 3)%N)
    by exact Hfit.
  assert (Heq : next_schedule_id taken
                = "SCH" +:+ dec_digits 3 (max_suffix "SCH" 3 taken + 1)).
  { unfold next_schedule_id.
    rewrite (suggest_identifier_eq taken "SCH" 3) by lia. cbn [default].
    now rewrite (format_int_fits 3 _ ltac:(lia) Hpow). }
  rewrite Heq. split; [reflexivity |]. split.
  - apply beyond_max_fresh; [lia | exact Hpow | lia].
  - rewrite (max_suffix_snoc "SCH" 3 taken _ ltac:(lia) Hpow). lia.
Qed.

Lemma eligible_length (s : snapshot) :
  length (eligibility s).1 <= length (subjects s).
Proof.
  pose proof (Permutation_length (eligibility_partition s)) as H.
  rewrite length_app, !length_map in H. lia.
Qed.

Lemma identifiers_after_pass (s : snapshot) :
  NoDup (map code (subjects s)) ->
  NoDup (List.filter truthy (map schedule_id (schedule_entries s))) ->
  (max_suffix "SCH" 3 (List.filter truthy (map schedule_id (schedule_entries s)))
   + N.of_nat (length (subjects s)) < 1000)%N ->
  NoDup (map schedule_id
             (deref (heap (run_pass s)) (new_entries (run_pass s)))).
Proof.
  intros Hnd Hids Hbound.
  set (initial := List.filter truthy (map schedule_id (schedule_entries s))) in *.
  apply (pass_induction s
    (fun remaining st =>
       (forall sp a, In sp remaining ->
          index_entries (schedule_entries s) !! code sp.1 = Some a ->
          heap st !! a = schedule_entries s !! a)
       /\ (forall i, In i initial -> In i (taken_schedule_ids st))
       /\ (max_suffix "SCH" 3 (taken_schedule_ids st)
           + N.of_nat (length remaining) < 1000)%N
       /\ (forall a, In a (new_entries st) ->
             exists e, heap st !! a = Some e
               /\ In (schedule_id e) (taken_schedule_ids st)
               /\ ((exists e1, schedule_entries s !! a = Some e1
                               /\ truthy (schedule_id e1) = true
                               /\ schedule_id e = schedule_id e1)
                   \/ ~ In (schedule_id e) initial))
       /\ NoDup (map schedule_id (deref (heap st) (new_entries st)))) Hnd).
  - split; [reflexivity |]. split; [auto |]. split.
    { cbn [initial_state taken_schedule_ids]. fold initial.
      pose proof (eligible_length s). lia. }
    split; [intros a [] | constructor].
  - intros subject professor rest st _ _ _ Hnew Hinv (HU & Hincl & Hfit & Hprov & Hdistinct).
    destruct (snapshot_step_summary s subject professor rest st Hinv Hnew)
      as (Hframe & Hnews & Hrest & _ & Hcase).
    destruct Hinv as (Hlen & _).
    pose proof (resolve_entry_fields s st subject professor Hlen)
      as (_ & _ & Hfields).
    cbn zeta in *. cbn [length] in Hfit.
    set (st' := snapshot_step s st (subject, professor)) in *.
    set (r := resolve_entry (index_entries (schedule_entries s)) st subject
                            professor) in *.
    set (taken := taken_schedule_ids st) in *.
    destruct (next_schedule_id_fresh taken) as (Hfresh_eq & Hfresh & Hmax);
      [lia |].
    assert (Hderef : deref (heap st') (new_entries st)
                     = deref (heap st) (new_entries st)).
    { apply deref_ext. intros a' Ha'. destruct (Hnews a' Ha').
      now apply Hframe. }
    assert (HU' : forall sp a, In sp rest ->
              index_entries (schedule_entries s) !! code sp.1 = Some a ->
              heap st' !! a = schedule_entries s !! a).
    { intros sp a' Hsp Hi. destruct (Hrest sp a' Hsp Hi) as [Hne Hlt].
      rewrite (Hframe a' Hne Hlt). apply (HU sp a'); [now right | exact Hi]. }
    assert (Hr2 : r.2 = taken \/ r.2 = taken ++ [next_schedule_id taken]).
    { destruct Hfields as [(_ & _ & _ & _ & [(_ & _ & ->) | (_ & _ & ->)]) |
        (_ & _ & _ & _ & _ & _ & ->)]; auto. }
    assert (Htaken' : taken_schedule_ids st' = taken
                      \/ taken_schedule_ids st'
                         = taken ++ [next_schedule_id taken]).
    { destruct Hcase as [(_ & _ & [(_ & _ & _ & [-> | ->]) | (_ & _ & -> & _)]) |
        (d & t & room & _ & _ & _ & _ & _ & _ & _ & _ & ->)]; auto. }
    assert (Hgrow : forall i, In i taken -> In i (taken_schedule_ids st')).
    { intros i Hi. destruct Htaken' as [-> | ->]; [exact Hi |].
      apply in_or_app. now left. }
    assert (Hfit' : (max_suffix "SCH" 3 (taken_schedule_ids st')
                     + N.of_nat (length rest) < 1000)%N).
    { destruct Htaken' as [-> | ->]; [lia | rewrite Hmax; lia]. }
    assert (Hold : forall a, In a (new_entries st) ->
              exists e, heap st' !! a = Some e
                /\ In (schedule_id e) (taken_schedule_ids st')
                /\ ((exists e1, schedule_entries s !! a = Some e1
                                /\ truthy (schedule_id e1) = true
                                /\ schedule_id e = schedule_id e1)
                    \/ ~ In (schedule_id e) initial)).
    { intros a' Ha'. destruct (Hnews a' Ha') as [Hne Hlt].
      rewrite (Hframe a' Hne Hlt).
      destruct (Hprov a' Ha') as (e & He & Hin & Hp).
      exists e. split; [exact He |]. split; [now apply Hgrow | exact Hp]. }
    split; [exact HU' |]. split; [intros i Hi; now apply Hgrow, Hincl |].
    split; [exact Hfit' |].
    destruct Hcase as [(Hn & _) |
      (d & t & room & _ & _ & Hn & Hlook & _ & _ & _ & _ & Htk)]; rewrite Hn.
    { rewrite Hderef. split; assumption. }
    set (final := mk_ScheduleEntry (schedule_id (r.1.2 !!! r.1.1))
                    (code subject) (prof_id professor) room d t) in *.
    assert (Hfinal : In (schedule_id final) (taken_schedule_ids st')
              /\ ((exists e1, schedule_entries s !! r.1.1 = Some e1
                              /\ truthy (schedule_id e1) = true
                              /\ schedule_id final = schedule_id e1)
                  \/ ~ In (schedule_id final) taken)).
    { cbn [final schedule_id]. rewrite Htk.
      destruct Hfields as [(Hi & _ & _ & _ & [(Ht & -> & ->) | (_ & -> & ->)]) |
        (_ & _ & _ & _ & _ & -> & ->)].
      - pose proof (HU (subject, professor) r.1.1 (or_introl eq_refl) Hi) as Hu.
        destruct (index_entries_lookup _ _ _ Hi) as (e0 & He0 & _).
        rewrite He0 in Hu.
        rewrite (list_lookup_total_correct _ _ _ Hu) in Ht |- *.
        split.
        + apply Hincl. apply filter_In. split; [| exact Ht].
          apply in_map. apply list_elem_of_In, list_elem_of_lookup. eauto.
        + left. exists e0. auto.
      - split; [apply in_or_app; right; now left | now right].
      - split; [apply in_or_app; right; now left | now right]. }
    destruct Hfinal as [Hfin_in Hfin_prov].
    split.
    + intros a' Ha'. apply in_app_or in Ha'.
      destruct Ha' as [Ha' | [<- | []]]; [now apply Hold |].
      exists final. split; [exact Hlook |]. split; [exact Hfin_in |].
      destruct Hfin_prov as [Hp | Hp]; [now left |].
      right. intros Hi. apply Hp. now apply Hincl.
    + rewrite (deref_snoc _ _ _ _ Hlook), Hderef, map_app. cbn [map].
      apply NoDup_app. split; [exact Hdistinct |].
      split; [| apply NoDup_singleton].
      intros x Hx Hx'. apply list_elem_of_singleton in Hx'. subst x.
      apply list_elem_of_In, in_map_iff in Hx. destruct Hx as (e & He & Hi).
      apply deref_In in Hi. destruct Hi as (a' & Ha' & Hea).
      destruct (Hprov a' Ha') as (e' & He' & Hin' & Hp').
      rewrite (list_lookup_total_correct _ _ _ He') in Hea. subst e'.
      destruct (Hnews a' Ha') as [Hne _].
      destruct Hfin_prov as [(e1 & He1 & Ht1 & Hid1) | Hnot].
      * destruct Hp' as [(e1' & He1' & Ht1' & Hid1') | Hnot'].
        -- apply Hne.
           apply (truthy_ids_injective (schedule_entries s) a' r.1.1 e1' e1);
             try assumption. congruence.
        -- apply Hnot'. rewrite He, Hid1. apply filter_In.
           split; [| exact Ht1]. apply in_map.
           apply list_elem_of_In, list_elem_of_lookup. eauto.
      * apply Hnot. rewrite <- He. exact Hin'.
Qed.

(** X8. On a snapshot with unique subject codes whose previous assignments
    carry pairwise different identifiers (empty ones aside), and where the
    greatest SCH number of those identifiers plus the number of subjects
    stays below 1000, all assignments of the output carry different
    identifiers. *)
Theorem output_identifiers_distinct (s : snapshot)
    (entries : list ScheduleEntry) (b1 b2 b3 : list string) :
  NoDup (map code (subjects s)) ->
  NoDup (List.filter truthy (map schedule_id (schedule_entries s))) ->
  (max_suffix "SCH" 3 (List.filter truthy (map schedule_id (schedule_entries s)))
   + N.of_nat (length (subjects s)) < 1000)%N ->
  _generate_schedule s = Scheduled entries b1 b2 b3 ->
  NoDup (map schedule_id entries).
Proof.
  intros Hnd Hids Hbound Hrun.
  rewrite (Permutation_map schedule_id (scheduled_entries _ _ _ _ _ Hrun)).
  now apply identifiers_after_pass.
Qed.

(** The witness of X8: one previous identifier kept, one allocated. *)
Lemma output_identifiers_distinct_witness :
  NoDup (map schedule_id
             [mk_ScheduleEntry "SCH004" "SBJ001" "P1" "R1" "Monday" "09:00";
              mk_ScheduleEntry "SCH005" "SBJ002" "P1" "R1" "Monday" "10:00"]).
Proof.
  apply (output_identifiers_distinct snapshot_previous_missing_id _ [] [] []).
  - apply (bool_decide_unpack _). vm_compute. exact I.
  - apply (bool_decide_unpack _). vm_compute. exact I.
  - vm_compute. reflexivity.
  - vm_compute. reflexivity.
Defined.

End output_identifiers.

(** ** Subject codes: [_suggest_subject_code] *)

Section subject_codes.

Lemma size_nat_gt (n : N) : (n < 2 ^ N.of_nat (N.size_nat n))%N.
Proof.
  destruct n as [| p]; [reflexivity |]. cbn [N.size_nat].
  induction p as [p IH | p IH |]; cbn [Pos.size_nat];
    rewrite ?Nat2N.inj_succ, ?N.pow_succ_r'; [lia | lia | reflexivity].
Qed.

Lemma ndigits_fuel_enough (f : nat) (n : N) :
  (n < 2 ^ N.of_nat f)%N -> (n < 10 ^ N.of_nat (ndigits_fuel f n))%N.
Proof.
  revert n. induction f as [| f IH]; intros n Hn.
  - cbn in Hn. cbn. lia.
  - cbn [ndigits_fuel]. destruct (N.ltb_spec n 10) as [Hlt | Hge];
      [cbn; lia |].
    rewrite Nat2N.inj_succ, N.pow_succ_r' in Hn |- *.
    assert (Hq : (n / 10 < 2 ^ N.of_nat f)%N)
      by (apply N.Div0.div_lt_upper_bound; lia).
    specialize (IH _ Hq).
    pose proof (N.Div0.div_mod n 10) as Hdm.
    pose proof (N.mod_lt n 10 ltac:(lia)). lia.
Qed.

Lemma format_int_value (w : nat) (n : N) :
  int_acc 0 (format_int w n) = Some n.
Proof.
  unfold format_int. rewrite dec_digits_value. f_equal.
  apply N.mod_small.
  pose proof (ndigits_fuel_enough _ _ (size_nat_gt n)) as Hn.
  fold (ndigits n) in Hn.
  eapply N.lt_le_trans; [exact Hn |].
  apply N.pow_le_mono_r; lia.
Qed.

Lemma format_int_inj (w : nat) (n m : N) :
  format_int w n = format_int w m -> n = m.
Proof.
  intros H. pose proof (format_int_value w n) as Hn.
  rewrite H, format_int_value in Hn. congruence.
Qed.

Lemma subject_code_inj (n m : N) :
  "SBJ" +:+ format_int 3 n = "SBJ" +:+ format_int 3 m -> n = m.
Proof.
  rewrite !append_cons, !append_nil_l. intros H.
  injection H as H. now apply format_int_inj in H.
Qed.

Lemma subject_code_loop_Some (fuel : nat) (existing : gset string)
    (counter : N) (r : string) :
  suggest_subject_code_loop fuel existing counter = Some r ->
  exists i, i < fuel
    /\ r = "SBJ" +:+ format_int 3 (counter + N.of_nat i)
    /\ (r ∉ existing)
    /\ forall j, j < i ->
         "SBJ" +:+ format_int 3 (counter + N.of_nat j) ∈ existing.
Proof.
  revert counter. induction fuel as [| fuel IH]; intros counter H;
    [discriminate |].
  cbn [suggest_subject_code_loop] in H. cbn zeta in H.
  case_bool_decide as Hin.
  - destruct (IH _ H) as (i & Hi & Hr & Hfree & Hbelow).
    exists (S i). split; [lia |].
    replace (counter + N.of_nat (S i))%N with (counter + 1 + N.of_nat i)%N
      by lia.
    split; [exact Hr |]. split; [exact Hfree |].
    intros [| j] Hj.
    + now rewrite N.add_0_r.
    + replace (counter + N.of_nat (S j))%N with (counter + 1 + N.of_nat j)%N
        by lia.
      apply Hbelow. lia.
  - injection H as <-. exists 0. rewrite N.add_0_r.
    split; [lia |]. split; [reflexivity |]. split; [exact Hin |].
    intros j Hj. lia.
Qed.

Lemma subject_code_loop_None (fuel : nat) (existing : gset string)
    (counter : N) :
  suggest_subject_code_loop fuel existing counter = None ->
  forall j, j < fuel ->
    "SBJ" +:+ format_int 3 (counter + N.of_nat j) ∈ existing.
Proof.
  revert counter. induction fuel as [| fuel IH]; intros counter H j Hj;
    [lia |].
  cbn [suggest_subject_code_loop] in H. cbn zeta in H.
  case_bool_decide as Hin; [| discriminate].
  destruct j as [| j]; [now rewrite N.add_0_r |].
  replace (counter + N.of_nat (S j))%N with (counter + 1 + N.of_nat j)%N
    by lia.
  apply IH; [exact H | lia].
Qed.

Lemma candidates_NoDup (counter : N) (n : nat) :
  NoDup (map (fun j => "SBJ" +:+ format_int 3 (counter + N.of_nat j))
             (seq 0 n)).
Proof.
  apply (NoDup_fmap_2_strong
           (fun j => "SBJ" +:+ format_int 3 (counter + N.of_nat j))).
  - intros i j _ _ H. apply subject_code_inj in H. lia.
  - apply NoDup_ListNoDup, seq_NoDup.
Qed.

Lemma candidates_bounded (counter : N) (n : nat) (existing : gset string) :
  (forall j, j < n ->
     "SBJ" +:+ format_int 3 (counter + N.of_nat j) ∈ existing) ->
  n <= size existing.
Proof.
  intros Hall.
  set (l := map (fun j => "SBJ" +:+ format_int 3 (counter + N.of_nat j))
                (seq 0 n)).
  assert (Hl : length l = n) by (unfold l; now rewrite length_map, length_seq).
  rewrite <- Hl, <- (size_list_to_set (C := gset string) l)
    by apply candidates_NoDup.
  apply subseteq_size. intros x Hx.
  apply elem_of_list_to_set, list_elem_of_In, in_map_iff in Hx.
  destruct Hx as (j & <- & Hj). apply in_seq in Hj. apply Hall. lia.
Qed.

Lemma subject_code_loop_total (fuel : nat) (existing : gset string)
    (counter : N) :
  size existing < fuel ->
  exists r, suggest_subject_code_loop fuel existing counter = Some r.
Proof.
  intros Hfuel.
  destruct (suggest_subject_code_loop fuel existing counter) as [r |] eqn:E;
    [eauto |].
  pose proof (candidates_bounded counter fuel existing
                (subject_code_loop_None _ _ _ E)). lia.
Qed.

(** X9. [_suggest_subject_code] always ends: with any bound above the number
    of distinct codes the loop returns SBJ followed by [k] zero-padded to at
    least three digits, where [k >= 1] is the least counter whose code no
    subject carries; [k] is at most the number of subjects plus one, and the
    code is fresh also beyond SBJ999. *)
Theorem suggest_subject_code_first_free (all_subjects : list Subject) :
  exists k : N,
    (1 <= k <= N.of_nat (length all_subjects) + 1)%N
    /\ _suggest_subject_code all_subjects = Some ("SBJ" +:+ format_int 3 k)
    /\ ~ In ("SBJ" +:+ format_int 3 k) (map code all_subjects)
    /\ (forall j : N, (1 <= j < k)%N ->
          In ("SBJ" +:+ format_int 3 j) (map code all_subjects))
    /\ (forall fuel,
          size (list_to_set (map code all_subjects) : gset string) < fuel ->
          suggest_subject_code_loop
            fuel (list_to_set (map code all_subjects)) 1
          = Some ("SBJ" +:+ format_int 3 k)).
Proof.
  set (existing := list_to_set (map code all_subjects) : gset string).
  assert (Hin : forall x, x ∈ existing <-> In x (map code all_subjects)).
  { intros x. unfold existing.
    rewrite elem_of_list_to_set. apply list_elem_of_In. }
  destruct (subject_code_loop_total (S (size existing)) existing 1
              ltac:(lia)) as (r & Hr).
  destruct (subject_code_loop_Some _ _ _ _ Hr) as (i & Hi & -> & Hfree & Hbelow).
  exists (1 + N.of_nat i)%N.
  assert (Hlen : i <= length all_subjects).
  { pose proof (candidates_NoDup 1 i) as Hnd.
    apply NoDup_ListNoDup in Hnd.
    apply (NoDup_incl_length (l' := map code all_subjects)) in Hnd.
    - now rewrite !length_map, length_seq in Hnd.
    - intros x Hx. apply in_map_iff in Hx. destruct Hx as (j & <- & Hj).
      apply in_seq in Hj. apply Hin, Hbelow. lia. }
  split; [lia |]. split; [exact Hr |].
  split; [now rewrite <- Hin |]. split.
  - intros j Hj. apply Hin.
    replace j with (1 + N.of_nat (N.to_nat j - 1))%N by lia.
    apply Hbelow. lia.
  - intros fuel Hfuel.
    destruct (subject_code_loop_total fuel existing 1 Hfuel) as (r' & Hr').
    rewrite Hr'. f_equal.
    destruct (subject_code_loop_Some _ _ _ _ Hr')
      as (i' & _ & -> & Hfree' & Hbelow').
    destruct (Nat.lt_trichotomy i i') as [Hlt | [-> | Hgt]]; [| reflexivity |].
    + exfalso. apply Hfree. now apply Hbelow'.
    + exfalso. apply Hfree'. now apply Hbelow.
Qed.

End subject_codes.

(** ** Office hours: [_normalize_time_range] *)

Section office_hours.

Lemma time_eqb_eq (t1 t2 : time) : time_eqb t1 t2 = true <-> t1 = t2.
Proof.
  unfold time_eqb. destruct t1 as [h1 m1], t2 as [h2 m2]. cbn [hour minute].
  rewrite andb_true_iff, !Nat.eqb_eq.
  split; [intros [-> ->]; reflexivity | intros [= -> ->]; auto].
Qed.

Lemma time_ltb_combine (t1 t2 : time) :
  minute t1 < 60 -> minute t2 < 60 ->
  time_ltb t1 t2 = true <-> combine t1 < combine t2.
Proof.
  intros H1 H2. unfold time_ltb, combine.
  rewrite orb_true_iff, andb_true_iff, !Nat.ltb_lt, Nat.eqb_eq. lia.
Qed.

Lemma combine_inj (t1 t2 : time) :
  minute t1 < 60 -> minute t2 < 60 -> combine t1 = combine t2 -> t1 = t2.
Proof.
  destruct t1 as [h1 m1], t2 as [h2 m2]. unfold combine. cbn [hour minute].
  intros H1 H2 H. assert (h1 = h2) by lia. subst h2. f_equal. lia.
Qed.

(** X10. [_normalize_time_range] on two clock times: unless both are the
    same time in the last hour of the day, the returned pair is a window
    that starts strictly before it ends. Two different times come back in
    ascending order, the same time twice comes back as a window of exactly
    one hour. *)
Theorem normalize_time_range_ordered (start end_ : time) :
  hour start < 24 -> minute start < 60 ->
  hour end_ < 24 -> minute end_ < 60 ->
  ~ (start = end_ /\ hour start = 23) ->
  let r := _normalize_time_range start end_ in
  combine r.1 < combine r.2
  /\ (start <> end_ -> r = (start, end_) \/ r = (end_, start))
  /\ (start = end_ -> r.1 = start /\ combine r.2 = combine start + 60).
Proof.
  intros Hh1 Hm1 Hh2 Hm2 Hlast r. unfold r, _normalize_time_range.
  destruct (time_eqb start end_) eqn:Heq.
  - apply time_eqb_eq in Heq. subst end_.
    assert (Hh : hour start < 23) by (destruct (decide (hour start = 23)); [tauto | lia]).
    cbn [fst snd]. unfold combine. cbn [hour minute].
    rewrite (Nat.mod_small (hour start + 1) 24) by lia.
    split; [lia |]. split; [congruence |].
    intros _. split; [reflexivity | lia].
  - assert (Hne : start <> end_).
    { intros ->. rewrite (proj2 (time_eqb_eq end_ end_) eq_refl) in Heq.
      discriminate. }
    destruct (time_ltb end_ start) eqn:Hlt; cbn [fst snd].
    + apply time_ltb_combine in Hlt; [| assumption ..].
      split; [exact Hlt |]. split; [auto | congruence].
    + split; [| split; [auto | congruence]].
      destruct (Nat.lt_trichotomy (combine start) (combine end_))
        as [H | [H | H]]; [exact H | |].
      * now apply combine_inj in H.
      * apply time_ltb_combine in H; [congruence | assumption ..].
Qed.

(** The witness of X10: 11:00 before 09:00. *)
Lemma normalize_time_range_ordered_witness :
  let r := _normalize_time_range (mk_time 11 0) (mk_time 9 0) in
  combine r.1 < combine r.2
  /\ (mk_time 11 0 <> mk_time 9 0 ->
      r = (mk_time 11 0, mk_time 9 0) \/ r = (mk_time 9 0, mk_time 11 0))
  /\ (mk_time 11 0 = mk_time 9 0 ->
      r.1 = mk_time 11 0 /\ combine r.2 = combine (mk_time 11 0) + 60).
Proof.
  apply (normalize_time_range_ordered (mk_time 11 0) (mk_time 9 0));
    cbn [hour minute]; lia.
Defined.

(** X11. A professor whose office hours start and end at the same clock
    time [t]: after [_normalize_time_range], [_build_professor_slots] gives
    exactly one slot per weekday, at [t], when [t] is before 23:00; when [t]
    is in the last hour of the day the end wraps to 00:mm and the professor
    gets no slot at all. *)
Theorem equal_office_times_slots (prof_id name : string) (t : time) :
  hour t < 24 -> minute t < 60 ->
  let r := _normalize_time_range t t in
  let p := mk_Professor prof_id name r.1 r.2 in
  (hour t < 23 ->
   _build_professor_slots p
   = map (fun d => (d, strftime_HM (combine t))) days)
  /\ (hour t = 23 -> _build_professor_slots p = []).
Proof.
  assert (Hc : combine t = 60 * hour t + minute t) by reflexivity.
  rewrite Hc. clear Hc.
  intros Hh Hm r p. unfold p, r, _normalize_time_range.
  rewrite (proj2 (time_eqb_eq t t) eq_refl). cbn [fst snd].
  unfold _build_professor_slots. cbn [office_start office_end].
  unfold combine. cbn [hour minute]. cbn zeta.
  split; intros H23.
  - rewrite (Nat.mod_small (hour t + 1) 24) by lia.
    destruct (le_dec _ _) as [Hle | _]; [unfold combine in Hle; lia |].
    unfold days. cbn [flat_map map]. rewrite !day_slots_blocks.
    replace (60 * (hour t + 1) + minute t - (60 * hour t + minute t))
      with (1 * 60) by lia.
    rewrite Nat.div_mul by lia. cbn [seq map app].
    rewrite Nat.mul_0_r, Nat.add_0_r. reflexivity.
  - rewrite H23.
    replace ((23 + 1) mod 24) with 0 by reflexivity.
    destruct (le_dec _ _) as [_ | Hgt]; [reflexivity |].
    unfold combine in Hgt. lia.
Qed.

(** The witness of X11: office hours 09:30 to 09:30. *)
Lemma equal_office_times_slots_witness :
  let r := _normalize_time_range (mk_time 9 30) (mk_time 9 30) in
  let p := mk_Professor "P1" "Ada" r.1 r.2 in
  (9 < 23 ->
   _build_professor_slots p
   = map (fun d => (d, strftime_HM (combine (mk_time 9 30)))) days)
  /\ (9 = 23 -> _build_professor_slots p = []).
Proof.
  apply (equal_office_times_slots "P1" "Ada" (mk_time 9 30));
    cbn [hour minute]; lia.
Defined.

End office_hours.

(** ** The weekly grid: [_build_timeslots] *)

Section weekly_grid.

Lemma build_timeslots_loop_eq (count : Z) (slots : list (string * string))
    (index : nat) :
  build_timeslots_loop count slots index
  = slots ++ map timeslot_at
               (seq index (Z.to_nat (count - Z.of_nat (length slots)))).
Proof.
  funelim (build_timeslots_loop count slots index).
  - match goal with
    | IH : build_timeslots_loop _ _ _ = (_ ++ _) ++ _ |- _ => rewrite IH
    end.
    rewrite length_app. cbn [length].
    replace (Z.to_nat (count - Z.of_nat (length slots)))
      with (S (Z.to_nat (count - Z.of_nat (length slots + 1)))) by lia.
    cbn [seq map]. now rewrite <- app_assoc.
  - replace (Z.to_nat (count - Z.of_nat (length slots))) with 0 by lia.
    cbn [seq map]. now rewrite app_nil_r.
Qed.

Lemma build_timeslots_eq (count : Z) :
  _build_timeslots count = map timeslot_at (seq 0 (Z.to_nat count)).
Proof.
  unfold _build_timeslots. rewrite build_timeslots_loop_eq.
  cbn [length app]. now rewrite Z.sub_0_r.
Qed.

Lemma timeslot_at_mod (i : nat) : timeslot_at i = timeslot_at (i mod 98).
Proof.
  unfold timeslot_at.
  replace (length week_days) with 7 by reflexivity.
  replace (length day_hours) with 14 by reflexivity.
  pose proof (Nat.div_mod_eq i 98). pose proof (Nat.mod_upper_bound i 98).
  pose proof (Nat.div_mod_eq i 7). pose proof (Nat.mod_upper_bound i 7).
  pose proof (Nat.div_mod_eq (i mod 98) 7).
  pose proof (Nat.mod_upper_bound (i mod 98) 7).
  pose proof (Nat.div_mod_eq (i / 7) 14).
  pose proof (Nat.mod_upper_bound (i / 7) 14).
  pose proof (Nat.div_mod_eq (i mod 98 / 7) 14).
  pose proof (Nat.mod_upper_bound (i mod 98 / 7) 14).
  replace ((i mod 98) mod 7) with (i mod 7) by lia.
  replace ((i mod 98 / 7) mod 14) with ((i / 7) mod 14) by lia.
  reflexivity.
Qed.

Lemma grid_NoDup : NoDup (map timeslot_at (seq 0 98)).
Proof. apply (bool_decide_unpack _). vm_compute. exact I. Qed.

Lemma timeslot_at_inj (i j : nat) :
  i < 98 -> j < 98 -> timeslot_at i = timeslot_at j -> i = j.
Proof.
  intros Hi Hj H.
  apply (NoDup_lookup _ i j (timeslot_at i) grid_NoDup).
  - rewrite list_lookup_fmap, lookup_seq_lt by exact Hi. reflexivity.
  - rewrite list_lookup_fmap, lookup_seq_lt by exact Hj. cbn. now rewrite H.
Qed.

(** X12. [_build_timeslots count] returns [max(count, 0)] slots; slot [i]
    has the day [i mod 7] of the week and the hour [8 + (i div 7) mod 14];
    the grid has period 98: slots [i] and [j] are the same (day, time) pair
    exactly when [i] and [j] agree modulo 98, so a list of at most 98 slots
    has no repetition. *)
Theorem build_timeslots_grid (count : Z) :
  length (_build_timeslots count) = Z.to_nat count
  /\ (forall i, i < Z.to_nat count ->
        _build_timeslots count !! i = Some (timeslot_at i))
  /\ (forall i j, timeslot_at i = timeslot_at j <-> i mod 98 = j mod 98)
  /\ ((count <= 98)%Z -> NoDup (_build_timeslots count)).
Proof.
  rewrite build_timeslots_eq. split; [now rewrite length_map, length_seq |].
  split.
  { intros i Hi. rewrite list_lookup_fmap, lookup_seq_lt by exact Hi.
    reflexivity. }
  split.
  { intros i j. split; intros H.
    - rewrite (timeslot_at_mod i), (timeslot_at_mod j) in H.
      apply timeslot_at_inj in H; [exact H | apply Nat.mod_upper_bound; lia ..].
    - now rewrite (timeslot_at_mod i), (timeslot_at_mod j), H. }
  intros Hc. apply (NoDup_fmap_2_strong timeslot_at).
  - intros i j Hi Hj. apply list_elem_of_In, in_seq in Hi, Hj.
    apply timeslot_at_inj; lia.
  - apply NoDup_ListNoDup, seq_NoDup.
Qed.

End weekly_grid.

(** ** Form fields: [_clean_text] *)

Section form_fields.

Lemma rstrip_cons (c : ascii) (r : string) :
  rstrip (String c r)
  = match rstrip r with
    | EmptyString => if isspace c then EmptyString else String c EmptyString
    | String a b => String c (String a b)
    end.
Proof. reflexivity. Qed.

Lemma rstrip_idem (s : string) : rstrip (rstrip s) = rstrip s.
Proof.
  induction s as [| c r IH]; [reflexivity |].
  rewrite (rstrip_cons c r). destruct (rstrip r) as [| a b] eqn:E.
  - destruct (isspace c) eqn:Hc; [reflexivity |].
    rewrite rstrip_cons. cbn [rstrip]. now rewrite Hc.
  - rewrite rstrip_cons, IH. reflexivity.
Qed.

Lemma rstrip_head (c : ascii) (r : string) :
  isspace c = false -> exists r', rstrip (String c r) = String c r'.
Proof.
  intros Hc. rewrite rstrip_cons. destruct (rstrip r); [rewrite Hc |]; eauto.
Qed.

Lemma lstrip_head (s : string) :
  lstrip s = EmptyString
  \/ exists c r, lstrip s = String c r /\ isspace c = false.
Proof.
  induction s as [| c r IH]; [now left |].
  cbn [lstrip]. destruct (isspace c) eqn:Hc; [exact IH |].
  right. eauto.
Qed.

Lemma strip_idem (s : string) : strip (strip s) = strip s.
Proof.
  unfold strip. destruct (lstrip_head s) as [-> | (c & r & -> & Hc)];
    [reflexivity |].
  destruct (rstrip_head c r Hc) as (r' & Hr). rewrite Hr.
  cbn [lstrip]. rewrite Hc, <- Hr. apply rstrip_idem.
Qed.

(** X13. The value [_clean_text] returns has no white space left at either
    end, is never the (non-empty) placeholder text of the field, and is a
    fixed point: cleaning it again with the same placeholder gives it
    back. A missing text gives the empty string. *)
Theorem clean_text_normal (text : option string) (default : string) :
  let r := _clean_text text default in
  strip r = r
  /\ (truthy default = true -> r <> default)
  /\ _clean_text (Some r) default = r
  /\ (text = None -> r = EmptyString).
Proof.
  intros r. unfold r, _clean_text.
  destruct text as [text |].
  - destruct (truthy default && String.eqb (strip text) default) eqn:E.
    + split; [reflexivity |]. split.
      { intros Ht Hd. rewrite <- Hd in Ht. discriminate Ht. }
      split; [| discriminate].
      replace (strip EmptyString) with EmptyString by reflexivity.
      destruct default; reflexivity.
    + split; [apply strip_idem |]. split.
      { intros Ht Hd. rewrite Ht in E. cbn [andb] in E.
        apply String.eqb_neq in E. contradiction. }
      split; [| discriminate].
      rewrite strip_idem, E. reflexivity.
  - split; [reflexivity |]. split.
    { intros Ht Hd. rewrite <- Hd in Ht. discriminate Ht. }
    split; [| reflexivity].
    replace (strip EmptyString) with EmptyString by reflexivity.
    destruct default; reflexivity.
Qed.

End form_fields.

(** ** Legacy office hours: [_split_hours] *)

Section legacy_office_hours.

Lemma digit_not_colon (c : ascii) :
  is_digit c = true -> Ascii.eqb c ":" = false.
Proof.
  intros H. destruct (Ascii.eqb_spec c ":") as [-> | _]; [| reflexivity].
  vm_compute in H. discriminate H.
Qed.

Lemma two_digits (n : N) :
  (n < 100)%N ->
  format_int 2 n
  = String (digit_chr (n / 10)) (String (digit_chr (n mod 10)) EmptyString).
Proof.
  intros Hn. rewrite format_int_fits by (cbn; lia).
  cbn [dec_digits]. rewrite append_nil_l, append_cons, append_nil_l.
  rewrite (N.mod_small (n / 10) 10); [reflexivity |].
  apply N.Div0.div_lt_upper_bound. lia.
Qed.

Lemma time_HM_shape (t : time) :
  hour t < 24 -> minute t < 60 ->
  exists a b c d,
    time_HM t = String a (String b (String ":" (String c (String d EmptyString))))
    /\ is_digit a = true /\ is_digit b = true
    /\ is_digit c = true /\ is_digit d = true
    /\ (10 * digit_val a + digit_val b = N.of_nat (hour t))%N
    /\ (10 * digit_val c + digit_val d = N.of_nat (minute t))%N.
Proof.
  intros Hh Hm. unfold time_HM.
  rewrite !two_digits by lia.
  set (h := N.of_nat (hour t)). set (m := N.of_nat (minute t)).
  assert (Hh' : (h < 24)%N) by lia. assert (Hm' : (m < 60)%N) by lia.
  destruct (digit_chr_val (h / 10)) as [Ha Hav];
    [apply N.Div0.div_lt_upper_bound; lia |].
  destruct (digit_chr_val (h mod 10)) as [Hb Hbv]; [apply N.mod_lt; lia |].
  destruct (digit_chr_val (m / 10)) as [Hc Hcv];
    [apply N.Div0.div_lt_upper_bound; lia |].
  destruct (digit_chr_val (m mod 10)) as [Hd Hdv]; [apply N.mod_lt; lia |].
  eexists _, _, _, _. split; [reflexivity |].
  repeat (split; [assumption |]).
  rewrite Hav, Hbv, Hcv, Hdv.
  pose proof (N.Div0.div_mod h 10). pose proof (N.Div0.div_mod m 10). lia.
Qed.

Lemma normalize_clock (a b c d : ascii) (h m : N) :
  is_digit a = true -> is_digit b = true ->
  is_digit c = true -> is_digit d = true ->
  (10 * digit_val a + digit_val b = h)%N ->
  (10 * digit_val c + digit_val d = m)%N ->
  normalize (String a (String b (String ":" (String c (String d EmptyString)))))
  = format_int 2 (N.min 23 h) +:+ ":" +:+ format_int 2 (N.min 59 m).
Proof.
  intros Ha Hb Hc Hd Hh Hm. unfold normalize. cbn [partition_colon].
  rewrite (digit_not_colon a Ha), (digit_not_colon b Hb).
  replace (Ascii.eqb ":" ":") with true by reflexivity.
  cbn [int_of_str int_acc]. rewrite Ha, Hb, Hc, Hd.
  replace (10 * (10 * 0 + digit_val a) + digit_val b)%N with h by lia.
  replace (10 * (10 * 0 + digit_val c) + digit_val d)%N with m by lia.
  reflexivity.
Qed.

Lemma findall_two_clocks (a b c d a' b' c' d' : ascii) :
  is_digit a = true -> is_digit b = true ->
  is_digit c = true -> is_digit d = true ->
  is_digit a' = true -> is_digit b' = true ->
  is_digit c' = true -> is_digit d' = true ->
  findall_clock 0
    (String a (String b (String ":" (String c (String d EmptyString))))
     +:+ " - "
     +:+ String a' (String b' (String ":" (String c' (String d' EmptyString)))))
  = [String a (String b (String ":" (String c (String d EmptyString))));
     String a' (String b' (String ":" (String c' (String d' EmptyString))))].
Proof.
  intros Ha Hb Hc Hd Ha' Hb' Hc' Hd'.
  rewrite !append_cons, !append_nil_l.
  assert (Hsp : is_digit " " = false) by reflexivity.
  assert (Hda : is_digit "-" = false) by reflexivity.
  assert (Hco : Ascii.eqb ":" ":" = true) by reflexivity.
  cbn [findall_clock match_clock].
  rewrite Ha, Hb, Hco, Hc, Hd. cbn [andb append String.length Nat.sub].
  cbn [findall_clock match_clock].
  rewrite Hsp, Hda, Ha', Hb', Hco, Hc', Hd'.
  cbn [andb append String.length Nat.sub findall_clock].
  reflexivity.
Qed.

(** X14. What [Professor.as_dict] writes as OFFICE_HOURS is read back by
    [_split_hours]: for a professor with clock times, the two texts are the
    HH:MM forms of the office start and the office end. *)
Theorem split_hours_reads_office_hours (p : Professor) :
  hour (office_start p) < 24 -> minute (office_start p) < 60 ->
  hour (office_end p) < 24 -> minute (office_end p) < 60 ->
  _split_hours (office_hours p)
  = (time_HM (office_start p), time_HM (office_end p)).
Proof.
  intros Hh1 Hm1 Hh2 Hm2. unfold _split_hours, office_hours.
  destruct (time_HM_shape _ Hh1 Hm1)
    as (a & b & c & d & Hs & Ha & Hb & Hc & Hd & Hhv & Hmv).
  destruct (time_HM_shape _ Hh2 Hm2)
    as (a' & b' & c' & d' & Hs' & Ha' & Hb' & Hc' & Hd' & Hhv' & Hmv').
  rewrite Hs, Hs'. rewrite findall_two_clocks by assumption.
  rewrite append_cons. cbn [truthy].
  rewrite (normalize_clock a b c d _ _ Ha Hb Hc Hd Hhv Hmv).
  rewrite (normalize_clock a' b' c' d' _ _ Ha' Hb' Hc' Hd' Hhv' Hmv').
  rewrite <- Hs, <- Hs'. unfold time_HM.
  rewrite !N.min_r by lia. reflexivity.
Qed.

(** The witness of X14: office hours 09:00 to 11:00. *)
Lemma split_hours_reads_office_hours_witness :
  _split_hours (office_hours prof_9_11)
  = (time_HM (office_start prof_9_11), time_HM (office_end prof_9_11)).
Proof.
  apply (split_hours_reads_office_hours prof_9_11); vm_compute; lia.
Defined.

Lemma normalize_match (s m : string) :
  match_clock s = Some m ->
  exists h mi : N,
    (h <= 23)%N /\ (mi <= 59)%N
    /\ normalize m = format_int 2 h +:+ ":" +:+ format_int 2 mi.
Proof.
  assert (Hco : Ascii.eqb ":" ":" = true) by reflexivity.
  assert (Hz : is_digit "0" = true) by reflexivity.
  intros H. destruct s as [| c1 r1]; [discriminate |].
  cbn [match_clock] in H. destruct (is_digit c1) eqn:H1; [| discriminate].
  pose proof (digit_not_colon c1 H1) as N1.
  destruct r1 as [| c2 r2];
    [| destruct (is_digit c2) eqn:H2;
       [pose proof (digit_not_colon c2 H2) as N2;
        destruct r2 as [| c [| d1 [| d2 r]]]
       | destruct r2 as [| d1 [| d2 r]]]];
    try (destruct (Ascii.eqb _ ":" && is_digit d1 && is_digit d2) eqn:E;
         [apply andb_prop in E; destruct E as [E Hd2];
          apply andb_prop in E; destruct E as [_ Hd1] |]);
    injection H as <-;
    unfold normalize; rewrite ?append_cons, ?append_nil_l;
    cbn [partition_colon]; rewrite ?N1, ?N2, ?Hco;
    cbn [partition_colon int_of_str int_acc];
    rewrite ?H1, ?H2, ?Hd1, ?Hd2, ?Hz;
    (eexists _, _; split; [| split; [| reflexivity]]); lia.
Qed.

Lemma findall_clock_In (s : string) (skip : nat) (m : string) :
  In m (findall_clock skip s) -> exists s', match_clock s' = Some m.
Proof.
  revert skip. induction s as [| c r IH]; intros skip Hin; [destruct Hin |].
  cbn [findall_clock] in Hin. destruct skip as [| k]; [| eauto].
  destruct (match_clock (String c r)) as [m' |] eqn:E; [| eauto].
  destruct Hin as [<- | Hin]; eauto.
Qed.

(** X15. [_split_hours] returns two empty texts when the text holds fewer
    than two matches of the clock pattern, and otherwise two texts of the
    form HH:MM with an hour of at most 23 and a minute of at most 59: on the
    matches of its own pattern [normalize] never takes the [ValueError]
    branch, so the two texts are never empty on one side only. *)
Theorem split_hours_clock_texts (text : string) :
  (length (findall_clock 0 text) < 2
   /\ _split_hours text = (EmptyString, EmptyString))
  \/ (2 <= length (findall_clock 0 text)
      /\ exists h1 m1 h2 m2 : N,
           (h1 <= 23)%N /\ (m1 <= 59)%N /\ (h2 <= 23)%N /\ (m2 <= 59)%N
           /\ _split_hours text
              = (format_int 2 h1 +:+ ":" +:+ format_int 2 m1,
                 format_int 2 h2 +:+ ":" +:+ format_int 2 m2)).
Proof.
  unfold _split_hours. destruct text as [| c r];
    [left; split; [cbn; lia | reflexivity] |].
  cbn [truthy].
  destruct (findall_clock 0 (String c r)) as [| p0 [| p1 l]] eqn:E;
    [left; split; [cbn; lia | reflexivity] ..|].
  right. split; [cbn [length]; lia |].
  destruct (findall_clock_In (String c r) 0 p0) as (s0 & H0);
    [rewrite E; now left |].
  destruct (findall_clock_In (String c r) 0 p1) as (s1 & H1);
    [rewrite E; right; now left |].
  destruct (normalize_match _ _ H0) as (h1 & m1 & Hh1 & Hm1 & ->).
  destruct (normalize_match _ _ H1) as (h2 & m2 & Hh2 & Hm2 & ->).
  exists h1, m1, h2, m2. auto.
Qed.

End legacy_office_hours.
